(** * A shallow embedding of drake's [SystemBase] (systems/framework/system_base.cc)

    The C++ member functions of [SystemBase] are rendered as computations in a
    small state-and-exception monad.  An exception leaves the state as it was
    at the [throw]: C++ mutates objects in place, so whatever was written
    before the exception stays written. *)

From stdpp Require Import base gmap sets list strings pretty.

Open Scope string_scope.
Open Scope list_scope.

(** ** Exceptions and outcomes *)

(** The exception classes the translation unit throws.  A failed
    [DRAKE_DEMAND] is kept apart from the two standard classes. *)
Inductive exception : Type :=
  | std_out_of_range (what : string)
  | std_logic_error (what : string)
  | drake_demand_failed (condition : string).

Inductive Outcome (A : Type) : Type :=
  | Returned (a : A)
  | Thrown (e : exception).
Arguments Returned {A} a.
Arguments Thrown {A} e.

(** The error kinds of the design document, read off the exception class. *)
Definition OutOfRange (e : exception) : Prop :=
  match e with std_out_of_range _ => True | _ => False end.

Definition PreconditionViolation (e : exception) : Prop :=
  match e with
  | drake_demand_failed _ | std_logic_error _ => True
  | std_out_of_range _ => False
  end.

(** ** The monad: state [S] threaded through, exceptions short-circuit *)

Definition Eff (S A : Type) : Type := S -> Outcome A * S.

Definition ret {S A} (a : A) : Eff S A := fun s => (Returned a, s).

Definition throw {S A} (e : exception) : Eff S A := fun s => (Thrown e, s).

Definition bind {S A B} (c : Eff S A) (k : A -> Eff S B) : Eff S B :=
  fun s => match c s with
           | (Returned a, s') => k a s'
           | (Thrown e, s') => (Thrown e, s')
           end.

Definition gets {S A} (f : S -> A) : Eff S A := fun s => (Returned (f s), s).

Definition modify {S} (f : S -> S) : Eff S unit := fun s => (Returned tt, f s).

Declare Scope eff_scope.
Delimit Scope eff_scope with eff.
Notation "'let*' x ':=' c 'in' k" := (bind c (fun x => k))
  (at level 10, x name, c at level 100, k at level 200) : eff_scope.
Notation "c1 ';;;' c2" := (bind c1 (fun _ => c2))
  (at level 100, c2 at level 200, right associativity) : eff_scope.
Open Scope eff_scope.

(** A computation on the second component of a pair of states. *)
Definition on_snd {S1 S2 A} (c : Eff S2 A) : Eff (S1 * S2) A :=
  fun s => let '(r, s2) := c (snd s) in (r, (fst s, s2)).

(** A range-based [for] loop whose body may throw. *)
Fixpoint for_each {S A} (l : list A) (body : A -> Eff S unit) : Eff S unit :=
  match l with
  | [] => ret tt
  | x :: rest => body x ;;; for_each rest body
  end.

(** Modelled from the spec: the DRAKE_DEMAND macro (drake/common/drake_assert.h
    is not among the sources).  The design document classes a failed demand as
    a fatal PreconditionViolation raised before anything is mutated. *)
Definition DRAKE_DEMAND {S} (condition : bool) (text : string) : Eff S unit :=
  if condition then ret tt else throw (drake_demand_failed text).

(** [std::vector::at] with an [int] argument: the index is converted to
    [size_t], so a negative one wraps to a huge value and is out of range. *)
Definition vector_at {S A} (v : list A) (i : Z) : Eff S A :=
  if bool_decide (0 <= i)%Z then
    match v !! Z.to_nat i with
    | Some x => ret x
    | None => throw (std_out_of_range "vector::at")
    end
  else throw (std_out_of_range "vector::at").

(** ** Message text *)

(** [names part msg]: the text [part] occurs in the message [msg]. *)
Definition names (part msg : string) : Prop :=
  exists before after, msg = before +:+ part +:+ after.

Fixpoint occurs_in (part msg : string) : bool :=
  String.prefix part msg ||
  match msg with
  | EmptyString => false
  | String _ rest => occurs_in part rest
  end.

(** Output a string like "System::EvalInput()". *)
Definition FmtFunc (func : string) : string := "System::" +:+ func +:+ "()".

(** ** The data model *)

(** [DependencyTicket], [CacheIndex], [InputPortIndex] and [OutputPortIndex]
    are type-safe indices: non-negative by construction. *)
Abbreviation DependencyTicket := nat (only parsing).
Abbreviation CacheIndex := nat (only parsing).
Abbreviation InputPortIndex := nat (only parsing).
Abbreviation OutputPortIndex := nat (only parsing).
(** [internal::SystemId]: zero is the invalid, default-constructed id. *)
Abbreviation SystemId := N (only parsing).

(** The well-known tickets [xd_ticket()], [xa_ticket()], [pn_ticket()],
    [pa_ticket()] and the "all input ports" ticket.  Their numeric values are
    fixed in framework_common.h, which is not among the sources, so they are
    taken as given. *)
Record BuiltInTickets : Type := {
  xd_ticket : DependencyTicket;
  xa_ticket : DependencyTicket;
  pn_ticket : DependencyTicket;
  pa_ticket : DependencyTicket;
  all_input_ports_ticket : DependencyTicket
}.

(** [SystemBase::TrackerInfo]. *)
Record TrackerInfo : Type := {
  info_ticket : DependencyTicket;
  info_description : string
}.

(** [PortBase]: what the input and output port descriptors share.  The
    [deprecation_already_warned] flag is the per-instance atomic. *)
Record PortBase : Type := {
  get_index : nat;
  port_ticket : DependencyTicket;
  get_name : string;
  get_deprecation : option string;
  deprecation_already_warned : bool
}.

Record InputPortBase : Type := { input_base : PortBase }.

(** [internal::OutputPortPrerequisite]. *)
Record OutputPortPrerequisite : Type := {
  child_subsystem : option nat;
  dependency : DependencyTicket
}.

Record OutputPortBase : Type := {
  output_base : PortBase;
  GetPrerequisite : OutputPortPrerequisite
}.

(** Runtime node of the dependency graph: a generation stamp and the
    subscribers to notify. *)
Record DependencyTracker : Type := {
  tracker_description : string;
  tracker_stamp : N;
  tracker_subscribers : gset DependencyTicket
}.

(** One deprecation warning written to the log.  The first three fields
    record which combination the text was issued for. *)
Record Warning : Type := {
  warned_system_type : string;
  warned_is_input : bool;
  warned_port_name : string;
  warning_text : string
}.

(** The process-wide statics of [WarnPortDeprecation] ([g_warned_hash], under
    [g_mutex]) and the log sink [drake::log()]. *)
Record Process : Type := {
  g_warned_hash : gset N;
  drake_log : list Warning
}.

Section SystemBase.

Set Default Proof Using "Type".

(** [AbstractValue] is a type-erased value; nothing here looks inside one. *)
Context {AbstractValue : Type}.

(** The well-known tickets, the separator
    [internal::SystemMessageInterface::path_separator()] and the key that
    [drake::internal::FNV1aHasher] computes from (system type, direction,
    port name): constants and a hash of headers outside the sources. *)
Variable builtin : BuiltInTickets.
Variable path_separator : string.
Variable FNV1a_key : string -> bool -> string -> N.

(** [FixedInputPortValue]: the caller-supplied value of an input port. *)
Record FixedInputPortValue : Type := { get_value : AbstractValue }.

(** The per-Context slot of one cache entry. *)
Record CacheEntryValue : Type := {
  value_cache_index : CacheIndex;
  value_ticket : DependencyTicket;
  value_description : string;
  value_storage : option AbstractValue;
  value_is_up_to_date : bool;
  is_cache_entry_disabled : bool
}.

Local Set Warnings "-register-all".

(** [ContextBase].  [ctx_parent] is the non-owning pointer to the parent
    Context; a root Context has none. *)
Inductive ContextBase : Type := Build_ContextBase {
  ctx_system_name : string;
  ctx_system_id : SystemId;
  ctx_parent : option ContextBase;
  is_context_base_initialized : bool;
  ctx_graph : gmap DependencyTicket DependencyTracker;
  ctx_cache : gmap CacheIndex CacheEntryValue;
  ctx_input_port_tickets : list DependencyTicket;
  ctx_input_port_values : list (option FixedInputPortValue);
  ctx_input_port_type_checkers : list (AbstractValue -> bool);
  ctx_output_port_tickets : list DependencyTicket;
  ctx_discrete_state_tickets : list DependencyTicket;
  ctx_abstract_state_tickets : list DependencyTicket;
  ctx_numeric_parameter_tickets : list DependencyTicket;
  ctx_abstract_parameter_tickets : list DependencyTicket
}.

(** [ValueProducer]: the allocate and calculate capabilities of a cache
    entry. *)
Record ValueProducer : Type := {
  producer_allocate : unit -> AbstractValue;
  producer_calc : ContextBase -> AbstractValue
}.

(** [CacheEntry]: the declaration-side descriptor. *)
Record CacheEntry : Type := {
  cache_index : CacheIndex;
  ticket : DependencyTicket;
  description : string;
  value_producer : ValueProducer;
  prerequisites : gset DependencyTicket;
  is_disabled_by_default : bool
}.

Definition Allocate (entry : CacheEntry) : AbstractValue :=
  producer_allocate (value_producer entry) tt.

(** [internal::SystemParentServiceInterface]: what a subsystem may ask of the
    Diagram that contains it.  [GetRootSystemBase_id] stands for
    [GetRootSystemBase().get_system_id()], the only use made of the root. *)
Record SystemParentServiceInterface : Type := {
  GetParentPathname : string;
  GetRootSystemBase_id : SystemId;
  EvalConnectedSubsystemInputPort :
    ContextBase -> InputPortBase -> Eff Process (option AbstractValue)
}.

(** [SystemBase].  [GetSystemType] and [MakeFixInputPortTypeChecker] are
    virtual; a System value carries what its concrete class answers. *)
Record SystemBase : Type := {
  name_ : string;
  system_id_ : SystemId;
  GetSystemType : string;
  parent_service_ : option SystemParentServiceInterface;
  input_ports_ : list InputPortBase;
  output_ports_ : list OutputPortBase;
  cache_entries_ : list CacheEntry;
  discrete_state_tickets_ : list TrackerInfo;
  abstract_state_tickets_ : list TrackerInfo;
  numeric_parameter_tickets_ : list TrackerInfo;
  abstract_parameter_tickets_ : list TrackerInfo;
  next_available_ticket_ : DependencyTicket;
  MakeFixInputPortTypeChecker : InputPortIndex -> AbstractValue -> bool
}.

Definition num_input_ports (this : SystemBase) : nat := length (input_ports_ this).
Definition num_output_ports (this : SystemBase) : nat := length (output_ports_ this).
Definition num_cache_entries (this : SystemBase) : nat := length (cache_entries_ this).
Definition get_parent_service (this : SystemBase) := parent_service_ this.
Definition get_system_id (this : SystemBase) : SystemId := system_id_ this.

(** ** Collaborators outside the sources

    [ContextBase], [DependencyGraph], [Cache], [CacheEntry] and the header
    part of [SystemBase] are declared in files that are not among the
    sources.  Their operations are written here from the design document. *)

(** Modelled from the spec: [ContextBase::get_parent_base] and
    [is_root_context] (context_base.h is missing): a Context holds a
    non-owning reference to its parent if any and is root when it has none. *)
Definition get_parent_base (context : ContextBase) : option ContextBase :=
  ctx_parent context.

Definition is_root_context (context : ContextBase) : bool :=
  bool_decide (ctx_parent context = None).

(** Modelled from the spec: [ContextBase::MaybeGetFixedInputPortValue]
    (context_base.h is missing): the caller-fixed value the Context stores
    for the port, or null when there is none. *)
Definition MaybeGetFixedInputPortValue (context : ContextBase)
    (index : InputPortIndex) : option FixedInputPortValue :=
  mjoin (ctx_input_port_values context !! index).

(** Modelled from the spec: [SystemBase::GetSystemName] (system_base.h is
    missing): the name the System was declared with. *)
Definition GetSystemName (this : SystemBase) : string := name_ this.

(** Modelled from the spec: [ContextBase::GetSystemPathname]
    (context_base.cc is missing): walk the parent links, concatenating each
    level's name with the fixed separator. *)
Fixpoint Context_GetSystemPathname (context : ContextBase) : string :=
  match ctx_parent context with
  | None => ""
  | Some parent => Context_GetSystemPathname parent
  end +:+ path_separator +:+ ctx_system_name context.

(** Modelled from the spec: [SystemBase::assign_next_dependency_ticket]
    (system_base.h is missing): return the next unused ticket; tickets are
    handed out in strictly ascending order and never reused. *)
Definition set_next_available_ticket (t : DependencyTicket) (this : SystemBase)
    : SystemBase :=
  {| name_ := name_ this; system_id_ := system_id_ this;
     GetSystemType := GetSystemType this;
     parent_service_ := parent_service_ this;
     input_ports_ := input_ports_ this; output_ports_ := output_ports_ this;
     cache_entries_ := cache_entries_ this;
     discrete_state_tickets_ := discrete_state_tickets_ this;
     abstract_state_tickets_ := abstract_state_tickets_ this;
     numeric_parameter_tickets_ := numeric_parameter_tickets_ this;
     abstract_parameter_tickets_ := abstract_parameter_tickets_ this;
     next_available_ticket_ := t;
     MakeFixInputPortTypeChecker := MakeFixInputPortTypeChecker this |}.

Definition assign_next_dependency_ticket : Eff SystemBase DependencyTicket :=
  let* t := gets next_available_ticket_ in
  modify (set_next_available_ticket (S t)) ;;;
  ret t.

(** Modelled from the spec: the [CacheEntry] constructor (cache_entry.cc is
    missing).  A cache entry has a non-empty set of prerequisite tickets; as
    the comment in [DeclareCacheEntryWithKnownTicket] says, the constructor
    throws a logic error when the set is empty.  A new entry is not disabled
    by default. *)
Definition new_CacheEntry {S} (index : CacheIndex) (known_ticket : DependencyTicket)
    (descr : string) (producer : ValueProducer)
    (prerequisites_of_calc : gset DependencyTicket) : Eff S CacheEntry :=
  if bool_decide (prerequisites_of_calc = ∅) then
    throw (std_logic_error
      ("CacheEntry(" +:+ descr +:+ "): empty prerequisites list."))
  else
    ret {| cache_index := index; ticket := known_ticket; description := descr;
           value_producer := producer;
           prerequisites := prerequisites_of_calc;
           is_disabled_by_default := false |}.

(** ** system_base.cc *)

(** [cache_entries_.emplace_back(...)]. *)
Definition emplace_back_cache_entry (entry : CacheEntry) (this : SystemBase)
    : SystemBase :=
  {| name_ := name_ this; system_id_ := system_id_ this;
     GetSystemType := GetSystemType this;
     parent_service_ := parent_service_ this;
     input_ports_ := input_ports_ this; output_ports_ := output_ports_ this;
     cache_entries_ := cache_entries_ this ++ [entry];
     discrete_state_tickets_ := discrete_state_tickets_ this;
     abstract_state_tickets_ := abstract_state_tickets_ this;
     numeric_parameter_tickets_ := numeric_parameter_tickets_ this;
     abstract_parameter_tickets_ := abstract_parameter_tickets_ this;
     next_available_ticket_ := next_available_ticket_ this;
     MakeFixInputPortTypeChecker := MakeFixInputPortTypeChecker this |}.

(** A [CacheEntry&] into [cache_entries_] is the position it refers to;
    [get_cache_entry] dereferences it. *)
Definition get_cache_entry (this : SystemBase) (index : CacheIndex)
    : option CacheEntry :=
  cache_entries_ this !! index.

(** [SystemBase::DeclareCacheEntryWithKnownTicket].  The constructor runs
    while the argument of [emplace_back] is built, so when it throws nothing
    has been appended.  The result is the reference [*cache_entries_.back()]. *)
Definition DeclareCacheEntryWithKnownTicket (known_ticket : DependencyTicket)
    (descr : string) (producer : ValueProducer)
    (prerequisites_of_calc : gset DependencyTicket) : Eff SystemBase CacheIndex :=
  let* index := gets num_cache_entries in
  let* entry := new_CacheEntry index known_ticket descr producer
                  prerequisites_of_calc in
  modify (emplace_back_cache_entry entry) ;;;
  gets (fun this => pred (length (cache_entries_ this))).

(** [SystemBase::DeclareCacheEntry].  [assign_next_dependency_ticket()] is an
    argument of the call, so it is evaluated before the callee's body. *)
Definition DeclareCacheEntry (descr : string) (producer : ValueProducer)
    (prerequisites_of_calc : gset DependencyTicket) : Eff SystemBase CacheIndex :=
  let* known_ticket := assign_next_dependency_ticket in
  DeclareCacheEntryWithKnownTicket known_ticket descr producer
    prerequisites_of_calc.

(** *** The default name of a System object *)

(** The character a one-character literal stands for. *)
Definition char (literal : string) : Ascii.ascii :=
  match literal with
  | String c _ => c
  | EmptyString => Ascii.zero
  end.

(** The characters that [.] in an ECMAScript regular expression does not
    match: line feed and carriage return. *)
Definition is_line_terminator (c : Ascii.ascii) : bool :=
  bool_decide (c = Ascii.ascii_of_nat 10) ||
  bool_decide (c = Ascii.ascii_of_nat 13).

(** The whole of [s] matches [.*>$]: characters other than line terminators,
    then a closing angle bracket, then the end of the text. *)
Fixpoint closes_template (s : string) : bool :=
  match s with
  | EmptyString => false
  | String c rest =>
      (bool_decide (c = char ">") && bool_decide (rest = EmptyString)) ||
      (negb (is_line_terminator c) && closes_template rest)
  end.

(** [std::regex_replace(s, std::regex("<.*>$"), std::string())].  The
    leftmost match starts at the first opening angle bracket from which the
    rest of the text matches [.*>$]; it reaches the end of the text, so it is
    the only match, and it is replaced by nothing. *)
Fixpoint remove_template_parameters (s : string) : string :=
  match s with
  | EmptyString => EmptyString
  | String c rest =>
      if bool_decide (c = char "<") && closes_template rest then EmptyString
      else String c (remove_template_parameters rest)
  end.

(** [std::regex_replace(s, std::regex(":+"), std::string("/"))]: every
    maximal run of colons becomes one slash.  [in_run] says that the
    character before was a colon of the run being replaced. *)
Fixpoint replace_colons (in_run : bool) (s : string) : string :=
  match s with
  | EmptyString => EmptyString
  | String c rest =>
      if bool_decide (c = char ":") then
        if in_run then replace_colons true rest
        else String (char "/") (replace_colons true rest)
      else String c (replace_colons false rest)
  end.

(** The lower-case hexadecimal digit for a value below sixteen. *)
Definition hex_digit (d : N) : Ascii.ascii :=
  default Ascii.zero (String.get (N.to_nat d) "0123456789abcdef").

(** The [n] lowest hexadecimal digits of [x], most significant first. *)
Fixpoint hex_digits (n : nat) (x : N) : string :=
  match n with
  | 0 => EmptyString
  | S n' =>
      String (hex_digit ((x / 16 ^ N.of_nat n') mod 16)) (hex_digits n' x)
  end.

(** The number of hexadecimal digits [x] is written with. *)
Definition hex_width (x : N) : nat := S (N.to_nat (N.log2 x / 4)).

(** [fmt::format("{:0>16x}", x)]: [x] in hexadecimal, right-aligned in a
    field of sixteen characters filled with zeros; a longer number is not
    cut. *)
Definition format_0_16x (x : N) : string :=
  hex_digits (max 16 (hex_width x)) x.

(** [SystemBase::GetMemoryObjectName].  [nice_type_name] is what
    [NiceTypeName::Get( *this)] gives for the object and [address] is
    [reinterpret_cast<uintptr_t>(this)]. *)
Definition GetMemoryObjectName (nice_type_name : string) (address : N)
    : string :=
  let type_name_without_templates :=
    remove_template_parameters nice_type_name in
  let default_name := replace_colons false type_name_without_templates in
  default_name +:+ "@" +:+ format_0_16x address.

(** [SystemBase::GetSystemPathname]. *)
Definition GetSystemPathname (this : SystemBase) : string :=
  let parent_path :=
    match get_parent_service this with
    | Some parent => GetParentPathname parent
    | None => ""
    end in
  parent_path +:+ path_separator +:+ GetSystemName this.

(** [SystemBase::ThrowNegativePortIndex]. *)
Definition ThrowNegativePortIndex {S A} (this : SystemBase) (func : string)
    (port_index : Z) : Eff S A :=
  let* _ := DRAKE_DEMAND (bool_decide (port_index < 0)%Z) "port_index < 0" in
  throw (std_out_of_range
    (FmtFunc func +:+ ": negative port index " +:+ pretty port_index +:+
     " is illegal. (System " +:+ GetSystemPathname this +:+ ")")).

(** [SystemBase::ThrowInputPortIndexOutOfRange]. *)
Definition ThrowInputPortIndexOutOfRange {S A} (this : SystemBase)
    (func : string) (port : InputPortIndex) : Eff S A :=
  throw (std_out_of_range
    (FmtFunc func +:+ ": there is no input port with index " +:+ pretty port +:+
     " because there are only " +:+ pretty (num_input_ports this) +:+
     " input ports in system " +:+ GetSystemPathname this +:+ ".")).

(** [SystemBase::ThrowOutputPortIndexOutOfRange]. *)
Definition ThrowOutputPortIndexOutOfRange {S A} (this : SystemBase)
    (func : string) (port : OutputPortIndex) : Eff S A :=
  throw (std_out_of_range
    (FmtFunc func +:+ ": there is no output port with index " +:+ pretty port +:+
     " because there are only " +:+ pretty (num_output_ports this) +:+
     " output ports in system " +:+ GetSystemPathname this +:+ ".")).

(** Modelled from the spec: [SystemBase::get_input_port_base]
    (system_base.h is missing): the descriptor declared at the index; an
    index past the last declared port is refused like every other input-port
    index out of range. *)
Definition get_input_port_base {S} (this : SystemBase)
    (port_index : InputPortIndex) : Eff S InputPortBase :=
  match input_ports_ this !! port_index with
  | Some port => ret port
  | None => ThrowInputPortIndexOutOfRange this "get_input_port_base" port_index
  end.

(** [SystemBase::ThrowNotAVectorInputPort]. *)
Definition ThrowNotAVectorInputPort {S A} (this : SystemBase) (func : string)
    (port : InputPortIndex) : Eff S A :=
  let* base := get_input_port_base this port in
  throw (std_logic_error
    (FmtFunc func +:+ ": vector port required, but input port '" +:+
     get_name (input_base base) +:+ "' (index " +:+ pretty port +:+
     ") was declared " +:+
     "abstract. Even if the actual value is a vector, use " +:+
     "EvalInputValue<V> instead for an abstract port containing a vector " +:+
     "of type V. (System " +:+ GetSystemPathname this +:+ ")")).

(** The static overload of [SystemBase::ThrowInputPortHasWrongType], which
    takes the pathname and the port name as arguments. *)
Definition ThrowInputPortHasWrongType_static {S A} (func : string)
    (system_pathname : string) (port : InputPortIndex) (port_name : string)
    (expected_type actual_type : string) : Eff S A :=
  throw (std_logic_error
    (FmtFunc func +:+ ": expected value of type " +:+ expected_type +:+
     " for input port '" +:+ port_name +:+ "' (index " +:+ pretty port +:+
     ") but the actual type was " +:+ actual_type +:+ ". (System " +:+
     system_pathname +:+ ")")).

(** The member overload of [SystemBase::ThrowInputPortHasWrongType]. *)
Definition ThrowInputPortHasWrongType {S A} (this : SystemBase) (func : string)
    (port : InputPortIndex) (expected_type actual_type : string) : Eff S A :=
  let* base := get_input_port_base this port in
  ThrowInputPortHasWrongType_static func (GetSystemPathname this) port
    (get_name (input_base base)) expected_type actual_type.

(** [SystemBase::ThrowCantEvaluateInputPort]. *)
Definition ThrowCantEvaluateInputPort {S A} (this : SystemBase) (func : string)
    (port : InputPortIndex) : Eff S A :=
  let* base := get_input_port_base this port in
  throw (std_logic_error
    (FmtFunc func +:+ ": input port '" +:+ get_name (input_base base) +:+
     "' (index " +:+ pretty port +:+ ") is neither connected nor " +:+
     "fixed so cannot be evaluated. (System " +:+ GetSystemPathname this +:+
     ")")).

(** Modelled from the spec: [internal::SystemId::is_valid] (the identifier
    header is missing): every id handed out is non-zero; zero is the
    default-constructed id that belongs to no System. *)
Definition is_valid (id : SystemId) : bool := negb (bool_decide (id = 0%N)).

(** [SystemBase::ThrowNotCreatedForThisSystemImpl]. *)
Definition ThrowNotCreatedForThisSystemImpl {S A} (this : SystemBase)
    (nice_type_name : string) (id : SystemId) : Eff S A :=
  if negb (is_valid id) then
    throw (std_logic_error
      (nice_type_name +:+ " was not associated with any System but should " +:+
       "have been created for " +:+ GetSystemType this +:+ " System " +:+
       GetSystemPathname this))
  else
    throw (std_logic_error
      (nice_type_name +:+ " was not created for " +:+ GetSystemType this +:+
       " System " +:+ GetSystemPathname this)).

(** *** Context/System mismatch *)

Definition newline : string := String (Ascii.ascii_of_nat 10) EmptyString.

Definition info_link : string :=
  "For more information about Context-System mismatches, see " +:+
  "https://drake.mit.edu/" +:+
  "troubleshooting.html#framework-context-system-mismatch".

(** The three texts [ThrowValidateContextMismatch] formats. *)
Definition root_context_passed_message (this : SystemBase) : string :=
  "A function call on a " +:+ GetSystemType this +:+ " system named '" +:+
  GetSystemPathname this +:+ "' was passed the root " +:+
  "Diagram's Context instead of the appropriate subsystem Context. " +:+
  "Use GetMyContextFromRoot() or similar to acquire the appropriate " +:+
  "subsystem Context." +:+ newline +:+ info_link.

Definition subcontext_passed_message (context : ContextBase) : string :=
  "A function call on the root Diagram was passed a subcontext " +:+
  "associated with its subsystem named '" +:+
  Context_GetSystemPathname context +:+ "' instead of the root " +:+
  "context. When calling a function on a the root Digram, you must " +:+
  "pass a reference to the root Context, not a subcontext." +:+
  newline +:+ info_link.

Definition generic_mismatch_message (this : SystemBase) (context : ContextBase)
    : string :=
  "A function call on a " +:+ GetSystemType this +:+ " system named '" +:+
  GetSystemPathname this +:+ "' was passed the Context of " +:+
  "a system named '" +:+ Context_GetSystemPathname context +:+
  "' instead of the appropriate subsystem Context." +:+ newline +:+ info_link.

(** The [while (true)] loop of the lambda in [ThrowValidateContextMismatch]:
    follow the parent pointers up to the Context that has none. *)
Fixpoint root_context_of (iterator : ContextBase) : ContextBase :=
  match ctx_parent iterator with
  | None => iterator
  | Some parent => root_context_of parent
  end.

(** [SystemBase::ThrowValidateContextMismatch]. *)
Definition ThrowValidateContextMismatch {S A} (this : SystemBase)
    (context : ContextBase) : Eff S A :=
  let* _ :=
    match get_parent_service this with
    | Some parent =>
        let root_id := GetRootSystemBase_id parent in
        if bool_decide (ctx_system_id context = root_id) then
          throw (std_logic_error (root_context_passed_message this))
        else ret tt
    | None => ret tt
    end in
  let root_context := root_context_of context in
  let* _ :=
    if bool_decide (ctx_system_id root_context = get_system_id this) then
      throw (std_logic_error (subcontext_passed_message context))
    else ret tt in
  throw (std_logic_error (generic_mismatch_message this context)).

(** *** Deprecated ports *)

Definition set_input_ports (ports : list InputPortBase) (this : SystemBase)
    : SystemBase :=
  {| name_ := name_ this; system_id_ := system_id_ this;
     GetSystemType := GetSystemType this;
     parent_service_ := parent_service_ this;
     input_ports_ := ports; output_ports_ := output_ports_ this;
     cache_entries_ := cache_entries_ this;
     discrete_state_tickets_ := discrete_state_tickets_ this;
     abstract_state_tickets_ := abstract_state_tickets_ this;
     numeric_parameter_tickets_ := numeric_parameter_tickets_ this;
     abstract_parameter_tickets_ := abstract_parameter_tickets_ this;
     next_available_ticket_ := next_available_ticket_ this;
     MakeFixInputPortTypeChecker := MakeFixInputPortTypeChecker this |}.

Definition set_output_ports (ports : list OutputPortBase) (this : SystemBase)
    : SystemBase :=
  {| name_ := name_ this; system_id_ := system_id_ this;
     GetSystemType := GetSystemType this;
     parent_service_ := parent_service_ this;
     input_ports_ := input_ports_ this; output_ports_ := ports;
     cache_entries_ := cache_entries_ this;
     discrete_state_tickets_ := discrete_state_tickets_ this;
     abstract_state_tickets_ := abstract_state_tickets_ this;
     numeric_parameter_tickets_ := numeric_parameter_tickets_ this;
     abstract_parameter_tickets_ := abstract_parameter_tickets_ this;
     next_available_ticket_ := next_available_ticket_ this;
     MakeFixInputPortTypeChecker := MakeFixInputPortTypeChecker this |}.

Definition set_already_warned (flag : bool) (port : PortBase) : PortBase :=
  {| get_index := get_index port; port_ticket := port_ticket port;
     get_name := get_name port; get_deprecation := get_deprecation port;
     deprecation_already_warned := flag |}.

(** The [PortBase] objects of one direction, in index order. *)
Definition ports_of (is_input : bool) (this : SystemBase) : list PortBase :=
  if is_input then input_base <$> input_ports_ this
  else output_base <$> output_ports_ this.

(** Write [flag] into the atomic of the port object at [index]. *)
Definition store_already_warned (is_input : bool) (index : nat) (flag : bool)
    (this : SystemBase) : SystemBase :=
  if is_input then
    set_input_ports
      (alter (fun p => {| input_base := set_already_warned flag (input_base p) |})
             index (input_ports_ this)) this
  else
    set_output_ports
      (alter (fun p => {| output_base := set_already_warned flag (output_base p);
                          GetPrerequisite := GetPrerequisite p |})
             index (output_ports_ this)) this.

(** [deprecation_already_warned->exchange(true)] on the port at [index]. *)
Definition exchange_already_warned (is_input : bool) (index : nat)
    (port : PortBase) (flag : bool) : Eff (SystemBase * Process) bool :=
  modify (fun s => (store_already_warned is_input index flag (fst s), snd s)) ;;;
  ret (deprecation_already_warned port).

(** [g_warned_hash.insert(key).second], under the lock. *)
Definition g_warned_hash_insert (key : N) : Eff Process bool :=
  fun process =>
    if bool_decide (key ∈ g_warned_hash process) then (Returned false, process)
    else (Returned true,
          {| g_warned_hash := {[key]} ∪ g_warned_hash process;
             drake_log := drake_log process |}).

(** [drake::log()->warn(...)]. *)
Definition log_warn (w : Warning) : Eff Process unit :=
  modify (fun process =>
    {| g_warned_hash := g_warned_hash process;
       drake_log := drake_log process ++ [w] |}).

(** Modelled from the spec: [PortBase::GetFullDescription] (port_base.cc is
    missing).  The design document only asks that a deprecation message carry
    the hierarchical pathname; the text gives the direction, index and name of
    the port and the pathname and type of its System. *)
Definition GetFullDescription (this : SystemBase) (is_input : bool)
    (port : PortBase) : string :=
  (if is_input then "Input" else "Output") +:+ "Port[" +:+
  pretty (get_index port) +:+ "] (" +:+ get_name port +:+ ") of System " +:+
  GetSystemPathname this +:+ " (" +:+ GetSystemType this +:+ ")".

(** [SystemBase::WarnPortDeprecation].  The state is the System (whose port
    objects hold the per-instance flags) and the process-wide statics.  The
    ports are held by [unique_ptr]s that are never null, so
    [DRAKE_DEMAND(port != nullptr)] has nothing to check here. *)
Definition WarnPortDeprecation (is_input : bool) (port_index : Z)
    : Eff (SystemBase * Process) unit :=
  let* this := gets fst in
  let* port := vector_at (ports_of is_input this) port_index in
  let* _ := DRAKE_DEMAND (bool_decide (is_Some (get_deprecation port)))
              "port->get_deprecation().has_value()" in
  let* had_already_warned :=
    exchange_already_warned is_input (Z.to_nat port_index) port true in
  if had_already_warned then ret tt
  else
    let key := FNV1a_key (GetSystemType this) is_input (get_name port) in
    let* inserted := on_snd (g_warned_hash_insert key) in
    if negb inserted then ret tt
    else
      let descr := GetFullDescription this is_input port in
      let deprecation := default "" (get_deprecation port) in
      let message :=
        if bool_decide (deprecation = "") then
          "no deprecation details were provided"
        else deprecation in
      on_snd (log_warn
        {| warned_system_type := GetSystemType this;
           warned_is_input := is_input;
           warned_port_name := get_name port;
           warning_text := descr +:+ " is deprecated: " +:+ message |}).

(** *** Evaluating an input port *)

(** Lines 199-200 of [EvalAbstractInputImpl]: a port that carries a
    deprecation marker is warned about before it is evaluated. *)
Definition warn_if_deprecated (port : InputPortBase) (port_index : InputPortIndex)
    : Eff (SystemBase * Process) unit :=
  if bool_decide (is_Some (get_deprecation (input_base port))) then
    WarnPortDeprecation true (Z.of_nat port_index)
  else ret tt.

(** [SystemBase::EvalAbstractInputImpl].  [input_ports_ !! port_index] is
    [None] exactly when [port_index >= num_input_ports()], so the range check
    and the unchecked [input_ports_[port_index]] are one [match].  Likewise
    [is_root_context()] and the dereferenced [get_parent_base(context)]. *)
Definition EvalAbstractInputImpl (func : string) (context : ContextBase)
    (port_index : InputPortIndex)
    : Eff (SystemBase * Process) (option AbstractValue) :=
  let* this := gets fst in
  match input_ports_ this !! port_index with
  | None => ThrowInputPortIndexOutOfRange this func port_index
  | Some port =>
      let* _ := warn_if_deprecated port port_index in
      let free_port_value := MaybeGetFixedInputPortValue context port_index in
      match free_port_value with
      | Some fixed => ret (Some (get_value fixed))
      | None =>
          match get_parent_service this with
          | None => ret None
          | Some parent =>
              match get_parent_base context with
              | None => ret None
              | Some parent_context =>
                  on_snd (EvalConnectedSubsystemInputPort parent
                            parent_context port)
              end
          end
      end
  end.

(** Modelled from the spec: [SystemBase::EvalAbstractInput], the entry point
    that takes a plain [int] (system_base.h is missing).  A negative index is
    refused by [ThrowNegativePortIndex]; any other becomes an
    [InputPortIndex] for [EvalAbstractInputImpl]. *)
Definition EvalAbstractInput (context : ContextBase) (port_index : Z)
    : Eff (SystemBase * Process) (option AbstractValue) :=
  let* this := gets fst in
  if bool_decide (port_index < 0)%Z then
    ThrowNegativePortIndex this "EvalAbstractInput" port_index
  else
    EvalAbstractInputImpl "EvalAbstractInput" context (Z.to_nat port_index).

(** ** The Context side, as the initializer sees it

    The functions of [SystemBaseContextBaseAttorney], [DependencyGraph],
    [Cache] and [CacheEntryValue] that [InitializeContextBase] calls.  A
    reference to a tracker is its ticket, a reference to a cache-entry value
    its cache index. *)
Definition with_system_name (name : string) (context : ContextBase)
    : ContextBase :=
  {| ctx_system_name := name; ctx_system_id := ctx_system_id context;
     ctx_parent := ctx_parent context;
     is_context_base_initialized := is_context_base_initialized context;
     ctx_graph := ctx_graph context; ctx_cache := ctx_cache context;
     ctx_input_port_tickets := ctx_input_port_tickets context;
     ctx_input_port_values := ctx_input_port_values context;
     ctx_input_port_type_checkers := ctx_input_port_type_checkers context;
     ctx_output_port_tickets := ctx_output_port_tickets context;
     ctx_discrete_state_tickets := ctx_discrete_state_tickets context;
     ctx_abstract_state_tickets := ctx_abstract_state_tickets context;
     ctx_numeric_parameter_tickets := ctx_numeric_parameter_tickets context;
     ctx_abstract_parameter_tickets := ctx_abstract_parameter_tickets context |}.
Definition with_system_id (id : SystemId) (context : ContextBase)
    : ContextBase :=
  {| ctx_system_name := ctx_system_name context; ctx_system_id := id;
     ctx_parent := ctx_parent context;
     is_context_base_initialized := is_context_base_initialized context;
     ctx_graph := ctx_graph context; ctx_cache := ctx_cache context;
     ctx_input_port_tickets := ctx_input_port_tickets context;
     ctx_input_port_values := ctx_input_port_values context;
     ctx_input_port_type_checkers := ctx_input_port_type_checkers context;
     ctx_output_port_tickets := ctx_output_port_tickets context;
     ctx_discrete_state_tickets := ctx_discrete_state_tickets context;
     ctx_abstract_state_tickets := ctx_abstract_state_tickets context;
     ctx_numeric_parameter_tickets := ctx_numeric_parameter_tickets context;
     ctx_abstract_parameter_tickets := ctx_abstract_parameter_tickets context |}.
Definition with_initialized (flag : bool) (context : ContextBase)
    : ContextBase :=
  {| ctx_system_name := ctx_system_name context;
     ctx_system_id := ctx_system_id context;
     ctx_parent := ctx_parent context; is_context_base_initialized := flag;
     ctx_graph := ctx_graph context; ctx_cache := ctx_cache context;
     ctx_input_port_tickets := ctx_input_port_tickets context;
     ctx_input_port_values := ctx_input_port_values context;
     ctx_input_port_type_checkers := ctx_input_port_type_checkers context;
     ctx_output_port_tickets := ctx_output_port_tickets context;
     ctx_discrete_state_tickets := ctx_discrete_state_tickets context;
     ctx_abstract_state_tickets := ctx_abstract_state_tickets context;
     ctx_numeric_parameter_tickets := ctx_numeric_parameter_tickets context;
     ctx_abstract_parameter_tickets := ctx_abstract_parameter_tickets context |}.
Definition with_graph (graph : gmap DependencyTicket DependencyTracker) (context : ContextBase)
    : ContextBase :=
  {| ctx_system_name := ctx_system_name context;
     ctx_system_id := ctx_system_id context;
     ctx_parent := ctx_parent context;
     is_context_base_initialized := is_context_base_initialized context;
     ctx_graph := graph; ctx_cache := ctx_cache context;
     ctx_input_port_tickets := ctx_input_port_tickets context;
     ctx_input_port_values := ctx_input_port_values context;
     ctx_input_port_type_checkers := ctx_input_port_type_checkers context;
     ctx_output_port_tickets := ctx_output_port_tickets context;
     ctx_discrete_state_tickets := ctx_discrete_state_tickets context;
     ctx_abstract_state_tickets := ctx_abstract_state_tickets context;
     ctx_numeric_parameter_tickets := ctx_numeric_parameter_tickets context;
     ctx_abstract_parameter_tickets := ctx_abstract_parameter_tickets context |}.
Definition with_cache (cache : gmap CacheIndex CacheEntryValue) (context : ContextBase)
    : ContextBase :=
  {| ctx_system_name := ctx_system_name context;
     ctx_system_id := ctx_system_id context;
     ctx_parent := ctx_parent context;
     is_context_base_initialized := is_context_base_initialized context;
     ctx_graph := ctx_graph context; ctx_cache := cache;
     ctx_input_port_tickets := ctx_input_port_tickets context;
     ctx_input_port_values := ctx_input_port_values context;
     ctx_input_port_type_checkers := ctx_input_port_type_checkers context;
     ctx_output_port_tickets := ctx_output_port_tickets context;
     ctx_discrete_state_tickets := ctx_discrete_state_tickets context;
     ctx_abstract_state_tickets := ctx_abstract_state_tickets context;
     ctx_numeric_parameter_tickets := ctx_numeric_parameter_tickets context;
     ctx_abstract_parameter_tickets := ctx_abstract_parameter_tickets context |}.
Definition push_input_port (t : DependencyTicket)
    (checker : AbstractValue -> bool) (context : ContextBase)
    : ContextBase :=
  {| ctx_system_name := ctx_system_name context;
     ctx_system_id := ctx_system_id context;
     ctx_parent := ctx_parent context;
     is_context_base_initialized := is_context_base_initialized context;
     ctx_graph := ctx_graph context; ctx_cache := ctx_cache context;
     ctx_input_port_tickets := ctx_input_port_tickets context ++ [t];
     ctx_input_port_values := ctx_input_port_values context ++ [None];
     ctx_input_port_type_checkers := ctx_input_port_type_checkers context ++ [checker];
     ctx_output_port_tickets := ctx_output_port_tickets context;
     ctx_discrete_state_tickets := ctx_discrete_state_tickets context;
     ctx_abstract_state_tickets := ctx_abstract_state_tickets context;
     ctx_numeric_parameter_tickets := ctx_numeric_parameter_tickets context;
     ctx_abstract_parameter_tickets := ctx_abstract_parameter_tickets context |}.
Definition push_output_port_ticket (t : DependencyTicket) (context : ContextBase)
    : ContextBase :=
  {| ctx_system_name := ctx_system_name context;
     ctx_system_id := ctx_system_id context;
     ctx_parent := ctx_parent context;
     is_context_base_initialized := is_context_base_initialized context;
     ctx_graph := ctx_graph context; ctx_cache := ctx_cache context;
     ctx_input_port_tickets := ctx_input_port_tickets context;
     ctx_input_port_values := ctx_input_port_values context;
     ctx_input_port_type_checkers := ctx_input_port_type_checkers context;
     ctx_output_port_tickets := ctx_output_port_tickets context ++ [t];
     ctx_discrete_state_tickets := ctx_discrete_state_tickets context;
     ctx_abstract_state_tickets := ctx_abstract_state_tickets context;
     ctx_numeric_parameter_tickets := ctx_numeric_parameter_tickets context;
     ctx_abstract_parameter_tickets := ctx_abstract_parameter_tickets context |}.
Definition push_discrete_state_ticket (t : DependencyTicket) (context : ContextBase)
    : ContextBase :=
  {| ctx_system_name := ctx_system_name context;
     ctx_system_id := ctx_system_id context;
     ctx_parent := ctx_parent context;
     is_context_base_initialized := is_context_base_initialized context;
     ctx_graph := ctx_graph context; ctx_cache := ctx_cache context;
     ctx_input_port_tickets := ctx_input_port_tickets context;
     ctx_input_port_values := ctx_input_port_values context;
     ctx_input_port_type_checkers := ctx_input_port_type_checkers context;
     ctx_output_port_tickets := ctx_output_port_tickets context;
     ctx_discrete_state_tickets := ctx_discrete_state_tickets context ++ [t];
     ctx_abstract_state_tickets := ctx_abstract_state_tickets context;
     ctx_numeric_parameter_tickets := ctx_numeric_parameter_tickets context;
     ctx_abstract_parameter_tickets := ctx_abstract_parameter_tickets context |}.
Definition push_abstract_state_ticket (t : DependencyTicket) (context : ContextBase)
    : ContextBase :=
  {| ctx_system_name := ctx_system_name context;
     ctx_system_id := ctx_system_id context;
     ctx_parent := ctx_parent context;
     is_context_base_initialized := is_context_base_initialized context;
     ctx_graph := ctx_graph context; ctx_cache := ctx_cache context;
     ctx_input_port_tickets := ctx_input_port_tickets context;
     ctx_input_port_values := ctx_input_port_values context;
     ctx_input_port_type_checkers := ctx_input_port_type_checkers context;
     ctx_output_port_tickets := ctx_output_port_tickets context;
     ctx_discrete_state_tickets := ctx_discrete_state_tickets context;
     ctx_abstract_state_tickets := ctx_abstract_state_tickets context ++ [t];
     ctx_numeric_parameter_tickets := ctx_numeric_parameter_tickets context;
     ctx_abstract_parameter_tickets := ctx_abstract_parameter_tickets context |}.
Definition push_numeric_parameter_ticket (t : DependencyTicket) (context : ContextBase)
    : ContextBase :=
  {| ctx_system_name := ctx_system_name context;
     ctx_system_id := ctx_system_id context;
     ctx_parent := ctx_parent context;
     is_context_base_initialized := is_context_base_initialized context;
     ctx_graph := ctx_graph context; ctx_cache := ctx_cache context;
     ctx_input_port_tickets := ctx_input_port_tickets context;
     ctx_input_port_values := ctx_input_port_values context;
     ctx_input_port_type_checkers := ctx_input_port_type_checkers context;
     ctx_output_port_tickets := ctx_output_port_tickets context;
     ctx_discrete_state_tickets := ctx_discrete_state_tickets context;
     ctx_abstract_state_tickets := ctx_abstract_state_tickets context;
     ctx_numeric_parameter_tickets := ctx_numeric_parameter_tickets context ++ [t];
     ctx_abstract_parameter_tickets := ctx_abstract_parameter_tickets context |}.
Definition push_abstract_parameter_ticket (t : DependencyTicket) (context : ContextBase)
    : ContextBase :=
  {| ctx_system_name := ctx_system_name context;
     ctx_system_id := ctx_system_id context;
     ctx_parent := ctx_parent context;
     is_context_base_initialized := is_context_base_initialized context;
     ctx_graph := ctx_graph context; ctx_cache := ctx_cache context;
     ctx_input_port_tickets := ctx_input_port_tickets context;
     ctx_input_port_values := ctx_input_port_values context;
     ctx_input_port_type_checkers := ctx_input_port_type_checkers context;
     ctx_output_port_tickets := ctx_output_port_tickets context;
     ctx_discrete_state_tickets := ctx_discrete_state_tickets context;
     ctx_abstract_state_tickets := ctx_abstract_state_tickets context;
     ctx_numeric_parameter_tickets := ctx_numeric_parameter_tickets context;
     ctx_abstract_parameter_tickets := ctx_abstract_parameter_tickets context ++ [t] |}.

(** Modelled from the spec: the accessors of
    [internal::SystemBaseContextBaseAttorney] (context_base.h is missing).
    They record the System's display name and identity on the Context, set
    the initialized flag, and append a ticket to the Context's list for one
    kind of independent source. *)
Definition set_system_name (name : string) : Eff ContextBase unit :=
  modify (with_system_name name).

Definition set_system_id (id : SystemId) : Eff ContextBase unit :=
  modify (with_system_id id).

Definition mark_context_base_initialized : Eff ContextBase unit :=
  modify (with_initialized true).

Definition AddDiscreteStateTicket (t : DependencyTicket) : Eff ContextBase unit :=
  modify (push_discrete_state_ticket t).

Definition AddAbstractStateTicket (t : DependencyTicket) : Eff ContextBase unit :=
  modify (push_abstract_state_ticket t).

Definition AddNumericParameterTicket (t : DependencyTicket) : Eff ContextBase unit :=
  modify (push_numeric_parameter_ticket t).

Definition AddAbstractParameterTicket (t : DependencyTicket) : Eff ContextBase unit :=
  modify (push_abstract_parameter_ticket t).

(** Modelled from the spec: [DependencyGraph] (dependency_tracker.h is
    missing).  [CreateNewDependencyTracker] fails if a tracker for the ticket
    already exists; [get_mutable_tracker] demands that one exists;
    [SubscribeToPrerequisite] records the edge prerequisite -> subscriber. *)
Definition has_tracker (context : ContextBase) (t : DependencyTicket) : bool :=
  bool_decide (is_Some (ctx_graph context !! t)).

Definition CreateNewDependencyTracker (t : DependencyTicket) (descr : string)
    : Eff ContextBase DependencyTicket :=
  let* present := gets (fun context => has_tracker context t) in
  let* _ := DRAKE_DEMAND (negb present) "!has_tracker(ticket)" in
  modify (fun context =>
    with_graph (<[t := {| tracker_description := descr; tracker_stamp := 0%N;
                          tracker_subscribers := ∅ |}]> (ctx_graph context))
               context) ;;;
  ret t.

Definition get_mutable_tracker (t : DependencyTicket)
    : Eff ContextBase DependencyTicket :=
  let* present := gets (fun context => has_tracker context t) in
  let* _ := DRAKE_DEMAND present "has_tracker(ticket)" in
  ret t.

Definition add_subscriber (subscriber : DependencyTicket)
    (tracker : DependencyTracker) : DependencyTracker :=
  {| tracker_description := tracker_description tracker;
     tracker_stamp := tracker_stamp tracker;
     tracker_subscribers := {[subscriber]} ∪ tracker_subscribers tracker |}.

Definition SubscribeToPrerequisite (subscriber prerequisite : DependencyTicket)
    : Eff ContextBase unit :=
  modify (fun context =>
    with_graph (alter (add_subscriber subscriber) prerequisite
                  (ctx_graph context)) context).

(** Modelled from the spec: [ContextBase::AddInputPort] (context_base.cc is
    missing): create and register the port's tracker, attach the type checker
    for later fixed-value assignment (the port starts with no fixed value),
    and subscribe the "all input ports" tracker to it. *)
Definition AddInputPort (expected_index : InputPortIndex) (t : DependencyTicket)
    (fixed_input_type_checker : AbstractValue -> bool) : Eff ContextBase unit :=
  let* ui := CreateNewDependencyTracker t ("u_" +:+ pretty expected_index) in
  modify (push_input_port t fixed_input_type_checker) ;;;
  let* all_u := get_mutable_tracker (all_input_ports_ticket builtin) in
  SubscribeToPrerequisite all_u ui.

(** Modelled from the spec: [ContextBase::AddOutputPort] (context_base.cc is
    missing): create the port's tracker and wire the intra-system prerequisite
    the port declares; a prerequisite in a child subsystem is left to the
    parent composition. *)
Definition AddOutputPort (expected_index : OutputPortIndex) (t : DependencyTicket)
    (prerequisite : OutputPortPrerequisite) : Eff ContextBase unit :=
  let* yi := CreateNewDependencyTracker t ("y_" +:+ pretty expected_index) in
  modify (push_output_port_ticket t) ;;;
  match child_subsystem prerequisite with
  | Some _ => ret tt
  | None =>
      let* source := get_mutable_tracker (dependency prerequisite) in
      SubscribeToPrerequisite yi source
  end.

(** Modelled from the spec: [Cache::CreateNewCacheEntryValue] (cache.cc is
    missing): one slot per (Context, cache entry), created empty with caching
    enabled; a tracker is added for the entry's ticket and subscribed to
    exactly the trackers named by the prerequisite tickets, which must
    exist. *)
Definition CreateNewCacheEntryValue (index : CacheIndex) (t : DependencyTicket)
    (descr : string) (prereqs : gset DependencyTicket)
    : Eff ContextBase CacheIndex :=
  let* occupied := gets (fun context =>
                     bool_decide (is_Some (ctx_cache context !! index))) in
  let* _ := DRAKE_DEMAND (negb occupied) "store_[index] == nullptr" in
  modify (fun context =>
    with_cache (<[index := {| value_cache_index := index; value_ticket := t;
                              value_description := descr;
                              value_storage := None;
                              value_is_up_to_date := false;
                              is_cache_entry_disabled := false |}]>
                  (ctx_cache context)) context) ;;;
  let* tracker := CreateNewDependencyTracker t ("cache " +:+ descr) in
  for_each (elements prereqs) (fun prereq =>
    let* source := get_mutable_tracker prereq in
    SubscribeToPrerequisite tracker source) ;;;
  ret index.

(** Modelled from the spec: [CacheEntryValue::SetInitialValue] and
    [disable_caching] (cache.h is missing): seed the slot with the placeholder
    the allocate capability produced, not yet computed; switch memoization
    off for the slot. *)
Definition seeded (init_value : AbstractValue) (slot : CacheEntryValue)
    : CacheEntryValue :=
  {| value_cache_index := value_cache_index slot;
     value_ticket := value_ticket slot;
     value_description := value_description slot;
     value_storage := Some init_value;
     value_is_up_to_date := false;
     is_cache_entry_disabled := is_cache_entry_disabled slot |}.

Definition disabled (slot : CacheEntryValue) : CacheEntryValue :=
  {| value_cache_index := value_cache_index slot;
     value_ticket := value_ticket slot;
     value_description := value_description slot;
     value_storage := value_storage slot;
     value_is_up_to_date := value_is_up_to_date slot;
     is_cache_entry_disabled := true |}.

Definition SetInitialValue (cache_value : CacheIndex) (init_value : AbstractValue)
    : Eff ContextBase unit :=
  modify (fun context =>
    with_cache (alter (seeded init_value) cache_value (ctx_cache context))
               context).

Definition disable_caching (cache_value : CacheIndex) : Eff ContextBase unit :=
  modify (fun context =>
    with_cache (alter disabled cache_value (ctx_cache context)) context).

(** *** system_base.cc: the Context initializer *)

(** The lambda [make_trackers] of [CreateSourceTrackers]. *)
Definition make_trackers (subscriber_ticket : DependencyTicket)
    (system_ticket_info : list TrackerInfo)
    (add_ticket_to_context : DependencyTicket -> Eff ContextBase unit)
    : Eff ContextBase unit :=
  let* subscriber := get_mutable_tracker subscriber_ticket in
  for_each system_ticket_info (fun info =>
    let* source_tracker :=
      CreateNewDependencyTracker (info_ticket info) (info_description info) in
    add_ticket_to_context (info_ticket info) ;;;
    SubscribeToPrerequisite subscriber source_tracker).

(** [SystemBase::CreateSourceTrackers]. *)
Definition CreateSourceTrackers (this : SystemBase) : Eff ContextBase unit :=
  make_trackers (xd_ticket builtin) (discrete_state_tickets_ this)
    AddDiscreteStateTicket ;;;
  make_trackers (xa_ticket builtin) (abstract_state_tickets_ this)
    AddAbstractStateTicket ;;;
  make_trackers (pn_ticket builtin) (numeric_parameter_tickets_ this)
    AddNumericParameterTicket ;;;
  make_trackers (pa_ticket builtin) (abstract_parameter_tickets_ this)
    AddAbstractParameterTicket ;;;
  for_each (input_ports_ this) (fun iport =>
    AddInputPort (get_index (input_base iport)) (port_ticket (input_base iport))
      (MakeFixInputPortTypeChecker this (get_index (input_base iport)))).

(** The body of the cache-entry loop of [InitializeContextBase]. *)
Definition initialize_cache_entry (entry : CacheEntry) : Eff ContextBase unit :=
  let* cache_value :=
    CreateNewCacheEntryValue (cache_index entry) (ticket entry)
      (description entry) (prerequisites entry) in
  SetInitialValue cache_value (Allocate entry) ;;;
  if is_disabled_by_default entry then disable_caching cache_value else ret tt.

(** [SystemBase::InitializeContextBase].  The Context is the state, so
    [context_ptr] is never null.  The loop over
    [index = 0 .. num_cache_entries() - 1] with [get_cache_entry(index)]
    visits [cache_entries_] in order. *)
Definition InitializeContextBase (this : SystemBase) : Eff ContextBase unit :=
  let* initialized := gets is_context_base_initialized in
  let* _ := DRAKE_DEMAND (negb initialized)
              "!is_context_base_initialized(context)" in
  set_system_name (name_ this) ;;;
  set_system_id (system_id_ this) ;;;
  CreateSourceTrackers this ;;;
  for_each (cache_entries_ this) initialize_cache_entry ;;;
  for_each (output_ports_ this) (fun oport =>
    AddOutputPort (get_index (output_base oport))
      (port_ticket (output_base oport)) (GetPrerequisite oport)) ;;;
  mark_context_base_initialized.

(** ** The System with another hierarchy resolver *)

(** The same System, except that its parent service (if it has one) answers
    [EvalConnectedSubsystemInputPort] with [resolver].  Used to say that a
    result does not depend on what the parent would answer. *)
Definition with_resolver
    (resolver : ContextBase -> InputPortBase -> Eff Process (option AbstractValue))
    (this : SystemBase) : SystemBase :=
  {| name_ := name_ this; system_id_ := system_id_ this;
     GetSystemType := GetSystemType this;
     parent_service_ :=
       (fun parent =>
          {| GetParentPathname := GetParentPathname parent;
             GetRootSystemBase_id := GetRootSystemBase_id parent;
             EvalConnectedSubsystemInputPort := resolver |})
       <$> parent_service_ this;
     input_ports_ := input_ports_ this; output_ports_ := output_ports_ this;
     cache_entries_ := cache_entries_ this;
     discrete_state_tickets_ := discrete_state_tickets_ this;
     abstract_state_tickets_ := abstract_state_tickets_ this;
     numeric_parameter_tickets_ := numeric_parameter_tickets_ this;
     abstract_parameter_tickets_ := abstract_parameter_tickets_ this;
     next_available_ticket_ := next_available_ticket_ this;
     MakeFixInputPortTypeChecker := MakeFixInputPortTypeChecker this |}.

(** ** The specification's wording of DeclareCacheEntry, for comparison *)

(** Modelled from the spec: "[DeclareCacheEntryWithKnownTicket] applied to
    the next freshly allocated dependency ticket": take the ticket the
    allocator hands out next, mark it used, and run the known-ticket
    variant. *)
Definition DeclareCacheEntry_with_fresh_ticket (descr : string)
    (producer : ValueProducer) (prerequisites_of_calc : gset DependencyTicket)
    : Eff SystemBase CacheIndex :=
  fun this =>
    let fresh := next_available_ticket_ this in
    DeclareCacheEntryWithKnownTicket fresh descr producer prerequisites_of_calc
      (set_next_available_ticket (S fresh) this).

(** ** The specification's wording of the mismatch diagnosis, for comparison *)

(** What the code tests first: this System sits in a Diagram and the passed
    Context itself carries the root System's id. *)
Definition passed_the_root_context (this : SystemBase) (context : ContextBase)
    : Prop :=
  exists parent, get_parent_service this = Some parent /\
                 ctx_system_id context = GetRootSystemBase_id parent.

(** Modelled from the spec: condition (a) as worded, "the passed Context's
    transitive root identity matches the expected root of some ancestor". *)
Definition root_identity_matches_ancestor (this : SystemBase)
    (context : ContextBase) : Prop :=
  exists parent, get_parent_service this = Some parent /\
                 ctx_system_id (root_context_of context)
                   = GetRootSystemBase_id parent.

(** Condition (b): the passed Context's transitive root was created by this
    System. *)
Definition rooted_at_this_system (this : SystemBase) (context : ContextBase)
    : Prop :=
  ctx_system_id (root_context_of context) = get_system_id this.

(** The warning [WarnPortDeprecation] writes for [port]. *)
Definition deprecation_warning (this : SystemBase) (is_input : bool)
    (port : PortBase) : Warning :=
  {| warned_system_type := GetSystemType this;
     warned_is_input := is_input;
     warned_port_name := get_name port;
     warning_text :=
       GetFullDescription this is_input port +:+ " is deprecated: " +:+
       (if bool_decide (default "" (get_deprecation port) = "") then
          "no deprecation details were provided"
        else default "" (get_deprecation port)) |}.

(** What one call does to the process-wide statics and the log, given the
    value the port's atomic held. *)
Definition after_warning (this : SystemBase) (is_input : bool) (port : PortBase)
    (process : Process) : Process :=
  let key := FNV1a_key (GetSystemType this) is_input (get_name port) in
  if deprecation_already_warned port then process
  else if bool_decide (key ∈ g_warned_hash process) then process
  else {| g_warned_hash := {[key]} ∪ g_warned_hash process;
          drake_log := drake_log process ++
                         [deprecation_warning this is_input port] |}.

(** ** Sequences of WarnPortDeprecation calls in one process *)

(** One call: which System object of the process it goes through, and the
    arguments. *)
Record WarnCall : Type := {
  call_system : nat;
  call_is_input : bool;
  call_port_index : Z
}.

(** Run one call against the System objects of the process.  Whether the
    call returns or throws, what it wrote stays written. *)
Definition run_call (call : WarnCall) (state : list SystemBase * Process)
    : list SystemBase * Process :=
  match fst state !! call_system call with
  | None => state
  | Some this =>
      let '(_, (this', process')) :=
        WarnPortDeprecation (call_is_input call) (call_port_index call)
          (this, snd state) in
      (<[call_system call := this']> (fst state), process')
  end.

Definition run_calls (calls : list WarnCall) (state : list SystemBase * Process)
    : list SystemBase * Process :=
  foldl (fun st call => run_call call st) state calls.

(** The statics as they are when the process starts. *)
Definition process_start : Process := {| g_warned_hash := ∅; drake_log := [] |}.

(** The (declaring type, direction, port name) a warning was issued for, and
    the key it was deduplicated under. *)
Definition warning_combination (w : Warning) : string * bool * string :=
  (warned_system_type w, warned_is_input w, warned_port_name w).

Definition warning_key (w : Warning) : N :=
  FNV1a_key (warned_system_type w) (warned_is_input w) (warned_port_name w).

(** The warnings of a log issued for one combination. *)
Definition warnings_for (combination : string * bool * string)
    (log : list Warning) : list Warning :=
  filter (fun w => warning_combination w = combination) log.

(** ** Calls running on several threads *)

(** Where a call stands.  From one stage to the next a call does one atomic
    thing: it checks its arguments and does the [exchange] on the port's
    atomic; it inserts its key into [g_warned_hash] while it holds [g_mutex];
    it writes the warning to the log. *)
Inductive CallStage : Type :=
  | NotStarted (call : WarnCall)
  | AtLock (w : Warning)
  | AtLog (w : Warning)
  | Finished.

(** Lines 355-370 of [WarnPortDeprecation] on the System object [this]:
    the call is over if an argument is refused or the atomic was already
    set; otherwise it goes on to the lock with the warning it may write. *)
Definition enter_call (this : SystemBase) (is_input : bool) (port_index : Z)
    : CallStage * SystemBase :=
  if bool_decide (0 <= port_index)%Z then
    match ports_of is_input this !! Z.to_nat port_index with
    | Some port =>
        if bool_decide (is_Some (get_deprecation port)) then
          (if deprecation_already_warned port then Finished
           else AtLock (deprecation_warning this is_input port),
           store_already_warned is_input (Z.to_nat port_index) true this)
        else (Finished, this)
    | None => (Finished, this)
    end
  else (Finished, this).

(** The next atomic step of a call. *)
Definition advance (stage : CallStage) (state : list SystemBase * Process)
    : CallStage * (list SystemBase * Process) :=
  match stage with
  | NotStarted call =>
      match fst state !! call_system call with
      | None => (Finished, state)
      | Some this =>
          let '(stage', this') :=
            enter_call this (call_is_input call) (call_port_index call) in
          (stage', (<[call_system call := this']> (fst state), snd state))
      end
  | AtLock w =>
      match g_warned_hash_insert (warning_key w) (snd state) with
      | (Returned true, process') => (AtLog w, (fst state, process'))
      | (_, process') => (Finished, (fst state, process'))
      end
  | AtLog w => (Finished, (fst state, snd (log_warn w (snd state))))
  | Finished => (Finished, state)
  end.

(** The process with calls in flight, and a schedule: which call takes its
    next step, one after the other. *)
Record Config : Type := {
  objects : list SystemBase;
  statics : Process;
  calls_in_flight : list CallStage
}.

Definition fire (i : nat) (cfg : Config) : Config :=
  match calls_in_flight cfg !! i with
  | None => cfg
  | Some stage =>
      let '(stage', (objects', statics')) :=
        advance stage (objects cfg, statics cfg) in
      {| objects := objects'; statics := statics';
         calls_in_flight := <[i := stage']> (calls_in_flight cfg) |}
  end.

Definition run_schedule (schedule : list nat) (cfg : Config) : Config :=
  foldl (fun c i => fire i c) cfg schedule.

Definition launch (systems : list SystemBase) (calls : list WarnCall) : Config :=
  {| objects := systems; statics := process_start;
     calls_in_flight := NotStarted <$> calls |}.

(** ** When the initializer runs to completion *)

(** The group trackers a freshly constructed Context already holds and the
    initializer subscribes to the individual sources. *)
Definition builtin_trackers : gset DependencyTicket :=
  {[ xd_ticket builtin; xa_ticket builtin; pn_ticket builtin;
     pa_ticket builtin; all_input_ports_ticket builtin ]}.

(** For each declaration, in the order the initializer visits them: the
    ticket whose tracker it creates and the tickets whose trackers must be
    there to subscribe to. *)
Definition source_wiring (info : TrackerInfo)
    : DependencyTicket * list DependencyTicket :=
  (info_ticket info, []).

Definition input_port_wiring (iport : InputPortBase)
    : DependencyTicket * list DependencyTicket :=
  (port_ticket (input_base iport), []).

Definition cache_entry_wiring (entry : CacheEntry)
    : DependencyTicket * list DependencyTicket :=
  (ticket entry, elements (prerequisites entry)).

Definition output_port_wiring (oport : OutputPortBase)
    : DependencyTicket * list DependencyTicket :=
  (port_ticket (output_base oport),
   match child_subsystem (GetPrerequisite oport) with
   | Some _ => []
   | None => [dependency (GetPrerequisite oport)]
   end).

Definition declared_trackers (this : SystemBase)
    : list (DependencyTicket * list DependencyTicket) :=
  (source_wiring <$> discrete_state_tickets_ this) ++
  (source_wiring <$> abstract_state_tickets_ this) ++
  (source_wiring <$> numeric_parameter_tickets_ this) ++
  (source_wiring <$> abstract_parameter_tickets_ this) ++
  (input_port_wiring <$> input_ports_ this) ++
  (cache_entry_wiring <$> cache_entries_ this) ++
  (output_port_wiring <$> output_ports_ this).

(** Invariants 2 and 3 of the data model, relative to the trackers that
    exist already: every ticket is new when its turn comes, and what it
    subscribes to exists by then. *)
Fixpoint trackers_wired (existing : gset DependencyTicket)
    (steps : list (DependencyTicket * list DependencyTicket)) : Prop :=
  match steps with
  | [] => True
  | (t, needed) :: rest =>
      (t ∉ existing) /\
      Forall (fun r => r ∈ {[t]} ∪ existing) needed /\
      trackers_wired ({[t]} ∪ existing) rest
  end.

#[global]
Instance trackers_wired_dec existing steps :
  Decision (trackers_wired existing steps).
Proof.
  revert existing.
  induction steps as [|[t needed] rest IH]; intros existing; simpl; apply _.
Defined.

(** A Context fresh for the System: not initialized, holding the group
    trackers, with no tracker and no cache slot yet for anything the System
    declares; and a System whose declarations are wired as above, one cache
    index per entry. *)
Definition fresh_context_for (this : SystemBase) (context : ContextBase)
    : Prop :=
  is_context_base_initialized context = false /\
  builtin_trackers ⊆ dom (ctx_graph context) /\
  trackers_wired (dom (ctx_graph context)) (declared_trackers this) /\
  NoDup (cache_index <$> cache_entries_ this) /\
  Forall (fun entry => ctx_cache context !! cache_index entry = None)
         (cache_entries_ this).

#[global]
Instance fresh_context_for_dec this context :
  Decision (fresh_context_for this context).
Proof.
  unfold fresh_context_for.
  pose proof (trackers_wired_dec (dom (ctx_graph context))
                (declared_trackers this)).
  apply _.
Defined.

(** The slot [InitializeContextBase] leaves behind for a cache entry. *)
Definition initial_slot (entry : CacheEntry) : CacheEntryValue :=
  {| value_cache_index := cache_index entry;
     value_ticket := ticket entry;
     value_description := description entry;
     value_storage := Some (Allocate entry);
     value_is_up_to_date := false;
     is_cache_entry_disabled := is_disabled_by_default entry |}.

(** ** Concrete Systems and Contexts for the examples *)

(** A numbering of the well-known tickets; a 64-bit FNV-1a over the bytes of
    the type name, the direction and the port name stands in for the
    hasher. *)
Definition example_tickets : BuiltInTickets :=
  {| xd_ticket := 7; xa_ticket := 8; pn_ticket := 10; pa_ticket := 11;
     all_input_ports_ticket := 13 |}.

Definition fnv1a_step (h byte : N) : N :=
  (N.lxor h byte * 1099511628211) mod (2 ^ 64).

Fixpoint fnv1a_string (h : N) (s : string) : N :=
  match s with
  | EmptyString => h
  | String ch rest => fnv1a_string (fnv1a_step h (Ascii.N_of_ascii ch)) rest
  end.

Definition fnv1a_key (system_type : string) (is_input : bool) (name : string)
    : N :=
  fnv1a_string
    (fnv1a_step (fnv1a_string 14695981039346656037 system_type)
       (if is_input then 1 else 0))
    name.

Definition example_port (index : nat) (t : DependencyTicket) (name : string)
    (deprecation : option string) : PortBase :=
  {| get_index := index; port_ticket := t; get_name := name;
     get_deprecation := deprecation; deprecation_already_warned := false |}.

Definition constant (v : AbstractValue) : ValueProducer :=
  {| producer_allocate := fun _ => v; producer_calc := fun _ => v |}.

(** A leaf System with three input ports (the first one deprecated), one
    discrete state group, two cache entries (the second disabled by default)
    whose allocators produce [gain] and [energy], and one output port that
    depends on the first cache entry. *)
Definition plant (gain energy : AbstractValue) : SystemBase :=
  {| name_ := "plant"; system_id_ := 1; GetSystemType := "Plant";
     parent_service_ := None;
     input_ports_ :=
       [ {| input_base := example_port 0 24 "u0" (Some "use u1") |};
         {| input_base := example_port 1 25 "u1" None |};
         {| input_base := example_port 2 26 "u2" None |} ];
     output_ports_ :=
       [ {| output_base := example_port 0 29 "y0" None;
            GetPrerequisite := {| child_subsystem := None; dependency := 27 |} |} ];
     cache_entries_ :=
       [ {| cache_index := 0; ticket := 27; description := "gain";
            value_producer := constant gain; prerequisites := {[24; 7]};
            is_disabled_by_default := false |};
         {| cache_index := 1; ticket := 28; description := "energy";
            value_producer := constant energy; prerequisites := {[27]};
            is_disabled_by_default := true |} ];
     discrete_state_tickets_ :=
       [ {| info_ticket := 23; info_description := "xd0" |} ];
     abstract_state_tickets_ := [];
     numeric_parameter_tickets_ := [];
     abstract_parameter_tickets_ := [];
     next_available_ticket_ := 30;
     MakeFixInputPortTypeChecker := fun _ _ => true |}.

Definition group_tracker (descr : string) : DependencyTracker :=
  {| tracker_description := descr; tracker_stamp := 0;
     tracker_subscribers := ∅ |}.

(** A Context as constructed: the group trackers and nothing else. *)
Definition new_context : ContextBase :=
  {| ctx_system_name := ""; ctx_system_id := 0; ctx_parent := None;
     is_context_base_initialized := false;
     ctx_graph := {[ 7 := group_tracker "xd"; 8 := group_tracker "xa";
                     10 := group_tracker "pn"; 11 := group_tracker "pa";
                     13 := group_tracker "u" ]};
     ctx_cache := ∅;
     ctx_input_port_tickets := []; ctx_input_port_values := [];
     ctx_input_port_type_checkers := [];
     ctx_output_port_tickets := [];
     ctx_discrete_state_tickets := []; ctx_abstract_state_tickets := [];
     ctx_numeric_parameter_tickets := [];
     ctx_abstract_parameter_tickets := [] |}.

(** A Context that lacks the group trackers. *)
Definition unprepared_context : ContextBase := with_graph ∅ new_context.

(** A Diagram (id 10) with two subsystems, a pump (id 11) and a valve
    (id 12).  Asked for a subsystem's input, the Diagram gives [answer]. *)
Definition in_diagram (answer : AbstractValue) : SystemParentServiceInterface :=
  {| GetParentPathname := "::diagram"; GetRootSystemBase_id := 10;
     EvalConnectedSubsystemInputPort := fun _ _ => ret (Some answer) |}.

Definition pump (answer : AbstractValue) : SystemBase :=
  {| name_ := "pump"; system_id_ := 11; GetSystemType := "Pump";
     parent_service_ := Some (in_diagram answer);
     input_ports_ :=
       [ {| input_base := example_port 0 23 "flow" None |};
         {| input_base := example_port 1 24 "torque" (Some "") |} ];
     output_ports_ := []; cache_entries_ := [];
     discrete_state_tickets_ := []; abstract_state_tickets_ := [];
     numeric_parameter_tickets_ := []; abstract_parameter_tickets_ := [];
     next_available_ticket_ := 25;
     MakeFixInputPortTypeChecker := fun _ _ => true |}.

(** The Diagram itself, as a root System. *)
Definition diagram : SystemBase :=
  {| name_ := "diagram"; system_id_ := 10; GetSystemType := "Diagram";
     parent_service_ := None;
     input_ports_ := []; output_ports_ := []; cache_entries_ := [];
     discrete_state_tickets_ := []; abstract_state_tickets_ := [];
     numeric_parameter_tickets_ := []; abstract_parameter_tickets_ := [];
     next_available_ticket_ := 23;
     MakeFixInputPortTypeChecker := fun _ _ => true |}.

Definition example_context (name : string) (id : SystemId)
    (parent : option ContextBase)
    (fixed : list (option FixedInputPortValue)) : ContextBase :=
  {| ctx_system_name := name; ctx_system_id := id; ctx_parent := parent;
     is_context_base_initialized := true;
     ctx_graph := ∅; ctx_cache := ∅;
     ctx_input_port_tickets := []; ctx_input_port_values := fixed;
     ctx_input_port_type_checkers := [];
     ctx_output_port_tickets := [];
     ctx_discrete_state_tickets := []; ctx_abstract_state_tickets := [];
     ctx_numeric_parameter_tickets := [];
     ctx_abstract_parameter_tickets := [] |}.

Definition diagram_context : ContextBase :=
  example_context "diagram" 10 None [].

(** The pump's subcontext, its first input fixed to [fixed] by the caller. *)
Definition pump_context (fixed : AbstractValue) : ContextBase :=
  example_context "pump" 11 (Some diagram_context)
    [Some {| get_value := fixed |}; None].

Definition valve_context : ContextBase :=
  example_context "valve" 12 (Some diagram_context) [].

(** A second pump object: same type, same ports, its own atomics. *)
Definition second_pump (answer : AbstractValue) : SystemBase :=
  {| name_ := "spare"; system_id_ := 13; GetSystemType := "Pump";
     parent_service_ := Some (in_diagram answer);
     input_ports_ := input_ports_ (pump answer);
     output_ports_ := []; cache_entries_ := [];
     discrete_state_tickets_ := []; abstract_state_tickets_ := [];
     numeric_parameter_tickets_ := []; abstract_parameter_tickets_ := [];
     next_available_ticket_ := 25;
     MakeFixInputPortTypeChecker := fun _ _ => true |}.

Definition warn_torque (object : nat) : WarnCall :=
  {| call_system := object; call_is_input := true; call_port_index := 1 |}.

(** ** Invariants and frames used in the proofs *)

(** The cache entries sit in [cache_entries_] at the positions their
    indices give. *)
Definition cache_entries_indexed (this : SystemBase) : Prop :=
  cache_index <$> cache_entries_ this = seq 0 (num_cache_entries this).

(** Every ticket a cache entry holds is one the allocator has handed out
    already. *)
Definition cache_tickets_assigned (this : SystemBase) : Prop :=
  Forall (fun entry => ticket entry < next_available_ticket_ this)
         (cache_entries_ this).

(** [tracks f u c]: when [c] returns, the part [f] of the state is [u] of
    what it was. *)
Definition tracks {S A B} (f : S -> B) (u : B -> B) (c : Eff S A) : Prop :=
  forall s a s', c s = (Returned a, s') -> f s' = u (f s).

(** [unchanged_on_throw f c]: when [c] throws, the part [f] of the state is
    what it was. *)
Definition unchanged_on_throw {S A B} (f : S -> B) (c : Eff S A) : Prop :=
  forall s e s', c s = (Thrown e, s') -> f s' = f s.

(** [stable P c]: what [c] writes never falsifies [P], whether [c] returns
    or throws. *)
Definition stable {S A} (P : S -> Prop) (c : Eff S A) : Prop :=
  forall s, P s -> P (snd (c s)).

(** In the dependency graph of [context], the tracker of [subscriber] is
    subscribed to the tracker of [prerequisite]: a change to the
    prerequisite is passed on to the subscriber. *)
Definition subscribed (context : ContextBase)
    (subscriber prerequisite : DependencyTicket) : Prop :=
  exists tracker,
    ctx_graph context !! prerequisite = Some tracker /\
    subscriber ∈ tracker_subscribers tracker.

(** The tickets for which [InitializeContextBase] creates a tracker, in the
    order in which it creates them. *)
Definition declared_tickets (this : SystemBase) : list DependencyTicket :=
  fst <$> declared_trackers this.

(** Between the Contexts [c] and [c'] the trackers of [tickets] were
    created, one each, none of them for a ticket that had a tracker, and no
    other tracker was added or removed. *)
Definition creates (tickets : list DependencyTicket) (c c' : ContextBase)
    : Prop :=
  dom (ctx_graph c') = list_to_set tickets ∪ dom (ctx_graph c) /\
  NoDup tickets /\
  forall t, t ∈ tickets -> t ∉ dom (ctx_graph c).

(** The Context's parent reports the pathname that the System's parent
    service reports: both are roots, or both have a parent and the two
    parents give the same pathname. *)
Definition parents_agree (this : SystemBase) (context : ContextBase) : Prop :=
  match get_parent_service this, ctx_parent context with
  | None, None => True
  | Some parent, Some parent_context =>
      Context_GetSystemPathname parent_context = GetParentPathname parent
  | _, _ => False
  end.

(** Reading a hexadecimal number back: the value of a digit, and of a text
    of digits after the value [acc] of the digits before it. *)
Definition hex_value (c : Ascii.ascii) : N :=
  let n := Ascii.N_of_ascii c in
  if bool_decide (n < 58)%N then (n - 48)%N else (n - 87)%N.

Fixpoint parse_hex (acc : N) (s : string) : N :=
  match s with
  | EmptyString => acc
  | String c rest => parse_hex (16 * acc + hex_value c) rest
  end.

(** The number of parent links above a Context. *)
Fixpoint context_depth (c : ContextBase) : nat :=
  match ctx_parent c with
  | None => 0
  | Some parent => S (context_depth parent)
  end.

(** The invariant of the process-wide statics: the warnings in the log were
    issued under pairwise different keys, and each of those keys is in
    [g_warned_hash]. *)
Definition log_deduplicated (process : Process) : Prop :=
  NoDup (warning_key <$> drake_log process) /\
  forall w, w ∈ drake_log process -> warning_key w ∈ g_warned_hash process.

(** What holds of the statics however the steps of the calls interleave:
    the logged warnings have pairwise different keys, all in
    [g_warned_hash]; a call about to write to the log holds a key that is in
    the set, that no logged warning has, and that no other such call has. *)
Definition deduplicated (cfg : Config) : Prop :=
  NoDup (warning_key <$> drake_log (statics cfg)) /\
  (forall w, w ∈ drake_log (statics cfg) ->
             warning_key w ∈ g_warned_hash (statics cfg)) /\
  (forall i w, calls_in_flight cfg !! i = Some (AtLog w) ->
               warning_key w ∈ g_warned_hash (statics cfg) /\
               warning_key w ∉ warning_key <$> drake_log (statics cfg)) /\
  (forall i j w w', i <> j ->
                    calls_in_flight cfg !! i = Some (AtLog w) ->
                    calls_in_flight cfg !! j = Some (AtLog w') ->
                    warning_key w <> warning_key w').

(** [preserves f c]: whatever [c] does, returning or throwing, the part [f]
    of the state is afterwards what it was. *)
Definition preserves {S A B} (f : S -> B) (c : Eff S A) : Prop :=
  forall s, f (snd (c s)) = f s.

(** * Properties *)

(** ** The monad *)

Ltac eff_unfold :=
  unfold bind, ret, throw, gets, modify, on_snd, DRAKE_DEMAND in *.

Lemma bind_returned {S A B} (c : Eff S A) (k : A -> Eff S B) s a s' :
  c s = (Returned a, s') -> bind c k s = k a s'.
Proof. intros H. unfold bind. by rewrite H. Qed.

Lemma bind_returned_inv {S A B} (c : Eff S A) (k : A -> Eff S B) s b s2 :
  bind c k s = (Returned b, s2) ->
  exists a s1, c s = (Returned a, s1) /\ k a s1 = (Returned b, s2).
Proof.
  unfold bind. destruct (c s) as [[a|e] s1]; [eauto | discriminate].
Qed.

(** ** Declaring cache entries *)

Lemma new_CacheEntry_empty {S} index t descr producer (s : S) :
  exists what,
    new_CacheEntry index t descr producer ∅ s = (Thrown (std_logic_error what), s).
Proof. unfold new_CacheEntry. rewrite bool_decide_eq_true_2 by done. eauto. Qed.

Lemma new_CacheEntry_returned_inv {S} index t descr producer prereqs
    (s s' : S) entry :
  new_CacheEntry index t descr producer prereqs s = (Returned entry, s') ->
  prereqs ≠ ∅ /\ s' = s /\
  entry = {| cache_index := index; ticket := t; description := descr;
             value_producer := producer; prerequisites := prereqs;
             is_disabled_by_default := false |}.
Proof.
  unfold new_CacheEntry. case_bool_decide; [discriminate|].
  unfold ret. intros [= <- <-]. done.
Qed.

Lemma DeclareCacheEntryWithKnownTicket_returned_inv t descr producer prereqs
    this ref this' :
  DeclareCacheEntryWithKnownTicket t descr producer prereqs this
    = (Returned ref, this') ->
  let entry := {| cache_index := num_cache_entries this; ticket := t;
                  description := descr; value_producer := producer;
                  prerequisites := prereqs; is_disabled_by_default := false |} in
  prereqs ≠ ∅ /\ this' = emplace_back_cache_entry entry this /\
  ref = num_cache_entries this.
Proof.
  unfold DeclareCacheEntryWithKnownTicket.
  intros (index & s1 & Hidx & H)%bind_returned_inv.
  unfold gets in Hidx. injection Hidx as <- <-.
  apply bind_returned_inv in H as (entry & s2 & Hnew & H).
  apply new_CacheEntry_returned_inv in Hnew as (Hne & -> & ->).
  eff_unfold. injection H as <- <-. simpl.
  split; [done|]. split; [done|].
  rewrite length_app. simpl. unfold num_cache_entries. lia.
Qed.

(** C5.  With an empty prerequisite set, [DeclareCacheEntry] and
    [DeclareCacheEntryWithKnownTicket] throw the constructor's logic error (a
    PreconditionViolation), and the System's list of cache entries is what it
    was before the call. *)
Theorem DeclareCacheEntry_rejects_empty_prerequisites
    (descr : string) (producer : ValueProducer) (known_ticket : DependencyTicket)
    (this : SystemBase) :
  (exists e this',
     DeclareCacheEntry descr producer ∅ this = (Thrown e, this') /\
     PreconditionViolation e /\
     cache_entries_ this' = cache_entries_ this) /\
  (exists e,
     DeclareCacheEntryWithKnownTicket known_ticket descr producer ∅ this
       = (Thrown e, this) /\
     PreconditionViolation e).
Proof.
  split.
  - unfold DeclareCacheEntry, assign_next_dependency_ticket,
      DeclareCacheEntryWithKnownTicket.
    eff_unfold. simpl.
    destruct (new_CacheEntry_empty (S:=SystemBase)
                (num_cache_entries
                   (set_next_available_ticket (S (next_available_ticket_ this)) this))
                (next_available_ticket_ this) descr producer
                (set_next_available_ticket (S (next_available_ticket_ this)) this))
      as (what & ->).
    eexists _, _. split; [reflexivity|]. split; done.
  - unfold DeclareCacheEntryWithKnownTicket. eff_unfold. simpl.
    destruct (new_CacheEntry_empty (S:=SystemBase) (num_cache_entries this)
                known_ticket descr producer this) as (what & ->).
    eexists. split; [reflexivity|done].
Qed.

(** C8.  When either variant returns, exactly one descriptor has been appended
    to [cache_entries_]; its index is the number of entries declared before
    the call; the returned reference designates the stored descriptor; and
    nothing else of the System has changed, except that [DeclareCacheEntry]
    has used up one ticket.  The computation runs on the System alone: its
    state type holds no Context. *)
Theorem DeclareCacheEntry_appends_descriptor
    (descr : string) (producer : ValueProducer) (prereqs : gset DependencyTicket)
    (known_ticket : DependencyTicket) (this this' : SystemBase) (ref : CacheIndex) :
  DeclareCacheEntryWithKnownTicket known_ticket descr producer prereqs this
    = (Returned ref, this') \/
  DeclareCacheEntry descr producer prereqs this = (Returned ref, this') ->
  exists entry,
    cache_entries_ this' = cache_entries_ this ++ [entry] /\
    cache_index entry = num_cache_entries this /\
    get_cache_entry this' ref = Some entry /\
    description entry = descr /\ prerequisites entry = prereqs /\
    value_producer entry = producer /\
    (this' = emplace_back_cache_entry entry this \/
     this' = emplace_back_cache_entry entry
               (set_next_available_ticket (S (next_available_ticket_ this)) this)).
Proof.
  intros [H|H].
  - apply DeclareCacheEntryWithKnownTicket_returned_inv in H as (_ & -> & ->).
    eexists. simpl. split; [reflexivity|]. split; [done|].
    split; [|by repeat split; try left].
    unfold get_cache_entry, num_cache_entries. simpl.
    by rewrite lookup_app_r, Nat.sub_diag.
  - unfold DeclareCacheEntry in H.
    apply bind_returned_inv in H as (t & s1 & Ht & H).
    unfold assign_next_dependency_ticket in Ht. eff_unfold.
    injection Ht as <- <-.
    apply DeclareCacheEntryWithKnownTicket_returned_inv in H as (_ & -> & ->).
    eexists. simpl. split; [reflexivity|]. split; [done|].
    split; [|by repeat split; try right].
    unfold get_cache_entry, num_cache_entries. simpl.
    by rewrite lookup_app_r, Nat.sub_diag.
Qed.

(** C9.  [DeclareCacheEntry] is [DeclareCacheEntryWithKnownTicket] run with
    the ticket the allocator hands out next: same outcome (the same reference
    or the same exception) and the same final System; and when it returns,
    the stored descriptor carries that ticket and the allocator has moved
    past it. *)
Theorem DeclareCacheEntry_is_known_ticket_variant
    (descr : string) (producer : ValueProducer) (prereqs : gset DependencyTicket)
    (this : SystemBase) :
  DeclareCacheEntry descr producer prereqs this
    = DeclareCacheEntry_with_fresh_ticket descr producer prereqs this /\
  (forall ref this',
     DeclareCacheEntry descr producer prereqs this = (Returned ref, this') ->
     ticket <$> get_cache_entry this' ref = Some (next_available_ticket_ this) /\
     next_available_ticket_ this' = S (next_available_ticket_ this)).
Proof.
  assert (Heq : DeclareCacheEntry descr producer prereqs this
                = DeclareCacheEntry_with_fresh_ticket descr producer prereqs this).
  { unfold DeclareCacheEntry, DeclareCacheEntry_with_fresh_ticket,
      assign_next_dependency_ticket. by eff_unfold. }
  split; [exact Heq|].
  intros ref this' H. rewrite Heq in H.
  unfold DeclareCacheEntry_with_fresh_ticket in H.
  apply DeclareCacheEntryWithKnownTicket_returned_inv in H as (_ & -> & ->).
  unfold get_cache_entry, num_cache_entries. simpl.
  by rewrite lookup_app_r, Nat.sub_diag.
Qed.

(** ** Message text *)

Lemma string_app_assoc (a b c : string) : (a +:+ b) +:+ c = a +:+ (b +:+ c).
Proof.
  induction a as [|ch a IH]; [reflexivity|].
  change (String ch ((a +:+ b) +:+ c) = String ch (a +:+ (b +:+ c))).
  by rewrite IH.
Qed.

Lemma names_here (part after : string) : names part (part +:+ after).
Proof. by exists "", after. Qed.

Lemma names_later (part before msg : string) :
  names part msg -> names part (before +:+ msg).
Proof.
  intros (b & a & ->). exists (before +:+ b), a. by rewrite string_app_assoc.
Qed.

Lemma prefix_app (p rest : string) : String.prefix p (p +:+ rest) = true.
Proof.
  induction p as [|ch p IH]; [by destruct rest|].
  change (String.prefix (String ch p) (String ch (p +:+ rest)) = true).
  simpl. destruct (Ascii.ascii_dec ch ch); [exact IH | congruence].
Qed.

(** [occurs_in] finds every occurrence, so a text it does not find is not
    named. *)
Lemma names_occurs_in (part msg : string) :
  names part msg -> occurs_in part msg = true.
Proof.
  intros (before & after & ->).
  induction before as [|ch before IH].
  - change (occurs_in part (part +:+ after) = true).
    pose proof (prefix_app part after) as Hp.
    destruct (part +:+ after); cbn [occurs_in]; by rewrite Hp.
  - change (occurs_in part (String ch (before +:+ part +:+ after)) = true).
    cbn [occurs_in]. rewrite IH. apply orb_true_r.
Qed.

(** An [InputPortIndex] prints like the [int] it was made from. *)
Lemma pretty_Z_to_nat (z : Z) : (0 <= z)%Z -> pretty (Z.to_nat z) = pretty z.
Proof.
  intros Hz. destruct z as [|p|p]; [reflexivity| |lia].
  unfold pretty at 1, pretty_nat. by rewrite Z2Nat.inj_pos, positive_nat_N.
Qed.

Ltac find_name :=
  first [ apply names_here | apply names_later; find_name ].

(** ** Deprecation warnings: one call *)

Lemma ports_of_input_lookup (this : SystemBase) (i : nat) (port : InputPortBase) :
  input_ports_ this !! i = Some port ->
  ports_of true this !! i = Some (input_base port).
Proof. intros H. unfold ports_of. by rewrite list_lookup_fmap, H. Qed.

(** Called on a port that exists and is deprecated, [WarnPortDeprecation]
    returns normally, leaves the port's atomic set, and warns only if neither
    the atomic nor the process-wide set had seen the port's key. *)
Lemma WarnPortDeprecation_returns (is_input : bool) (i : nat) (port : PortBase)
    (this : SystemBase) (process : Process) :
  ports_of is_input this !! i = Some port ->
  is_Some (get_deprecation port) ->
  WarnPortDeprecation is_input (Z.of_nat i) (this, process)
    = (Returned tt,
       (store_already_warned is_input i true this,
        after_warning this is_input port process)).
Proof.
  intros Hport Hdep.
  unfold WarnPortDeprecation, vector_at, exchange_already_warned,
    g_warned_hash_insert, log_warn, after_warning, deprecation_warning.
  eff_unfold. cbn [fst snd].
  rewrite bool_decide_eq_true_2 by lia. rewrite Nat2Z.id, Hport.
  rewrite (bool_decide_eq_true_2 _ Hdep).
  destruct (deprecation_already_warned port); [done|].
  unfold ret. cbn [fst snd]. by case_bool_decide.
Qed.

Lemma warn_if_deprecated_returns (port : InputPortBase) (i : nat)
    (this : SystemBase) (process : Process) :
  input_ports_ this !! i = Some port ->
  exists state',
    warn_if_deprecated port i (this, process) = (Returned tt, state').
Proof.
  intros Hport. unfold warn_if_deprecated.
  case_bool_decide as Hdep; [|by eexists].
  rewrite (WarnPortDeprecation_returns true i (input_base port)); [by eexists| |done].
  by apply ports_of_input_lookup.
Qed.

(** ** Evaluating an input port *)

(** The deprecation step reads the parent service for the pathname only:
    with another resolver it leaves the process-wide statics and the log in
    the same state. *)
Lemma GetSystemPathname_with_resolver resolver (this : SystemBase) :
  GetSystemPathname (with_resolver resolver this) = GetSystemPathname this.
Proof. unfold GetSystemPathname, get_parent_service. simpl. by destruct (parent_service_ this). Qed.

Lemma warn_if_deprecated_with_resolver resolver (port : InputPortBase) (i : nat)
    (this : SystemBase) (process : Process) :
  input_ports_ this !! i = Some port ->
  snd (snd (warn_if_deprecated port i (with_resolver resolver this, process)))
  = snd (snd (warn_if_deprecated port i (this, process))).
Proof.
  intros Hport. unfold warn_if_deprecated.
  case_bool_decide as Hdep; [|done].
  rewrite (WarnPortDeprecation_returns true i (input_base port) this process
             (ports_of_input_lookup _ _ _ Hport) Hdep).
  rewrite (WarnPortDeprecation_returns true i (input_base port)
             (with_resolver resolver this) process
             (ports_of_input_lookup (with_resolver resolver this) _ _ Hport) Hdep).
  cbn [snd]. unfold after_warning, deprecation_warning, GetFullDescription.
  by rewrite GetSystemPathname_with_resolver.
Qed.

(** C1.  For an index in range, when the Context holds a caller-fixed value
    for the port, [EvalAbstractInputImpl] returns that value.  Its only
    effect is the deprecation step of lines 199-200: the final state is the
    one that step alone produces.  The parent service is not asked to
    evaluate anything: whatever [EvalConnectedSubsystemInputPort] would
    answer, throw or write, the value returned and the state of the process
    are the same. *)
Theorem EvalAbstractInputImpl_returns_fixed_value
    (func : string) (context : ContextBase) (port_index : InputPortIndex)
    (this : SystemBase) (process : Process) (fixed : FixedInputPortValue) :
  port_index < num_input_ports this ->
  MaybeGetFixedInputPortValue context port_index = Some fixed ->
  exists port,
    input_ports_ this !! port_index = Some port /\
    EvalAbstractInputImpl func context port_index (this, process)
      = (Returned (Some (get_value fixed)),
         snd (warn_if_deprecated port port_index (this, process))) /\
    forall resolver,
      fst (EvalAbstractInputImpl func context port_index
             (with_resolver resolver this, process))
        = Returned (Some (get_value fixed)) /\
      snd (snd (EvalAbstractInputImpl func context port_index
                  (with_resolver resolver this, process)))
        = snd (snd (EvalAbstractInputImpl func context port_index
                      (this, process))).
Proof.
  intros Hrange Hfixed.
  destruct (lookup_lt_is_Some_2 (input_ports_ this) port_index Hrange)
    as [port Hport].
  exists port. split; [done|].
  assert (Hrun : forall sys,
            input_ports_ sys !! port_index = Some port ->
            EvalAbstractInputImpl func context port_index (sys, process)
              = (Returned (Some (get_value fixed)),
                 snd (warn_if_deprecated port port_index (sys, process)))).
  { intros sys Hsys.
    destruct (warn_if_deprecated_returns port port_index sys process Hsys)
      as (state' & Hwarn).
    unfold EvalAbstractInputImpl.
    unfold bind at 1, gets at 1. simpl. rewrite Hsys.
    rewrite (bind_returned _ _ _ _ _ Hwarn). rewrite Hwarn, Hfixed. done. }
  split; [by apply Hrun|].
  intros resolver. rewrite (Hrun this Hport), (Hrun (with_resolver resolver this) Hport).
  split; [done|]. cbn [fst snd]. by apply warn_if_deprecated_with_resolver.
Qed.

(** C2.  For an index in range with no caller-fixed value, a System without a
    parent service, or any System handed a root Context, gets the null "no
    value" result; nothing is thrown, and the only effect is the deprecation
    step. *)
Theorem EvalAbstractInputImpl_unconnected_is_null
    (func : string) (context : ContextBase) (port_index : InputPortIndex)
    (this : SystemBase) (process : Process) :
  port_index < num_input_ports this ->
  MaybeGetFixedInputPortValue context port_index = None ->
  get_parent_service this = None \/ is_root_context context = true ->
  exists port,
    input_ports_ this !! port_index = Some port /\
    EvalAbstractInputImpl func context port_index (this, process)
      = (Returned None,
         snd (warn_if_deprecated port port_index (this, process))).
Proof.
  intros Hrange Hfree Hroot.
  destruct (lookup_lt_is_Some_2 (input_ports_ this) port_index Hrange)
    as [port Hport].
  exists port. split; [done|].
  destruct (warn_if_deprecated_returns port port_index this process Hport)
    as (state' & Hwarn).
  unfold EvalAbstractInputImpl.
  unfold bind at 1, gets at 1. simpl. rewrite Hport.
  rewrite (bind_returned _ _ _ _ _ Hwarn). rewrite Hwarn, Hfree.
  destruct Hroot as [Hnone | Hroot].
  - by rewrite Hnone.
  - destruct (get_parent_service this); [|done].
    unfold is_root_context in Hroot. apply bool_decide_eq_true in Hroot.
    unfold get_parent_base. by rewrite Hroot.
Qed.

(** An [InputPortIndex] at or past the declared count is refused before
    anything else happens. *)
Lemma EvalAbstractInputImpl_index_out_of_range
    (func : string) (context : ContextBase) (port_index : InputPortIndex)
    (this : SystemBase) (process : Process) :
  num_input_ports this <= port_index ->
  exists msg,
    EvalAbstractInputImpl func context port_index (this, process)
      = (Thrown (std_out_of_range msg), (this, process)) /\
    names (pretty port_index) msg /\
    names (pretty (num_input_ports this)) msg /\
    names (GetSystemPathname this) msg.
Proof.
  intros Hrange. unfold EvalAbstractInputImpl.
  unfold bind at 1, gets at 1. simpl.
  rewrite (lookup_ge_None_2 (input_ports_ this) port_index Hrange).
  unfold ThrowInputPortIndexOutOfRange, throw.
  eexists. split; [reflexivity|]. repeat split; find_name.
Qed.

(** A negative [int] index is refused with a message of its own, which gives
    the index and the pathname. *)
Lemma ThrowNegativePortIndex_throws {S A} (this : SystemBase) (func : string)
    (port_index : Z) (s : S) :
  (port_index < 0)%Z ->
  exists msg,
    ThrowNegativePortIndex (A:=A) this func port_index s
      = (Thrown (std_out_of_range msg), s) /\
    names (pretty port_index) msg /\
    names (GetSystemPathname this) msg.
Proof.
  intros Hneg. unfold ThrowNegativePortIndex. eff_unfold.
  rewrite bool_decide_eq_true_2 by done.
  eexists. split; [reflexivity|]. split; find_name.
Qed.

(** C3, as the code has it.  An [InputPortIndex] at or past the declared
    count makes [EvalAbstractInputImpl] raise [std::out_of_range] with a
    message naming the index, the declared count and the System's pathname.
    A negative [int] index makes [ThrowNegativePortIndex] raise
    [std::out_of_range] with a message naming the index and the pathname.
    Through the [int] entry point, every index that is negative or at or
    past the count raises [std::out_of_range] with the message of its case,
    and the System and the process are left as they were. *)
Theorem EvalAbstractInput_index_out_of_range
    (func : string) (context : ContextBase)
    (this : SystemBase) (process : Process) :
  (forall port_index : InputPortIndex,
     num_input_ports this <= port_index ->
     exists msg,
       EvalAbstractInputImpl func context port_index (this, process)
         = (Thrown (std_out_of_range msg), (this, process)) /\
       OutOfRange (std_out_of_range msg) /\
       names (pretty port_index) msg /\
       names (pretty (num_input_ports this)) msg /\
       names (GetSystemPathname this) msg) /\
  (forall port_index : Z,
     (port_index < 0)%Z ->
     exists msg,
       ThrowNegativePortIndex (A:=option AbstractValue) this func port_index
         (this, process)
         = (Thrown (std_out_of_range msg), (this, process)) /\
       OutOfRange (std_out_of_range msg) /\
       names (pretty port_index) msg /\
       names (GetSystemPathname this) msg) /\
  (forall port_index : Z,
     (port_index < 0 \/ Z.of_nat (num_input_ports this) <= port_index)%Z ->
     exists msg,
       EvalAbstractInput context port_index (this, process)
         = (Thrown (std_out_of_range msg), (this, process)) /\
       OutOfRange (std_out_of_range msg) /\
       names (pretty port_index) msg /\
       names (GetSystemPathname this) msg /\
       ((0 <= port_index)%Z -> names (pretty (num_input_ports this)) msg)).
Proof.
  split; [|split].
  - intros port_index Hrange.
    destruct (EvalAbstractInputImpl_index_out_of_range func context port_index
                this process Hrange) as (msg & Hrun & Hi & Hn & Hp).
    by exists msg.
  - intros port_index Hneg.
    destruct (ThrowNegativePortIndex_throws (A:=option AbstractValue) this func
                port_index (this, process) Hneg) as (msg & Hrun & Hi & Hp).
    by exists msg.
  - intros port_index Hrange. unfold EvalAbstractInput.
    unfold bind at 1, gets at 1. simpl.
    case_bool_decide as Hneg.
    + destruct (ThrowNegativePortIndex_throws (A:=option AbstractValue) this
                  "EvalAbstractInput" port_index (this, process) Hneg)
        as (msg & Hrun & Hi & Hp).
      exists msg. repeat split; try done. lia.
    + destruct (EvalAbstractInputImpl_index_out_of_range "EvalAbstractInput"
                  context (Z.to_nat port_index) this process)
        as (msg & -> & Hi & Hn & Hp).
      { lia. }
      rewrite pretty_Z_to_nat in Hi by lia.
      by exists msg.
Qed.

(** ** Context/System mismatch *)

Lemma ThrowValidateContextMismatch_throws {S A} (this : SystemBase)
    (context : ContextBase) (s : S) :
  ThrowValidateContextMismatch (A:=A) this context s =
    (Thrown (std_logic_error
       (match get_parent_service this with
        | Some parent =>
            if bool_decide (ctx_system_id context = GetRootSystemBase_id parent)
            then root_context_passed_message this
            else if bool_decide (ctx_system_id (root_context_of context)
                                 = get_system_id this)
            then subcontext_passed_message context
            else generic_mismatch_message this context
        | None =>
            if bool_decide (ctx_system_id (root_context_of context)
                            = get_system_id this)
            then subcontext_passed_message context
            else generic_mismatch_message this context
        end)), s).
Proof.
  unfold ThrowValidateContextMismatch. eff_unfold.
  destruct (get_parent_service this) as [parent|];
    repeat case_bool_decide; reflexivity.
Qed.

(** C6, as the code has it.  [ThrowValidateContextMismatch] never returns: it
    always throws a logic error and leaves the state alone.  The message is
    chosen in this order: (a) when this System has a parent service and the
    passed Context's own id is the root System's id, the text that names the
    subsystem and points to [GetMyContextFromRoot()]; (b) else when the
    passed Context's transitive root was created by this System, the
    subcontext-passed-to-root text; (c) otherwise the generic text naming
    both pathnames. *)
Theorem ThrowValidateContextMismatch_diagnosis {S A} (this : SystemBase)
    (context : ContextBase) (s : S) :
  (exists what,
     ThrowValidateContextMismatch (A:=A) this context s
       = (Thrown (std_logic_error what), s)) /\
  (passed_the_root_context this context ->
   ThrowValidateContextMismatch (A:=A) this context s
     = (Thrown (std_logic_error (root_context_passed_message this)), s)) /\
  (~ passed_the_root_context this context ->
   rooted_at_this_system this context ->
   ThrowValidateContextMismatch (A:=A) this context s
     = (Thrown (std_logic_error (subcontext_passed_message context)), s)) /\
  (~ passed_the_root_context this context ->
   ~ rooted_at_this_system this context ->
   ThrowValidateContextMismatch (A:=A) this context s
     = (Thrown (std_logic_error (generic_mismatch_message this context)), s)) /\
  names (GetSystemPathname this) (root_context_passed_message this) /\
  names "GetMyContextFromRoot()" (root_context_passed_message this) /\
  names (Context_GetSystemPathname context) (subcontext_passed_message context) /\
  names (GetSystemPathname this) (generic_mismatch_message this context) /\
  names (Context_GetSystemPathname context)
        (generic_mismatch_message this context).
Proof.
  rewrite ThrowValidateContextMismatch_throws.
  unfold passed_the_root_context, rooted_at_this_system.
  split; [by eexists|].
  split.
  { intros (parent & -> & Hid). by rewrite bool_decide_eq_true_2. }
  split.
  { intros Hnot Hroot.
    destruct (get_parent_service this) as [parent|].
    - rewrite bool_decide_eq_false_2 by (intros Hid; apply Hnot; eauto).
      by rewrite bool_decide_eq_true_2.
    - by rewrite bool_decide_eq_true_2. }
  split.
  { intros Hnot Hroot.
    destruct (get_parent_service this) as [parent|].
    - rewrite bool_decide_eq_false_2 by (intros Hid; apply Hnot; eauto).
      by rewrite bool_decide_eq_false_2.
    - by rewrite bool_decide_eq_false_2. }
  unfold root_context_passed_message, subcontext_passed_message,
    generic_mismatch_message.
  repeat split; try find_name.
  exists ("A function call on a " +:+ GetSystemType this +:+ " system named '" +:+
          GetSystemPathname this +:+ "' was passed the root " +:+
          "Diagram's Context instead of the appropriate subsystem Context. " +:+
          "Use "),
         (" or similar to acquire the appropriate " +:+
          "subsystem Context." +:+ newline +:+ info_link).
  rewrite !string_app_assoc. do 6 f_equal.
Qed.

(** ** Deprecation warnings: any sequence of calls *)

Lemma log_deduplicated_start : log_deduplicated process_start.
Proof. split; [constructor | intros w Hw; inversion Hw]. Qed.

(** One call either leaves the statics and the log alone, or logs one
    warning under a key the set did not hold. *)
Lemma WarnPortDeprecation_process (is_input : bool) (port_index : Z)
    (this : SystemBase) (process : Process) :
  let process' := snd (snd (WarnPortDeprecation is_input port_index
                              (this, process))) in
  process' = process \/
  exists port,
    ports_of is_input this !! Z.to_nat port_index = Some port /\
    (0 <= port_index)%Z /\
    (warning_key (deprecation_warning this is_input port)
       ∉ g_warned_hash process) /\
    process' =
      {| g_warned_hash :=
           {[warning_key (deprecation_warning this is_input port)]}
           ∪ g_warned_hash process;
         drake_log := drake_log process ++
                        [deprecation_warning this is_input port] |}.
Proof.
  cbv zeta.
  destruct (decide (0 <= port_index)%Z) as [Hpos|Hneg]; cycle 1.
  { left. unfold WarnPortDeprecation, vector_at. eff_unfold. cbn [fst snd].
    by rewrite bool_decide_eq_false_2. }
  destruct (ports_of is_input this !! Z.to_nat port_index) as [port|] eqn:Hport;
    cycle 1.
  { left. unfold WarnPortDeprecation, vector_at. eff_unfold. cbn [fst snd].
    rewrite bool_decide_eq_true_2 by done. by rewrite Hport. }
  destruct (get_deprecation port) as [text|] eqn:Hdep; cycle 1.
  { left. unfold WarnPortDeprecation, vector_at. eff_unfold. cbn [fst snd].
    rewrite bool_decide_eq_true_2 by done. rewrite Hport, Hdep.
    rewrite bool_decide_eq_false_2; [done|]. by intros [? ?]. }
  pose proof (WarnPortDeprecation_returns is_input (Z.to_nat port_index) port
                this process Hport) as Hrun.
  rewrite (Z2Nat.id port_index Hpos), Hdep in Hrun.
  rewrite Hrun by eauto.
  cbn [fst snd]. unfold after_warning.
  destruct (deprecation_already_warned port); [by left|].
  case_bool_decide as Hkey; [by left|].
  right. exists port. done.
Qed.

Lemma log_deduplicated_step (is_input : bool) (port_index : Z)
    (this : SystemBase) (process : Process) :
  log_deduplicated process ->
  log_deduplicated (snd (snd (WarnPortDeprecation is_input port_index
                                (this, process)))).
Proof.
  intros [Hnodup Hkeys].
  destruct (WarnPortDeprecation_process is_input port_index this process)
    as [-> | (port & _ & _ & Hfresh & ->)]; [done|].
  split; simpl.
  - rewrite fmap_app. simpl. apply NoDup_app. split; [done|].
    split; [|apply NoDup_singleton].
    intros k Hk ->%list_elem_of_singleton.
    apply list_elem_of_fmap in Hk as (w & Hw & Hin).
    apply Hfresh. rewrite Hw. by apply Hkeys.
  - intros w [Hin | ->%list_elem_of_singleton]%elem_of_app.
    + apply elem_of_union_r. by apply Hkeys.
    + apply elem_of_union_l. by apply elem_of_singleton.
Qed.

Lemma run_call_process (call : WarnCall) (state : list SystemBase * Process) :
  snd (run_call call state) = snd state \/
  exists this,
    fst state !! call_system call = Some this /\
    snd (run_call call state)
      = snd (snd (WarnPortDeprecation (call_is_input call)
                    (call_port_index call) (this, snd state))).
Proof.
  unfold run_call.
  destruct (fst state !! call_system call) as [this|]; [|by left].
  right. exists this. split; [done|].
  by destruct (WarnPortDeprecation _ _ _) as [? [? ?]].
Qed.

Lemma log_deduplicated_run_call (call : WarnCall)
    (state : list SystemBase * Process) :
  log_deduplicated (snd state) -> log_deduplicated (snd (run_call call state)).
Proof.
  intros Hinv.
  destruct (run_call_process call state) as [-> | (this & _ & ->)]; [done|].
  by apply log_deduplicated_step.
Qed.

Lemma log_deduplicated_run_calls (calls : list WarnCall)
    (state : list SystemBase * Process) :
  log_deduplicated (snd state) -> log_deduplicated (snd (run_calls calls state)).
Proof.
  revert state. induction calls as [|call calls IH]; intros state Hinv; [done|].
  simpl. apply IH. by apply log_deduplicated_run_call.
Qed.

(** Warnings for one combination share one key, so a log whose keys are
    pairwise different holds at most one of them. *)
Lemma warning_key_combination (w1 w2 : Warning) :
  warning_combination w1 = warning_combination w2 ->
  warning_key w1 = warning_key w2.
Proof. unfold warning_combination, warning_key. by intros [= -> -> ->]. Qed.

Lemma warnings_for_at_most_one (combination : string * bool * string)
    (log : list Warning) :
  NoDup (warning_key <$> log) -> length (warnings_for combination log) <= 1.
Proof.
  unfold warnings_for.
  induction log as [|w log IH]; intros Hnodup; [simpl; lia|].
  rewrite fmap_cons in Hnodup. apply NoDup_cons in Hnodup as [Hnotin Hnodup].
  destruct (decide (warning_combination w = combination)) as [Hw|Hw].
  - rewrite filter_cons_True by done.
    assert (filter (fun w' => warning_combination w' = combination) log = [])
      as ->; [|simpl; lia].
    destruct (filter _ log) as [|w' rest] eqn:Hfilter; [done|].
    assert (Hw' : w' ∈ filter (fun w' => warning_combination w' = combination) log).
    { rewrite Hfilter. apply list_elem_of_here. }
    apply list_elem_of_filter in Hw' as [Hcomb Hin].
    exfalso. apply Hnotin.
    apply list_elem_of_fmap. exists w'.
    split; [apply warning_key_combination; congruence | done].
  - rewrite filter_cons_False by done. by apply IH.
Qed.

(** C7.  Start a process, create any System objects, and make any sequence
    of [WarnPortDeprecation] calls through them.  The log then holds at most
    one warning for each (System type, direction, port name); and from the
    state reached, a further call for a combination that already has its
    warning adds nothing to the log. *)
Theorem WarnPortDeprecation_warns_once_per_combination
    (systems : list SystemBase) (calls : list WarnCall) :
  let final := run_calls calls (systems, process_start) in
  (forall combination,
     length (warnings_for combination (drake_log (snd final))) <= 1) /\
  (forall call this port,
     fst final !! call_system call = Some this ->
     ports_of (call_is_input call) this !! Z.to_nat (call_port_index call)
       = Some port ->
     warnings_for (GetSystemType this, call_is_input call, get_name port)
       (drake_log (snd final)) <> [] ->
     drake_log (snd (run_call call final)) = drake_log (snd final)).
Proof.
  intros final.
  assert (Hinv : log_deduplicated (snd final)).
  { apply log_deduplicated_run_calls. exact log_deduplicated_start. }
  split.
  - intros combination. apply warnings_for_at_most_one. apply Hinv.
  - intros call this port Hthis Hport Hwarned.
    destruct (run_call_process call final) as [-> | (this' & Hthis' & ->)];
      [done|].
    rewrite Hthis in Hthis'. injection Hthis' as <-.
    destruct (WarnPortDeprecation_process (call_is_input call)
                (call_port_index call) this (snd final))
      as [-> | (port' & Hport' & _ & Hfresh & _)]; [done|].
    rewrite Hport in Hport'. injection Hport' as <-.
    exfalso.
    destruct (warnings_for _ _) as [|w rest] eqn:Hfilter; [done|].
    assert (Hw : w ∈ warnings_for
                       (GetSystemType this, call_is_input call, get_name port)
                       (drake_log (snd final))).
    { rewrite Hfilter. apply list_elem_of_here. }
    unfold warnings_for in Hw. apply list_elem_of_filter in Hw as [Hcomb Hin].
    apply Hfresh.
    rewrite <- (warning_key_combination w); [by apply Hinv|].
    by rewrite Hcomb.
Qed.

(** ** Deprecation warnings: calls interleaved on several threads *)

(** A call that takes its three steps with nothing in between does what
    [WarnPortDeprecation] does. *)
Lemma advance_alone_is_run_call (call : WarnCall)
    (state : list SystemBase * Process) :
  snd (advance (fst (advance (fst (advance (NotStarted call) state))
                       (snd (advance (NotStarted call) state))))
         (snd (advance (fst (advance (NotStarted call) state))
                 (snd (advance (NotStarted call) state)))))
  = run_call call state.
Proof.
  unfold run_call. cbn [advance].
  destruct (fst state !! call_system call) as [this|]; [|done].
  unfold enter_call.
  destruct (decide (0 <= call_port_index call)%Z) as [Hpos|Hneg]; cycle 1.
  { rewrite (bool_decide_eq_false_2 _ Hneg).
    unfold WarnPortDeprecation, vector_at. eff_unfold. cbn [fst snd].
    by rewrite (bool_decide_eq_false_2 _ Hneg). }
  rewrite (bool_decide_eq_true_2 _ Hpos).
  destruct (ports_of (call_is_input call) this !! Z.to_nat (call_port_index call))
    as [port|] eqn:Hport; cycle 1.
  { unfold WarnPortDeprecation, vector_at. eff_unfold. cbn [fst snd].
    rewrite (bool_decide_eq_true_2 _ Hpos). by rewrite Hport. }
  destruct (decide (is_Some (get_deprecation port))) as [Hdep|Hdep]; cycle 1.
  { rewrite (bool_decide_eq_false_2 _ Hdep).
    unfold WarnPortDeprecation, vector_at. eff_unfold. cbn [fst snd].
    rewrite (bool_decide_eq_true_2 _ Hpos). rewrite Hport.
    by rewrite (bool_decide_eq_false_2 _ Hdep). }
  rewrite (bool_decide_eq_true_2 _ Hdep).
  pose proof (WarnPortDeprecation_returns (call_is_input call)
                (Z.to_nat (call_port_index call)) port this (snd state)
                Hport Hdep) as Hrun.
  rewrite (Z2Nat.id _ Hpos) in Hrun. rewrite Hrun.
  unfold after_warning.
  destruct (deprecation_already_warned port); [done|].
  cbn [fst snd advance]. unfold g_warned_hash_insert.
  change (warning_key (deprecation_warning this (call_is_input call) port))
    with (FNV1a_key (GetSystemType this) (call_is_input call) (get_name port)).
  by case_bool_decide.
Qed.

Lemma deduplicated_launch systems calls : deduplicated (launch systems calls).
Proof.
  unfold launch. split; [constructor|]. split; [intros w Hw; inversion Hw|].
  simpl. split.
  - intros i w H. rewrite list_lookup_fmap in H.
    destruct (calls !! i); discriminate.
  - intros i j w w' _ H. rewrite list_lookup_fmap in H.
    destruct (calls !! i); discriminate.
Qed.

Lemma deduplicated_fire (i : nat) (cfg : Config) :
  deduplicated cfg -> deduplicated (fire i cfg).
Proof.
  intros (Hnodup & Hlogged & Hpending & Hdistinct). unfold fire.
  destruct (calls_in_flight cfg !! i) as [stage|] eqn:Hstage; [|done].
  destruct stage as [call|w|w|].
  - (* the exchange: neither the set nor the log changes, and the call does
       not reach the log stage *)
    cbn [advance fst snd].
    assert (Hnew : exists stage' objects',
              (match objects cfg !! call_system call with
               | Some this =>
                   let '(stage', this') :=
                     enter_call this (call_is_input call) (call_port_index call) in
                   (stage', (<[call_system call := this']> (objects cfg), statics cfg))
               | None => (Finished, (objects cfg, statics cfg))
               end) = (stage', (objects', statics cfg)) /\
              forall w, stage' <> AtLog w).
    { destruct (objects cfg !! call_system call) as [this|]; [|by eexists _, _].
      unfold enter_call.
      repeat first [ case_bool_decide | case_match ];
        simplify_eq; by eexists _, _. }
    destruct Hnew as (stage' & objects' & -> & Hstage').
    split; [done|]. split; [done|]. simpl. split.
    + intros k w [(_ & Hst & _) | (Hne & Hk)]%list_lookup_insert_Some.
      * by destruct (Hstage' w).
      * by apply (Hpending k).
    + intros k j w w' Hkj
        [(_ & Hst & _) | (Hne & Hk)]%list_lookup_insert_Some
        [(_ & Hst' & _) | (Hne' & Hj)]%list_lookup_insert_Some;
        try (by destruct (Hstage' w)); try (by destruct (Hstage' w')).
      by apply (Hdistinct k j).
  - (* the insertion under the lock *)
    cbn [advance fst snd]. unfold g_warned_hash_insert.
    case_bool_decide as Hkey.
    + (* the key was there: the call is over *)
      split; [done|]. split; [done|]. simpl. split.
      * intros k w0 [(-> & [=] & _) | (Hne & Hk)]%list_lookup_insert_Some.
        by apply (Hpending k).
      * intros k j w0 w0' Hkj
          [(-> & [=] & _) | (Hne & Hk)]%list_lookup_insert_Some
          [(-> & [=] & _) | (Hne' & Hj)]%list_lookup_insert_Some.
        by apply (Hdistinct k j).
    + (* the key is new: the call goes on to the log *)
      assert (Hnotlogged : warning_key w ∉ warning_key <$> drake_log (statics cfg)).
      { intros (w0 & Hw0 & Hin)%list_elem_of_fmap. apply Hkey.
        rewrite Hw0. by apply Hlogged. }
      split; [done|]. simpl. split.
      { intros w0 Hin. apply elem_of_union_r. by apply Hlogged. }
      split.
      * intros k w0 [(-> & [= <-] & _) | (Hne & Hk)]%list_lookup_insert_Some.
        -- split; [|done]. apply elem_of_union_l. by apply elem_of_singleton.
        -- destruct (Hpending k w0 Hk) as [Hin Hnot].
           split; [by apply elem_of_union_r | done].
      * intros k j w0 w0' Hkj
          [(-> & [= <-] & _) | (Hne & Hk)]%list_lookup_insert_Some
          [(-> & [= <-] & _) | (Hne' & Hj)]%list_lookup_insert_Some;
          try done.
        -- intros Heq. apply Hkey. rewrite Heq. by apply (Hpending j).
        -- intros Heq. apply Hkey. rewrite <- Heq. by apply (Hpending k).
        -- by apply (Hdistinct k j).
  - (* the write to the log *)
    cbn [advance fst snd]. unfold log_warn, modify. cbn [fst snd].
    destruct (Hpending i w Hstage) as [Hin Hnot].
    split; simpl.
    { rewrite fmap_app. simpl. apply NoDup_app. split; [done|].
      split; [|apply NoDup_singleton].
      by intros key Hkey ->%list_elem_of_singleton. }
    split.
    { intros w0 [Hw0 | ->%list_elem_of_singleton]%elem_of_app;
        [by apply Hlogged | done]. }
    split.
    + intros k w0 [(-> & [=] & _) | (Hne & Hk)]%list_lookup_insert_Some.
      destruct (Hpending k w0 Hk) as [Hin0 Hnot0]. split; [done|].
      rewrite fmap_app. simpl.
      intros [Hlog | Hlast%list_elem_of_singleton]%elem_of_app; [done|].
      by apply (Hdistinct k i w0 w).
    + intros k j w0 w0' Hkj
        [(-> & [=] & _) | (Hne & Hk)]%list_lookup_insert_Some
        [(-> & [=] & _) | (Hne' & Hj)]%list_lookup_insert_Some.
      by apply (Hdistinct k j).
  - (* the call was over already *)
    cbn [advance]. rewrite list_insert_id by done. by destruct cfg.
Qed.

Lemma deduplicated_run_schedule (schedule : list nat) (cfg : Config) :
  deduplicated cfg -> deduplicated (run_schedule schedule cfg).
Proof.
  revert cfg. induction schedule as [|i schedule IH]; intros cfg Hinv; [done|].
  simpl. apply IH. by apply deduplicated_fire.
Qed.

(** With the calls spread over threads and their atomic steps interleaved in
    any order, the log still holds at most one warning for each (System
    type, direction, port name). *)
Theorem interleaved_calls_warn_once_per_combination
    (systems : list SystemBase) (calls : list WarnCall) (schedule : list nat)
    (combination : string * bool * string) :
  length (warnings_for combination
            (drake_log (statics (run_schedule schedule (launch systems calls)))))
    <= 1.
Proof.
  apply warnings_for_at_most_one.
  apply (deduplicated_run_schedule schedule (launch systems calls)).
  apply deduplicated_launch.
Qed.

(** ** Context initialization: what the steps leave alone *)

Lemma preserves_ret {S A B} (f : S -> B) (a : A) : preserves f (ret a).
Proof. by intros s. Qed.

Lemma preserves_throw {S A B} (f : S -> B) e : preserves f (throw (A:=A) e).
Proof. by intros s. Qed.

Lemma preserves_gets {S A B} (f : S -> B) (g : S -> A) : preserves f (gets g).
Proof. by intros s. Qed.

Lemma preserves_modify {S B} (f : S -> B) (g : S -> S) :
  (forall s, f (g s) = f s) -> preserves f (modify g).
Proof. intros H s. apply H. Qed.

Lemma preserves_DRAKE_DEMAND {S B} (f : S -> B) cond text :
  preserves f (DRAKE_DEMAND cond text).
Proof. intros s. by destruct cond. Qed.

Lemma preserves_bind {S A A' B} (f : S -> B) (c : Eff S A) (k : A -> Eff S A') :
  preserves f c -> (forall a, preserves f (k a)) -> preserves f (bind c k).
Proof.
  intros Hc Hk s. unfold bind. specialize (Hc s).
  destruct (c s) as [[a|e] s1]; simpl in *; [|done].
  by rewrite Hk.
Qed.

Lemma preserves_for_each {S A B} (f : S -> B) (l : list A) body :
  (forall x, preserves f (body x)) -> preserves f (for_each l body).
Proof.
  intros Hbody. induction l as [|x l IH]; [by intros s|].
  simpl. apply preserves_bind; [apply Hbody | by intros _].
Qed.

Lemma preserves_returned {S A B} (f : S -> B) (c : Eff S A) s r s' :
  preserves f c -> c s = (r, s') -> f s' = f s.
Proof. intros H Hc. specialize (H s). by rewrite Hc in H. Qed.

Ltac preserves_tac :=
  repeat first
    [ apply preserves_ret | apply preserves_throw | apply preserves_gets
    | apply preserves_DRAKE_DEMAND
    | apply preserves_modify; intros; reflexivity
    | apply preserves_bind; [|intros ?]
    | apply preserves_for_each; intros ? ].

(** The operations of the dependency graph touch nothing but the graph. *)
Lemma CreateNewDependencyTracker_preserves {B} (f : ContextBase -> B)
    (f_graph : forall graph context, f (with_graph graph context) = f context)
    t descr :
  preserves f (CreateNewDependencyTracker t descr).
Proof.
  unfold CreateNewDependencyTracker. preserves_tac.
  apply preserves_modify. intros. apply f_graph.
Qed.

Lemma get_mutable_tracker_preserves {B} (f : ContextBase -> B) t :
  preserves f (get_mutable_tracker t).
Proof. unfold get_mutable_tracker. preserves_tac. Qed.

Lemma SubscribeToPrerequisite_preserves {B} (f : ContextBase -> B)
    (f_graph : forall graph context, f (with_graph graph context) = f context)
    a b :
  preserves f (SubscribeToPrerequisite a b).
Proof.
  unfold SubscribeToPrerequisite. apply preserves_modify. intros. apply f_graph.
Qed.

Lemma subscribe_loop_preserves {B} (f : ContextBase -> B)
    (f_graph : forall graph context, f (with_graph graph context) = f context)
    tracker (prereqs : list DependencyTicket) :
  preserves f (for_each prereqs (fun prereq =>
    let* source := get_mutable_tracker prereq in
    SubscribeToPrerequisite tracker source)).
Proof.
  apply preserves_for_each. intros prereq. apply preserves_bind.
  - apply get_mutable_tracker_preserves.
  - intros source. by apply SubscribeToPrerequisite_preserves.
Qed.

(** ** Context initialization: the cache-entry loop *)

Lemma CreateNewCacheEntryValue_returned index t descr prereqs c ref c' :
  CreateNewCacheEntryValue index t descr prereqs c = (Returned ref, c') ->
  ref = index /\
  ctx_cache c !! index = None /\
  ctx_cache c' =
    <[index := {| value_cache_index := index; value_ticket := t;
                  value_description := descr; value_storage := None;
                  value_is_up_to_date := false;
                  is_cache_entry_disabled := false |}]> (ctx_cache c).
Proof.
  unfold CreateNewCacheEntryValue.
  intros (occupied & c1 & Hocc & H)%bind_returned_inv.
  unfold gets in Hocc. injection Hocc as <- <-.
  apply bind_returned_inv in H as ([] & c2 & Hdemand & H).
  case_bool_decide as Hfree; [discriminate Hdemand|].
  injection Hdemand as <-.
  apply bind_returned_inv in H as ([] & c3 & Hmod & H).
  unfold modify in Hmod. injection Hmod as <-.
  apply bind_returned_inv in H as (tracker & c4 & Hcreate & H).
  apply bind_returned_inv in H as ([] & c5 & Hloop & H).
  unfold ret in H. injection H as <- <-.
  split; [done|]. split.
  { destruct (ctx_cache c !! index) eqn:E; [|done]. exfalso. apply Hfree. eauto. }
  rewrite (preserves_returned ctx_cache _ _ _ _
             (subscribe_loop_preserves ctx_cache (fun _ _ => eq_refl) _ _) Hloop).
  by rewrite (preserves_returned ctx_cache _ _ _ _
                (CreateNewDependencyTracker_preserves ctx_cache
                   (fun _ _ => eq_refl) _ _) Hcreate).
Qed.

Lemma initialize_cache_entry_returned entry c c' :
  initialize_cache_entry entry c = (Returned tt, c') ->
  ctx_cache c !! cache_index entry = None /\
  ctx_cache c' = <[cache_index entry := initial_slot entry]> (ctx_cache c).
Proof.
  unfold initialize_cache_entry.
  intros (ref & c1 & Hcreate & H)%bind_returned_inv.
  apply CreateNewCacheEntryValue_returned in Hcreate as (-> & Hfree & Hcache).
  split; [done|].
  unfold SetInitialValue, disable_caching, initial_slot in *. eff_unfold.
  destruct (is_disabled_by_default entry); injection H as <-; simpl;
    rewrite Hcache, ?alter_insert_eq; reflexivity.
Qed.

(** The loop fills the slot of every entry it visits and keeps the slots that
    were there. *)
Lemma cache_entry_loop_returned (entries : list CacheEntry) c c' :
  for_each entries initialize_cache_entry c = (Returned tt, c') ->
  (forall index slot, ctx_cache c !! index = Some slot ->
                      ctx_cache c' !! index = Some slot) /\
  (forall entry, entry ∈ entries ->
                 ctx_cache c' !! cache_index entry = Some (initial_slot entry)).
Proof.
  revert c. induction entries as [|e entries IH]; intros c H.
  - simpl in H. unfold ret in H. injection H as <-.
    split; [done|]. intros entry Hin. inversion Hin.
  - simpl in H. apply bind_returned_inv in H as ([] & c1 & He & H).
    apply initialize_cache_entry_returned in He as [Hfree Hcache].
    apply IH in H as [Hkeep Hfilled].
    split.
    + intros index slot Hslot. apply Hkeep. rewrite Hcache.
      rewrite lookup_insert_ne; [done|]. intros <-. congruence.
    + intros entry [-> | Hin]%elem_of_cons; [|by apply Hfilled].
      apply Hkeep. rewrite Hcache. apply lookup_insert_eq.
Qed.

Lemma AddOutputPort_preserves_cache index t prerequisite :
  preserves ctx_cache (AddOutputPort index t prerequisite).
Proof.
  unfold AddOutputPort. apply preserves_bind.
  { by apply CreateNewDependencyTracker_preserves. }
  intros yi. apply preserves_bind; [by apply preserves_modify|]. intros _.
  destruct (child_subsystem prerequisite); [apply preserves_ret|].
  apply preserves_bind; [by apply get_mutable_tracker_preserves|].
  intros source. by apply SubscribeToPrerequisite_preserves.
Qed.

(** A run of [InitializeContextBase] that returns: the Context was not
    initialized before, the cache-entry loop ran to its end, and after it
    only the output-port loop and the final flag were left to do. *)
Lemma InitializeContextBase_returned this c c' :
  InitializeContextBase this c = (Returned tt, c') ->
  is_context_base_initialized c = false /\
  is_context_base_initialized c' = true /\
  exists c1 c2,
    for_each (cache_entries_ this) initialize_cache_entry c1 = (Returned tt, c2) /\
    ctx_cache c' = ctx_cache c2.
Proof.
  unfold InitializeContextBase.
  intros (initialized & c0 & Hinit & H)%bind_returned_inv.
  unfold gets in Hinit. injection Hinit as <- <-.
  apply bind_returned_inv in H as ([] & c0 & Hdemand & H).
  destruct (is_context_base_initialized c) eqn:Hflag; [discriminate Hdemand|].
  clear Hdemand.
  apply bind_returned_inv in H as ([] & ca & _ & H).
  apply bind_returned_inv in H as ([] & cb & _ & H).
  apply bind_returned_inv in H as ([] & c1 & _ & H).
  apply bind_returned_inv in H as ([] & c2 & Hcache & H).
  apply bind_returned_inv in H as ([] & c3 & Hout & H).
  unfold mark_context_base_initialized, modify in H. injection H as <-.
  split; [done|]. split; [done|].
  exists c1, c2. split; [done|]. simpl.
  apply (preserves_returned ctx_cache _ _ _ _
           (preserves_for_each ctx_cache _ _
              (fun oport => AddOutputPort_preserves_cache _ _ _)) Hout).
Qed.

(** C10.  After [InitializeContextBase] has returned, the Context's cache
    holds, at the index of every cache entry of the System, a slot that is
    seeded with the value the entry's [Allocate] produced and not yet
    computed, and whose caching is disabled exactly when the entry is
    disabled by default: entries with the flag start disabled, entries
    without it start enabled. *)
Theorem InitializeContextBase_seeds_cache
    (this : SystemBase) (context context' : ContextBase) (entry : CacheEntry) :
  InitializeContextBase this context = (Returned tt, context') ->
  entry ∈ cache_entries_ this ->
  exists slot,
    ctx_cache context' !! cache_index entry = Some slot /\
    value_storage slot = Some (Allocate entry) /\
    value_is_up_to_date slot = false /\
    is_cache_entry_disabled slot = is_disabled_by_default entry.
Proof.
  intros (_ & _ & c1 & c2 & Hloop & Hcache)%InitializeContextBase_returned Hin.
  apply cache_entry_loop_returned in Hloop as [_ Hfilled].
  exists (initial_slot entry). rewrite Hcache. split; [by apply Hfilled|done].
Qed.

(** ** Context initialization: running to completion *)

Lemma for_each_invariant {S A} (I : list A -> S -> Prop)
    (body : A -> Eff S unit) (l : list A) (s : S) :
  (forall x rest s, I (x :: rest) s ->
     exists s', body x s = (Returned tt, s') /\ I rest s') ->
  I l s ->
  exists s', for_each l body s = (Returned tt, s') /\ I [] s'.
Proof.
  intros Hbody. revert s. induction l as [|x l IH]; intros s HI.
  - by exists s.
  - destruct (Hbody x l s HI) as (s1 & Hx & HI1).
    destruct (IH s1 HI1) as (s' & Hl & HI').
    exists s'. split; [|done]. simpl. by rewrite (bind_returned _ _ _ _ _ Hx).
Qed.

Lemma CreateNewDependencyTracker_fresh t descr c :
  t ∉ dom (ctx_graph c) ->
  exists c',
    CreateNewDependencyTracker t descr c = (Returned t, c') /\
    dom (ctx_graph c') = {[t]} ∪ dom (ctx_graph c) /\
    ctx_cache c' = ctx_cache c.
Proof.
  intros Hfresh. unfold CreateNewDependencyTracker, has_tracker. eff_unfold.
  rewrite bool_decide_eq_false_2 by (by rewrite <- elem_of_dom).
  simpl. eexists. split; [reflexivity|]. simpl. by rewrite dom_insert_L.
Qed.

Lemma get_mutable_tracker_present t c :
  t ∈ dom (ctx_graph c) -> get_mutable_tracker t c = (Returned t, c).
Proof.
  intros Hin. unfold get_mutable_tracker, has_tracker. eff_unfold.
  by rewrite bool_decide_eq_true_2 by (by rewrite <- elem_of_dom).
Qed.

Lemma SubscribeToPrerequisite_dom a b c :
  exists c',
    SubscribeToPrerequisite a b c = (Returned tt, c') /\
    dom (ctx_graph c') = dom (ctx_graph c) /\
    ctx_cache c' = ctx_cache c.
Proof.
  eexists. split; [reflexivity|]. simpl. by rewrite dom_alter_L.
Qed.

(** A loop of the initializer that creates one tracker per element: when the
    remaining declarations are wired, it runs to its end, and what follows is
    wired for the trackers that exist by then. *)
Lemma wired_loop {A} (wiring : A -> DependencyTicket * list DependencyTicket)
    (Extra : list A -> ContextBase -> Prop)
    (body : A -> Eff ContextBase unit) (l : list A) later c :
  (forall x rest c,
     fst (wiring x) ∉ dom (ctx_graph c) ->
     (forall r, r ∈ snd (wiring x) -> r ∈ {[fst (wiring x)]} ∪ dom (ctx_graph c)) ->
     Extra (x :: rest) c ->
     exists c', body x c = (Returned tt, c') /\
                dom (ctx_graph c') = {[fst (wiring x)]} ∪ dom (ctx_graph c) /\
                Extra rest c') ->
  trackers_wired (dom (ctx_graph c)) ((wiring <$> l) ++ later) ->
  Extra l c ->
  exists c',
    for_each l body c = (Returned tt, c') /\
    trackers_wired (dom (ctx_graph c')) later /\
    dom (ctx_graph c) ⊆ dom (ctx_graph c') /\
    Extra [] c'.
Proof.
  intros Hbody Hwired Hextra.
  destruct (for_each_invariant
              (fun rest c' =>
                 trackers_wired (dom (ctx_graph c')) ((wiring <$> rest) ++ later) /\
                 dom (ctx_graph c) ⊆ dom (ctx_graph c') /\ Extra rest c')
              body l c) as (c' & Hrun & Hw & Hsub & He).
  - intros x rest c1 (Hw & Hsub & He). simpl in Hw.
    destruct (wiring x) as [t needed] eqn:Hx. destruct Hw as (Hfresh & Hneeded & Hw).
    rewrite Forall_forall in Hneeded.
    pose proof (Hbody x rest c1) as Hb. rewrite Hx in Hb. simpl in Hb.
    destruct (Hb Hfresh Hneeded He) as (c2 & Hrun & Hdom & He2).
    exists c2. split; [done|].
    rewrite Hdom. split; [done|]. split; [|done].
    etrans; [exact Hsub | apply union_subseteq_r].
  - done.
  - by exists c'.
Qed.

Lemma subscribe_loop_succeeds tracker (prereqs : list DependencyTicket) c :
  (forall r, r ∈ prereqs -> r ∈ dom (ctx_graph c)) ->
  exists c',
    for_each prereqs (fun prereq =>
      let* source := get_mutable_tracker prereq in
      SubscribeToPrerequisite tracker source) c = (Returned tt, c') /\
    dom (ctx_graph c') = dom (ctx_graph c).
Proof.
  intros Hpresent.
  destruct (for_each_invariant
              (fun rest c' =>
                 dom (ctx_graph c') = dom (ctx_graph c) /\
                 forall r, r ∈ rest -> r ∈ dom (ctx_graph c))
              (fun prereq =>
                 let* source := get_mutable_tracker prereq in
                 SubscribeToPrerequisite tracker source)
              prereqs c) as (c' & Hrun & Hdom & _).
  - intros r rest c1 [Hdom Hin].
    assert (Hr : r ∈ dom (ctx_graph c1)).
    { rewrite Hdom. apply Hin. apply elem_of_cons. by left. }
    rewrite (bind_returned _ _ _ _ _ (get_mutable_tracker_present r c1 Hr)).
    destruct (SubscribeToPrerequisite_dom tracker r c1) as (c2 & -> & Hd & _).
    exists c2. split; [done|]. split; [congruence|].
    intros r' Hr'. apply Hin. apply elem_of_cons. by right.
  - done.
  - by exists c'.
Qed.

Lemma make_trackers_succeeds subscriber_ticket infos add later c :
  (forall t c, exists c', add t c = (Returned tt, c') /\
                          ctx_graph c' = ctx_graph c) ->
  subscriber_ticket ∈ dom (ctx_graph c) ->
  trackers_wired (dom (ctx_graph c)) ((source_wiring <$> infos) ++ later) ->
  exists c',
    make_trackers subscriber_ticket infos add c = (Returned tt, c') /\
    trackers_wired (dom (ctx_graph c')) later /\
    dom (ctx_graph c) ⊆ dom (ctx_graph c').
Proof.
  intros Hadd Hsub Hwired. unfold make_trackers.
  rewrite (bind_returned _ _ _ _ _ (get_mutable_tracker_present _ _ Hsub)).
  destruct (wired_loop source_wiring (fun _ _ => True)
              (fun info =>
                 let* source_tracker :=
                   CreateNewDependencyTracker (info_ticket info)
                     (info_description info) in
                 add (info_ticket info) ;;;
                 SubscribeToPrerequisite subscriber_ticket source_tracker)
              infos later c) as (c' & Hrun & Hw & Hd & _); [|done|done|by exists c'].
  intros info rest c1 Hfresh _ _. simpl in Hfresh.
  destruct (CreateNewDependencyTracker_fresh (info_ticket info)
              (info_description info) c1 Hfresh) as (c2 & Hc & Hd2 & _).
  rewrite (bind_returned _ _ _ _ _ Hc).
  destruct (Hadd (info_ticket info) c2) as (c3 & Ha & Hg3).
  rewrite (bind_returned _ _ _ _ _ Ha).
  destruct (SubscribeToPrerequisite_dom subscriber_ticket (info_ticket info) c3)
    as (c4 & -> & Hd4 & _).
  exists c4. split; [done|]. split; [|done].
  simpl. by rewrite Hd4, Hg3, Hd2.
Qed.

Lemma AddInputPort_succeeds index t checker c :
  t ∉ dom (ctx_graph c) ->
  all_input_ports_ticket builtin ∈ dom (ctx_graph c) ->
  exists c',
    AddInputPort index t checker c = (Returned tt, c') /\
    dom (ctx_graph c') = {[t]} ∪ dom (ctx_graph c).
Proof.
  intros Hfresh Hall. unfold AddInputPort.
  destruct (CreateNewDependencyTracker_fresh t ("u_" +:+ pretty index) c Hfresh)
    as (c1 & Hc & Hd1 & _).
  rewrite (bind_returned _ _ _ _ _ Hc).
  unfold bind at 1, modify at 1.
  assert (Hall' : all_input_ports_ticket builtin
                    ∈ dom (ctx_graph (push_input_port t checker c1))).
  { simpl. rewrite Hd1. by apply elem_of_union_r. }
  rewrite (bind_returned _ _ _ _ _ (get_mutable_tracker_present _ _ Hall')).
  destruct (SubscribeToPrerequisite_dom (all_input_ports_ticket builtin) t
              (push_input_port t checker c1)) as (c2 & -> & Hd2 & _).
  exists c2. split; [done|]. by rewrite Hd2.
Qed.

Lemma AddOutputPort_succeeds index t prerequisite c :
  t ∉ dom (ctx_graph c) ->
  (child_subsystem prerequisite = None ->
   dependency prerequisite ∈ {[t]} ∪ dom (ctx_graph c)) ->
  exists c',
    AddOutputPort index t prerequisite c = (Returned tt, c') /\
    dom (ctx_graph c') = {[t]} ∪ dom (ctx_graph c).
Proof.
  intros Hfresh Hdep. unfold AddOutputPort.
  destruct (CreateNewDependencyTracker_fresh t ("y_" +:+ pretty index) c Hfresh)
    as (c1 & Hc & Hd1 & _).
  rewrite (bind_returned _ _ _ _ _ Hc).
  unfold bind at 1, modify at 1.
  destruct (child_subsystem prerequisite) as [child|].
  - eexists. split; [reflexivity|]. done.
  - assert (Hdep' : dependency prerequisite
                      ∈ dom (ctx_graph (push_output_port_ticket t c1))).
    { simpl. rewrite Hd1. by apply Hdep. }
    rewrite (bind_returned _ _ _ _ _ (get_mutable_tracker_present _ _ Hdep')).
    destruct (SubscribeToPrerequisite_dom t (dependency prerequisite)
                (push_output_port_ticket t c1)) as (c2 & -> & Hd2 & _).
    exists c2. split; [done|]. by rewrite Hd2.
Qed.

Lemma CreateNewCacheEntryValue_succeeds index t descr prereqs c :
  t ∉ dom (ctx_graph c) ->
  (forall r, r ∈ elements prereqs -> r ∈ {[t]} ∪ dom (ctx_graph c)) ->
  ctx_cache c !! index = None ->
  exists c',
    CreateNewCacheEntryValue index t descr prereqs c = (Returned index, c') /\
    dom (ctx_graph c') = {[t]} ∪ dom (ctx_graph c).
Proof.
  intros Hfresh Hneeded Hfree. unfold CreateNewCacheEntryValue.
  rewrite (bind_returned (gets _) _ c _ c eq_refl).
  rewrite Hfree, bool_decide_eq_false_2 by (by intros [? ?]).
  cbn [negb].
  rewrite (bind_returned (DRAKE_DEMAND true _) _ c tt c eq_refl).
  rewrite (bind_returned (modify _) _ c tt _ eq_refl).
  set (c1 := with_cache _ c).
  destruct (CreateNewDependencyTracker_fresh t ("cache " +:+ descr) c1 Hfresh)
    as (c2 & Hc & Hd2 & _).
  rewrite (bind_returned _ _ _ _ _ Hc).
  destruct (subscribe_loop_succeeds t (elements prereqs) c2) as (c3 & Hloop & Hd3).
  { intros r Hr. rewrite Hd2. by apply Hneeded. }
  rewrite (bind_returned _ _ _ _ _ Hloop).
  exists c3. split; [done|]. by rewrite Hd3, Hd2.
Qed.

Lemma initialize_cache_entry_succeeds entry c :
  ticket entry ∉ dom (ctx_graph c) ->
  (forall r, r ∈ elements (prerequisites entry) ->
             r ∈ {[ticket entry]} ∪ dom (ctx_graph c)) ->
  ctx_cache c !! cache_index entry = None ->
  exists c',
    initialize_cache_entry entry c = (Returned tt, c') /\
    dom (ctx_graph c') = {[ticket entry]} ∪ dom (ctx_graph c).
Proof.
  intros Hfresh Hneeded Hfree. unfold initialize_cache_entry.
  destruct (CreateNewCacheEntryValue_succeeds (cache_index entry) (ticket entry)
              (description entry) (prerequisites entry) c Hfresh Hneeded Hfree)
    as (c1 & Hc & Hd1).
  rewrite (bind_returned _ _ _ _ _ Hc).
  unfold SetInitialValue, disable_caching. eff_unfold.
  destruct (is_disabled_by_default entry);
    (eexists; split; [reflexivity|]; simpl; by rewrite Hd1).
Qed.

Lemma AddInputPort_preserves_cache index t checker :
  preserves ctx_cache (AddInputPort index t checker).
Proof.
  unfold AddInputPort. apply preserves_bind.
  { by apply CreateNewDependencyTracker_preserves. }
  intros ui. apply preserves_bind; [by apply preserves_modify|]. intros _.
  apply preserves_bind; [by apply get_mutable_tracker_preserves|].
  intros all_u. by apply SubscribeToPrerequisite_preserves.
Qed.

Lemma make_trackers_preserves_cache subscriber_ticket infos add :
  (forall t, preserves ctx_cache (add t)) ->
  preserves ctx_cache (make_trackers subscriber_ticket infos add).
Proof.
  intros Hadd. unfold make_trackers. apply preserves_bind.
  { by apply get_mutable_tracker_preserves. }
  intros subscriber. apply preserves_for_each. intros info.
  apply preserves_bind; [by apply CreateNewDependencyTracker_preserves|].
  intros source. apply preserves_bind; [apply Hadd|]. intros _.
  by apply SubscribeToPrerequisite_preserves.
Qed.

Lemma CreateSourceTrackers_preserves_cache this :
  preserves ctx_cache (CreateSourceTrackers this).
Proof.
  unfold CreateSourceTrackers.
  repeat (apply preserves_bind;
          [apply make_trackers_preserves_cache; intros t;
           by apply preserves_modify | intros _]).
  apply preserves_for_each. intros iport. apply AddInputPort_preserves_cache.
Qed.

Lemma builtin_trackers_present c :
  builtin_trackers ⊆ dom (ctx_graph c) ->
  xd_ticket builtin ∈ dom (ctx_graph c) /\
  xa_ticket builtin ∈ dom (ctx_graph c) /\
  pn_ticket builtin ∈ dom (ctx_graph c) /\
  pa_ticket builtin ∈ dom (ctx_graph c) /\
  all_input_ports_ticket builtin ∈ dom (ctx_graph c).
Proof.
  clear path_separator FNV1a_key.
  unfold builtin_trackers. intros H. repeat split; apply H; set_solver.
Qed.

Lemma CreateSourceTrackers_succeeds this later c :
  builtin_trackers ⊆ dom (ctx_graph c) ->
  trackers_wired (dom (ctx_graph c))
    ((source_wiring <$> discrete_state_tickets_ this) ++
     (source_wiring <$> abstract_state_tickets_ this) ++
     (source_wiring <$> numeric_parameter_tickets_ this) ++
     (source_wiring <$> abstract_parameter_tickets_ this) ++
     (input_port_wiring <$> input_ports_ this) ++ later) ->
  exists c',
    CreateSourceTrackers this c = (Returned tt, c') /\
    trackers_wired (dom (ctx_graph c')) later /\
    dom (ctx_graph c) ⊆ dom (ctx_graph c').
Proof.
  intros Hbuiltin Hwired. unfold CreateSourceTrackers.
  assert (Hadd : forall push,
            (forall t c, ctx_graph (push t c) = ctx_graph c) ->
            forall (t : DependencyTicket) (c : ContextBase),
              exists c', modify (push t) c = (Returned tt, c') /\
                         ctx_graph c' = ctx_graph c).
  { intros push Hpush t c0. eexists. split; [reflexivity|]. apply Hpush. }
  destruct (builtin_trackers_present c Hbuiltin) as (Hxd & Hxa & Hpn & Hpa & Hu).
  destruct (make_trackers_succeeds (xd_ticket builtin)
              (discrete_state_tickets_ this) AddDiscreteStateTicket _ c
              (Hadd push_discrete_state_ticket (fun _ _ => eq_refl)) Hxd Hwired)
    as (c1 & H1 & Hw1 & Hs1).
  rewrite (bind_returned _ _ _ _ _ H1).
  destruct (make_trackers_succeeds (xa_ticket builtin)
              (abstract_state_tickets_ this) AddAbstractStateTicket _ c1
              (Hadd push_abstract_state_ticket (fun _ _ => eq_refl))
              (Hs1 _ Hxa) Hw1)
    as (c2 & H2 & Hw2 & Hs2).
  rewrite (bind_returned _ _ _ _ _ H2).
  destruct (make_trackers_succeeds (pn_ticket builtin)
              (numeric_parameter_tickets_ this) AddNumericParameterTicket _ c2
              (Hadd push_numeric_parameter_ticket (fun _ _ => eq_refl))
              (Hs2 _ (Hs1 _ Hpn)) Hw2)
    as (c3 & H3 & Hw3 & Hs3).
  rewrite (bind_returned _ _ _ _ _ H3).
  destruct (make_trackers_succeeds (pa_ticket builtin)
              (abstract_parameter_tickets_ this) AddAbstractParameterTicket _ c3
              (Hadd push_abstract_parameter_ticket (fun _ _ => eq_refl))
              (Hs3 _ (Hs2 _ (Hs1 _ Hpa))) Hw3)
    as (c4 & H4 & Hw4 & Hs4).
  rewrite (bind_returned _ _ _ _ _ H4).
  destruct (wired_loop input_port_wiring
              (fun _ c' => all_input_ports_ticket builtin ∈ dom (ctx_graph c'))
              (fun iport =>
                 AddInputPort (get_index (input_base iport))
                   (port_ticket (input_base iport))
                   (MakeFixInputPortTypeChecker this (get_index (input_base iport))))
              (input_ports_ this) later c4) as (c5 & H5 & Hw5 & Hs5 & _).
  - intros iport rest c0 Hfresh _ Hall. simpl in Hfresh.
    destruct (AddInputPort_succeeds (get_index (input_base iport))
                (port_ticket (input_base iport))
                (MakeFixInputPortTypeChecker this (get_index (input_base iport)))
                c0 Hfresh Hall) as (c0' & Hrun & Hd).
    exists c0'. split; [done|]. split; [done|].
    rewrite Hd. by apply elem_of_union_r.
  - exact Hw4.
  - by apply Hs4, Hs3, Hs2, Hs1.
  - exists c5. split; [done|]. split; [done|].
    by repeat (etrans; [eassumption|]).
Qed.

Lemma cache_entry_loop_succeeds (entries : list CacheEntry) later c :
  trackers_wired (dom (ctx_graph c)) ((cache_entry_wiring <$> entries) ++ later) ->
  NoDup (cache_index <$> entries) ->
  (forall entry, entry ∈ entries -> ctx_cache c !! cache_index entry = None) ->
  exists c',
    for_each entries initialize_cache_entry c = (Returned tt, c') /\
    trackers_wired (dom (ctx_graph c')) later.
Proof.
  intros Hwired Hnodup Hfree.
  destruct (wired_loop cache_entry_wiring
              (fun rest c' =>
                 NoDup (cache_index <$> rest) /\
                 forall entry, entry ∈ rest ->
                               ctx_cache c' !! cache_index entry = None)
              initialize_cache_entry entries later c)
    as (c' & Hrun & Hw & _ & _); [|done|done|by exists c'].
  intros entry rest c1 Hfresh Hneeded [Hnd Hfr]. simpl in Hfresh, Hneeded.
  rewrite fmap_cons in Hnd. apply NoDup_cons in Hnd as [Hnotin Hnd].
  destruct (initialize_cache_entry_succeeds entry c1 Hfresh Hneeded)
    as (c2 & Hrun & Hdom).
  { apply Hfr. apply elem_of_cons. by left. }
  exists c2. split; [done|]. split; [done|]. split; [done|].
  intros entry' Hin'.
  apply initialize_cache_entry_returned in Hrun as [_ ->].
  rewrite lookup_insert_ne.
  - apply Hfr. apply elem_of_cons. by right.
  - intros Heq. apply Hnotin. rewrite Heq.
    apply list_elem_of_fmap. by exists entry'.
Qed.

Lemma output_port_loop_succeeds (ports : list OutputPortBase) c :
  trackers_wired (dom (ctx_graph c)) ((output_port_wiring <$> ports) ++ []) ->
  exists c',
    for_each ports (fun oport =>
      AddOutputPort (get_index (output_base oport))
        (port_ticket (output_base oport)) (GetPrerequisite oport)) c
      = (Returned tt, c').
Proof.
  intros Hwired.
  destruct (wired_loop output_port_wiring (fun _ _ => True)
              (fun oport =>
                 AddOutputPort (get_index (output_base oport))
                   (port_ticket (output_base oport)) (GetPrerequisite oport))
              ports [] c) as (c' & Hrun & _); [|done|done|by exists c'].
  intros oport rest c1 Hfresh Hneeded _.
  unfold output_port_wiring in Hfresh, Hneeded. simpl in Hfresh, Hneeded.
  destruct (AddOutputPort_succeeds (get_index (output_base oport))
              (port_ticket (output_base oport)) (GetPrerequisite oport) c1 Hfresh)
    as (c2 & Hrun & Hdom).
  { intros Hnone. apply Hneeded. rewrite Hnone. apply list_elem_of_here. }
  by exists c2.
Qed.

(** On a Context that is fresh for the System, [InitializeContextBase] runs
    to its end. *)
Lemma InitializeContextBase_succeeds this c :
  fresh_context_for this c ->
  exists c', InitializeContextBase this c = (Returned tt, c').
Proof.
  intros (Hflag & Hbuiltin & Hwired & Hnodup & Hfree).
  rewrite Forall_forall in Hfree.
  unfold InitializeContextBase.
  rewrite (bind_returned (gets _) _ c _ c eq_refl), Hflag. cbn [negb].
  rewrite (bind_returned (DRAKE_DEMAND true _) _ c tt c eq_refl).
  rewrite (bind_returned (set_system_name _) _ c tt _ eq_refl).
  rewrite (bind_returned (set_system_id _) _ _ tt _ eq_refl).
  set (c0 := with_system_id _ _).
  unfold declared_trackers in Hwired.
  destruct (CreateSourceTrackers_succeeds this _ c0 Hbuiltin Hwired)
    as (c1 & Hsources & Hw1 & _).
  rewrite (bind_returned _ _ _ _ _ Hsources).
  destruct (cache_entry_loop_succeeds (cache_entries_ this) _ c1 Hw1 Hnodup)
    as (c2 & Hcache & Hw2).
  { intros entry Hin.
    rewrite (preserves_returned ctx_cache _ _ _ _
               (CreateSourceTrackers_preserves_cache this) Hsources).
    by apply Hfree. }
  rewrite (bind_returned _ _ _ _ _ Hcache).
  rewrite <- (app_nil_r (output_port_wiring <$> output_ports_ this)) in Hw2.
  destruct (output_port_loop_succeeds (output_ports_ this) c2 Hw2)
    as (c3 & Hout).
  rewrite (bind_returned _ _ _ _ _ Hout).
  by eexists.
Qed.

(** C4.  Called on a Context that is already initialized,
    [InitializeContextBase] fails its demand (a PreconditionViolation) and
    the Context is what it was.  Called on a Context that is fresh for the
    System, it runs to its end.  Whenever it returns, the Context is marked
    initialized, so calling it again on the Context it produced fails and
    changes nothing. *)
Theorem InitializeContextBase_once
    (this : SystemBase) (context : ContextBase) :
  (is_context_base_initialized context = true ->
   exists e, PreconditionViolation e /\
             InitializeContextBase this context = (Thrown e, context)) /\
  (fresh_context_for this context ->
   exists context', InitializeContextBase this context = (Returned tt, context')) /\
  (forall context',
     InitializeContextBase this context = (Returned tt, context') ->
     is_context_base_initialized context' = true /\
     forall again : SystemBase,
       exists e, PreconditionViolation e /\
                 InitializeContextBase again context' = (Thrown e, context')).
Proof.
  assert (Hguard : forall sys c,
            is_context_base_initialized c = true ->
            exists e, PreconditionViolation e /\
                      InitializeContextBase sys c = (Thrown e, c)).
  { intros sys c Hflag. unfold InitializeContextBase.
    rewrite (bind_returned (gets _) _ c _ c eq_refl), Hflag. cbn [negb].
    eexists. split; [|reflexivity]. done. }
  split; [apply Hguard|]. split; [apply InitializeContextBase_succeeds|].
  intros context' (_ & Hflag & _)%InitializeContextBase_returned.
  split; [done|]. intros again. by apply Hguard.
Qed.

(** * Further properties of system_base.cc *)

(** ** WarnPortDeprecation: arguments, repeated calls, what is written *)


Lemma string_app_empty_r (a : string) : a +:+ "" = a.
Proof.
  induction a as [|ch a IH]; [done|].
  change (String ch (a +:+ EmptyString) = String ch a). by rewrite IH.
Qed.

Lemma names_itself (part : string) : names part part.
Proof. exists "", "". symmetry. apply string_app_empty_r. Qed.

Ltac locate_name :=
  first [ apply names_here | apply names_itself
        | apply names_later; locate_name ].

Lemma ports_of_store_already_warned (is_input : bool) (i : nat) (flag : bool)
    (this : SystemBase) :
  ports_of is_input (store_already_warned is_input i flag this)
  = alter (set_already_warned flag) i (ports_of is_input this).
Proof.
  unfold ports_of, store_already_warned.
  destruct is_input; simpl; apply list_fmap_alter, Forall_forall; by intros.
Qed.

Lemma store_already_warned_twice (is_input : bool) (i : nat) (flag : bool)
    (this : SystemBase) :
  store_already_warned is_input i flag (store_already_warned is_input i flag this)
  = store_already_warned is_input i flag this.
Proof.
  unfold store_already_warned.
  destruct is_input; simpl; unfold set_input_ports, set_output_ports; simpl;
    f_equal; rewrite list_alter_alter_eq; by apply list_alter_ext.
Qed.

(** [WarnPortDeprecation] called again on the state it left behind. *)
Lemma WarnPortDeprecation_again (is_input : bool) (i : nat) (port : PortBase)
    (this : SystemBase) (process : Process) :
  ports_of is_input this !! i = Some port ->
  is_Some (get_deprecation port) ->
  forall process',
    WarnPortDeprecation is_input (Z.of_nat i)
      (store_already_warned is_input i true this, process')
    = (Returned tt, (store_already_warned is_input i true this, process')).
Proof.
  intros Hport Hdep process'.
  rewrite (WarnPortDeprecation_returns is_input i
             (set_already_warned true port)).
  - by rewrite store_already_warned_twice.
  - by rewrite ports_of_store_already_warned, list_lookup_alter_eq, Hport.
  - done.
Qed.

(** The arguments are checked before anything is written.  An index that is
    negative or past the last port of the direction makes
    [std::vector::at] throw [std::out_of_range]; a port that carries no
    deprecation fails the demand.  In both cases the port's flag, the set of
    keys and the log are what they were. *)
Theorem WarnPortDeprecation_checks_its_arguments
    (is_input : bool) (port_index : Z) (this : SystemBase) (process : Process) :
  ((port_index < 0 \/
    Z.of_nat (length (ports_of is_input this)) <= port_index)%Z ->
   exists what,
     WarnPortDeprecation is_input port_index (this, process)
       = (Thrown (std_out_of_range what), (this, process))) /\
  (forall port,
     (0 <= port_index)%Z ->
     ports_of is_input this !! Z.to_nat port_index = Some port ->
     get_deprecation port = None ->
     exists condition,
       WarnPortDeprecation is_input port_index (this, process)
         = (Thrown (drake_demand_failed condition), (this, process))).
Proof.
  split.
  - intros Hrange. unfold WarnPortDeprecation, vector_at. eff_unfold.
    cbn [fst snd].
    case_bool_decide as Hpos; [|by eexists].
    rewrite lookup_ge_None_2 by lia. by eexists.
  - intros port Hpos Hport Hdep.
    unfold WarnPortDeprecation, vector_at. eff_unfold. cbn [fst snd].
    rewrite bool_decide_eq_true_2 by done. rewrite Hport, Hdep.
    rewrite bool_decide_eq_false_2 by (by intros [? ?]). by eexists.
Qed.

(** A call for a deprecated port returns, and a second call through the same
    System object returns without writing anything: the port's flag is set
    already, so neither the set of keys nor the log is touched. *)
Theorem WarnPortDeprecation_second_call_is_silent
    (is_input : bool) (i : nat) (port : PortBase)
    (this : SystemBase) (process : Process) :
  ports_of is_input this !! i = Some port ->
  is_Some (get_deprecation port) ->
  exists state,
    WarnPortDeprecation is_input (Z.of_nat i) (this, process)
      = (Returned tt, state) /\
    WarnPortDeprecation is_input (Z.of_nat i) state = (Returned tt, state).
Proof.
  intros Hport Hdep.
  rewrite (WarnPortDeprecation_returns is_input i port this process Hport Hdep).
  eexists. split; [reflexivity|].
  by apply (WarnPortDeprecation_again is_input i port this process).
Qed.

(** Whatever its arguments and however it ends, a call changes the System
    in at most the flag of the port it was called for, never removes a key
    from [g_warned_hash], and either leaves the log alone or appends one
    warning whose key was not in the set and now is. *)
Theorem WarnPortDeprecation_writes_flag_key_and_log_only
    (is_input : bool) (port_index : Z) (this : SystemBase) (process : Process) :
  let after := snd (WarnPortDeprecation is_input port_index (this, process)) in
  (fst after = this \/
   fst after = store_already_warned is_input (Z.to_nat port_index) true this) /\
  g_warned_hash process ⊆ g_warned_hash (snd after) /\
  (snd after = process \/
   exists w,
     drake_log (snd after) = drake_log process ++ [w] /\
     (warning_key w ∉ g_warned_hash process) /\
     g_warned_hash (snd after) = {[warning_key w]} ∪ g_warned_hash process).
Proof.
  cbv zeta. split.
  - destruct (decide (0 <= port_index)%Z) as [Hpos|Hneg]; cycle 1.
    { left. unfold WarnPortDeprecation, vector_at. eff_unfold. cbn [fst snd].
      by rewrite bool_decide_eq_false_2. }
    destruct (ports_of is_input this !! Z.to_nat port_index) as [port|]
      eqn:Hport; cycle 1.
    { left. unfold WarnPortDeprecation, vector_at. eff_unfold. cbn [fst snd].
      rewrite bool_decide_eq_true_2 by done. by rewrite Hport. }
    destruct (decide (is_Some (get_deprecation port))) as [Hdep|Hdep]; cycle 1.
    { left. unfold WarnPortDeprecation, vector_at. eff_unfold. cbn [fst snd].
      rewrite bool_decide_eq_true_2 by done. rewrite Hport.
      by rewrite bool_decide_eq_false_2. }
    right.
    pose proof (WarnPortDeprecation_returns is_input (Z.to_nat port_index) port
                  this process Hport Hdep) as Hrun.
    rewrite (Z2Nat.id port_index Hpos) in Hrun. by rewrite Hrun.
  - destruct (WarnPortDeprecation_process is_input port_index this process)
      as [-> | (port & _ & _ & Hfresh & ->)].
    + split; [done | by left].
    + split; [apply union_subseteq_r|]. right.
      by exists (deprecation_warning this is_input port).
Qed.


(** ** EvalAbstractInputImpl: the connected port, and evaluating again *)


Lemma EvalAbstractInputImpl_local
    (func : string) (context : ContextBase) (port_index : InputPortIndex)
    (port : InputPortBase) (this : SystemBase) (process : Process) :
  input_ports_ this !! port_index = Some port ->
  is_Some (MaybeGetFixedInputPortValue context port_index) \/
    get_parent_service this = None \/ is_root_context context = true ->
  EvalAbstractInputImpl func context port_index (this, process)
    = (Returned (get_value <$> MaybeGetFixedInputPortValue context port_index),
       snd (warn_if_deprecated port port_index (this, process))).
Proof.
  intros Hport Hlocal.
  destruct (warn_if_deprecated_returns port port_index this process Hport)
    as (state' & Hwarn).
  unfold EvalAbstractInputImpl.
  unfold bind at 1, gets at 1. simpl. rewrite Hport.
  rewrite (bind_returned _ _ _ _ _ Hwarn). rewrite Hwarn.
  destruct (MaybeGetFixedInputPortValue context port_index) as [fixed|];
    [done|].
  destruct Hlocal as [[? [=]] | [-> | Hroot]]; [done|].
  destruct (get_parent_service this); [|done].
  unfold is_root_context in Hroot. apply bool_decide_eq_true in Hroot.
  unfold get_parent_base. by rewrite Hroot.
Qed.

(** Evaluating a port twice.  When the port is fixed, or the System has no
    parent service, or the Context is a root Context, the first evaluation
    returns; evaluating again from the state it left returns the same
    result and changes nothing.  If the port is not deprecated, the first
    evaluation changes nothing either. *)
Theorem EvalAbstractInputImpl_evaluated_again
    (func : string) (context : ContextBase) (port_index : InputPortIndex)
    (port : InputPortBase) (this : SystemBase) (process : Process) :
  input_ports_ this !! port_index = Some port ->
  is_Some (MaybeGetFixedInputPortValue context port_index) \/
    get_parent_service this = None \/ is_root_context context = true ->
  exists result state,
    EvalAbstractInputImpl func context port_index (this, process)
      = (Returned result, state) /\
    EvalAbstractInputImpl func context port_index state
      = (Returned result, state) /\
    (get_deprecation (input_base port) = None -> state = (this, process)).
Proof.
  intros Hport Hlocal.
  pose proof (EvalAbstractInputImpl_local func context port_index port this
                process Hport Hlocal) as Hfirst.
  destruct (decide (is_Some (get_deprecation (input_base port))))
    as [Hdep|Hdep].
  - pose proof (ports_of_input_lookup this port_index port Hport) as Hbase.
    unfold warn_if_deprecated in Hfirst.
    rewrite (bool_decide_eq_true_2 _ Hdep) in Hfirst.
    rewrite (WarnPortDeprecation_returns true port_index (input_base port)
               this process Hbase Hdep) in Hfirst.
    cbn [snd] in Hfirst.
    eexists _, _. split; [exact Hfirst|].
    split; [|intros Hnone; rewrite Hnone in Hdep; by destruct Hdep].
    set (this' := store_already_warned true port_index true this).
    set (process' := after_warning this true (input_base port) process).
    assert (Hport' : input_ports_ this' !! port_index
                     = Some {| input_base :=
                                 set_already_warned true (input_base port) |}).
    { unfold this'. simpl. by rewrite list_lookup_alter_eq, Hport. }
    rewrite (EvalAbstractInputImpl_local func context port_index _ this'
               process' Hport').
    + unfold warn_if_deprecated. rewrite bool_decide_eq_true_2 by done.
      unfold this'.
      by rewrite (WarnPortDeprecation_again true port_index (input_base port)
                    this process Hbase Hdep).
    + destruct Hlocal as [H | [H | H]]; auto.
  - unfold warn_if_deprecated in Hfirst.
    rewrite (bool_decide_eq_false_2 _ Hdep) in Hfirst. cbn [snd ret] in Hfirst.
    eexists _, _. split; [exact Hfirst|]. split; [exact Hfirst|done].
Qed.

(** ** The diagnostics *)

(** The helpers that report a misuse never return and write nothing, whatever
    they are called with.  [ThrowNegativePortIndex] called with an index
    that is not negative fails its own demand instead of reporting the
    index.  The two range complaints are [std::out_of_range], and the one
    for output ports gives the index, the number of output ports the System
    has and the System's pathname.  The static wrong-type complaint and
    [ThrowNotCreatedForThisSystemImpl] are [std::logic_error]; the former
    gives the pathname, the port name and the two types it was handed. *)
Theorem SystemBase_diagnostics_never_return {S A} (this : SystemBase)
    (func : string) (int_index : Z) (port : nat)
    (pathname port_name expected_type actual_type nice_type_name : string)
    (id : SystemId) (s : S) :
  (exists e, ThrowNegativePortIndex (A:=A) this func int_index s
             = (Thrown e, s)) /\
  ((0 <= int_index)%Z ->
   exists condition,
     ThrowNegativePortIndex (A:=A) this func int_index s
       = (Thrown (drake_demand_failed condition), s)) /\
  (exists msg, ThrowInputPortIndexOutOfRange (A:=A) this func port s
               = (Thrown (std_out_of_range msg), s)) /\
  (exists msg,
     ThrowOutputPortIndexOutOfRange (A:=A) this func port s
       = (Thrown (std_out_of_range msg), s) /\
     names (pretty port) msg /\
     names (pretty (num_output_ports this)) msg /\
     names (GetSystemPathname this) msg) /\
  (exists msg,
     ThrowInputPortHasWrongType_static (A:=A) func pathname port port_name
       expected_type actual_type s = (Thrown (std_logic_error msg), s) /\
     names pathname msg /\ names port_name msg /\
     names expected_type msg /\ names actual_type msg) /\
  (exists msg,
     ThrowNotCreatedForThisSystemImpl (A:=A) this nice_type_name id s
       = (Thrown (std_logic_error msg), s)).
Proof.
  unfold ThrowNegativePortIndex, ThrowInputPortIndexOutOfRange,
    ThrowOutputPortIndexOutOfRange, ThrowInputPortHasWrongType_static,
    ThrowNotCreatedForThisSystemImpl.
  eff_unfold.
  split; [case_bool_decide; by eexists|].
  split; [intros Hpos; rewrite bool_decide_eq_false_2 by lia; by eexists|].
  split; [by eexists|].
  split.
  { eexists. split; [reflexivity|]. do 2 (split; [find_name|]). find_name. }
  split.
  { eexists. split; [reflexivity|]. do 3 (split; [find_name|]). find_name. }
  destruct (is_valid id); by eexists.
Qed.

(** For a declared input port, the three complaints about the port
    ([ThrowNotAVectorInputPort], [ThrowInputPortHasWrongType],
    [ThrowCantEvaluateInputPort]) are logic errors, not range errors, and
    each message gives the port's declared name, its index and the System's
    pathname; the wrong-type message also gives the expected and the actual
    type, and is the one the static overload builds from the pathname and
    the port name. *)
Theorem input_port_complaints_name_the_port {S A} (this : SystemBase)
    (func : string) (port_index : InputPortIndex) (port : InputPortBase)
    (expected_type actual_type : string) (s : S) :
  input_ports_ this !! port_index = Some port ->
  (exists msg,
     ThrowNotAVectorInputPort (A:=A) this func port_index s
       = (Thrown (std_logic_error msg), s) /\
     names (get_name (input_base port)) msg /\
     names (pretty port_index) msg /\
     names (GetSystemPathname this) msg) /\
  (exists msg,
     ThrowInputPortHasWrongType (A:=A) this func port_index expected_type
       actual_type s = (Thrown (std_logic_error msg), s) /\
     ThrowInputPortHasWrongType_static (A:=A) func (GetSystemPathname this)
       port_index (get_name (input_base port)) expected_type actual_type s
       = (Thrown (std_logic_error msg), s) /\
     names (get_name (input_base port)) msg /\
     names (pretty port_index) msg /\
     names (GetSystemPathname this) msg /\
     names expected_type msg /\
     names actual_type msg) /\
  (exists msg,
     ThrowCantEvaluateInputPort (A:=A) this func port_index s
       = (Thrown (std_logic_error msg), s) /\
     names (get_name (input_base port)) msg /\
     names (pretty port_index) msg /\
     names (GetSystemPathname this) msg).
Proof.
  intros Hport.
  unfold ThrowNotAVectorInputPort, ThrowInputPortHasWrongType,
    ThrowInputPortHasWrongType_static, ThrowCantEvaluateInputPort,
    get_input_port_base.
  rewrite Hport. eff_unfold.
  split; [|split]; eexists; (split; [reflexivity|]).
  - split; [find_name|]. split; find_name.
  - split; [reflexivity|]. do 4 (split; [find_name|]). find_name.
  - split; [find_name|]. split; find_name.
Qed.

(** [ThrowNotCreatedForThisSystemImpl] raises a logic error that gives the
    type of the offending object, the System's type and its pathname.  For
    an object that carries no System id the text says it was not associated
    with any System. *)
Theorem ThrowNotCreatedForThisSystemImpl_message {S A} (this : SystemBase)
    (nice_type_name : string) (id : SystemId) (s : S) :
  exists msg,
    ThrowNotCreatedForThisSystemImpl (A:=A) this nice_type_name id s
      = (Thrown (std_logic_error msg), s) /\
    names nice_type_name msg /\
    names (GetSystemType this) msg /\
    names (GetSystemPathname this) msg /\
    (is_valid id = false ->
     names "was not associated with any System" msg) /\
    (is_valid id = true ->
     msg = nice_type_name +:+ " was not created for " +:+
           GetSystemType this +:+ " System " +:+ GetSystemPathname this).
Proof.
  unfold ThrowNotCreatedForThisSystemImpl, throw.
  destruct (is_valid id); cbn [negb];
    (eexists; split; [reflexivity|]);
    (split; [locate_name|]); (split; [locate_name|]);
    (split; [locate_name|]); (split; [|done]); intros Hvalid; [done|].
  exists (nice_type_name +:+ " "),
         (" but should have been created for " +:+ GetSystemType this +:+
          " System " +:+ GetSystemPathname this).
  by rewrite !string_app_assoc.
Qed.

(** ** The walk to the root Context *)

(** Induction along the parent pointers of a Context. *)
Lemma ContextBase_parent_ind (P : ContextBase -> Prop) :
  (forall c, ctx_parent c = None -> P c) ->
  (forall c parent, ctx_parent c = Some parent -> P parent -> P c) ->
  forall c, P c.
Proof.
  intros Hroot Hstep. fix IH 1. intros c.
  destruct c as [name id [parent|] flag graph cache it iv ic ot xd xa pn pa].
  - apply (Hstep _ parent); [reflexivity | apply IH].
  - by apply Hroot.
Qed.

Lemma context_depth_root (c : ContextBase) :
  context_depth (root_context_of c) = 0.
Proof.
  induction c as [c Hc | c parent Hc IH] using ContextBase_parent_ind.
  - destruct c; simpl in *. by rewrite Hc.
  - destruct c; simpl in *. rewrite Hc. exact IH.
Qed.

(** The loop in [ThrowValidateContextMismatch] ends at a root Context.  From
    a root Context it returns that Context; from a subcontext it returns
    what it returns from the parent, which is never the subcontext itself. *)
Theorem root_context_of_finds_the_root (context : ContextBase) :
  is_root_context (root_context_of context) = true /\
  (is_root_context context = true -> root_context_of context = context) /\
  (forall parent,
     get_parent_base context = Some parent ->
     root_context_of context = root_context_of parent /\
     root_context_of context <> context).
Proof.
  split; [|split].
  - apply bool_decide_eq_true.
    induction context as [c Hc | c parent Hc IH] using ContextBase_parent_ind.
    + destruct c; simpl in *. by rewrite Hc.
    + destruct c; simpl in *. rewrite Hc. exact IH.
  - intros Hroot%bool_decide_eq_true. destruct context; simpl in *.
    by rewrite Hroot.
  - unfold get_parent_base. intros parent Hparent.
    assert (Hstep : root_context_of context = root_context_of parent).
    { destruct context; simpl in *. by rewrite Hparent. }
    split; [exact Hstep|].
    intros Heq. pose proof (context_depth_root context) as Hdepth.
    rewrite Heq in Hdepth. destruct context; simpl in *.
    rewrite Hparent in Hdepth. discriminate.
Qed.

(** Whichever of its three messages [ThrowValidateContextMismatch] picks,
    the text ends with a line break and the pointer to the troubleshooting
    page. *)
Theorem ThrowValidateContextMismatch_gives_the_link {S A} (this : SystemBase)
    (context : ContextBase) (s : S) :
  exists text,
    ThrowValidateContextMismatch (A:=A) this context s
      = (Thrown (std_logic_error (text +:+ newline +:+ info_link)), s).
Proof.
  rewrite ThrowValidateContextMismatch_throws.
  unfold root_context_passed_message, subcontext_passed_message,
    generic_mismatch_message.
  destruct (get_parent_service this) as [parent|]; repeat case_bool_decide;
    eexists; do 2 f_equal; rewrite <- !string_app_assoc; reflexivity.
Qed.

(** ** Declaring cache entries: indices and tickets *)

(** Both outcomes of [DeclareCacheEntryWithKnownTicket]. *)
Lemma DeclareCacheEntryWithKnownTicket_run t descr producer prereqs this :
  (prereqs = ∅ /\
   exists what,
     DeclareCacheEntryWithKnownTicket t descr producer prereqs this
       = (Thrown (std_logic_error what), this)) \/
  (prereqs ≠ ∅ /\
   DeclareCacheEntryWithKnownTicket t descr producer prereqs this
     = (Returned (num_cache_entries this),
        emplace_back_cache_entry
          {| cache_index := num_cache_entries this; ticket := t;
             description := descr; value_producer := producer;
             prerequisites := prereqs; is_disabled_by_default := false |}
          this)).
Proof.
  unfold DeclareCacheEntryWithKnownTicket, new_CacheEntry. eff_unfold.
  case_bool_decide as Hempty; [left | right]; (split; [done|]).
  - by eexists.
  - simpl. rewrite length_app. simpl. do 2 f_equal.
    unfold num_cache_entries. lia.
Qed.

Lemma cache_entries_indexed_emplace_back (entry : CacheEntry)
    (this : SystemBase) :
  cache_index entry = num_cache_entries this ->
  cache_entries_indexed this ->
  cache_entries_indexed (emplace_back_cache_entry entry this).
Proof.
  unfold cache_entries_indexed, num_cache_entries. simpl.
  intros Hindex Hindexed.
  rewrite fmap_app, length_app, seq_app, Hindexed. simpl.
  by rewrite Hindex.
Qed.

(** Declaring a cache entry keeps the entries at the positions their indices
    give, whether the declaration returns or throws, so the indices stay
    pairwise different. *)
Theorem DeclareCacheEntry_keeps_entries_indexed
    (descr : string) (producer : ValueProducer)
    (prereqs : gset DependencyTicket) (known_ticket : DependencyTicket)
    (this : SystemBase) :
  cache_entries_indexed this ->
  let known := snd (DeclareCacheEntryWithKnownTicket known_ticket descr
                      producer prereqs this) in
  let fresh := snd (DeclareCacheEntry descr producer prereqs this) in
  cache_entries_indexed known /\ cache_entries_indexed fresh /\
  NoDup (cache_index <$> cache_entries_ known) /\
  NoDup (cache_index <$> cache_entries_ fresh).
Proof.
  intros Hindexed. cbv zeta.
  assert (Hdistinct : forall sys,
            cache_entries_indexed sys ->
            NoDup (cache_index <$> cache_entries_ sys)).
  { intros sys Hsys. rewrite Hsys. apply NoDup_seq. }
  assert (Hknown : forall t sys,
            cache_entries_indexed sys ->
            cache_entries_indexed
              (snd (DeclareCacheEntryWithKnownTicket t descr producer prereqs
                      sys))).
  { intros t sys Hsys.
    destruct (DeclareCacheEntryWithKnownTicket_run t descr producer prereqs sys)
      as [(_ & what & ->) | (_ & ->)]; [done|].
    by apply cache_entries_indexed_emplace_back. }
  assert (Hfresh : cache_entries_indexed
                     (snd (DeclareCacheEntry descr producer prereqs this))).
  { unfold DeclareCacheEntry, assign_next_dependency_ticket. eff_unfold.
    by apply Hknown. }
  split; [by apply Hknown|]. split; [done|].
  split; apply Hdistinct; [by apply Hknown | done].
Qed.

(** [DeclareCacheEntry] uses up one ticket whether it returns or throws.
    When the tickets of the entries declared so far are all below the
    allocator's next ticket, they still are afterwards, and the entry a
    returning call appended holds a ticket that no earlier entry holds. *)
Theorem DeclareCacheEntry_hands_out_a_new_ticket
    (descr : string) (producer : ValueProducer)
    (prereqs : gset DependencyTicket) (this : SystemBase) :
  cache_tickets_assigned this ->
  let run := DeclareCacheEntry descr producer prereqs this in
  next_available_ticket_ (snd run) = S (next_available_ticket_ this) /\
  cache_tickets_assigned (snd run) /\
  forall ref,
    fst run = Returned ref ->
    exists entry,
      get_cache_entry (snd run) ref = Some entry /\
      ticket entry = next_available_ticket_ this /\
      forall earlier,
        earlier ∈ cache_entries_ this -> ticket earlier <> ticket entry.
Proof.
  intros Hassigned. cbv zeta.
  unfold cache_tickets_assigned in *. rewrite Forall_forall in Hassigned.
  unfold DeclareCacheEntry, assign_next_dependency_ticket. eff_unfold.
  set (this1 :=
         set_next_available_ticket (S (next_available_ticket_ this)) this).
  destruct (DeclareCacheEntryWithKnownTicket_run (next_available_ticket_ this)
              descr producer prereqs this1)
    as [(_ & what & ->) | (_ & ->)]; cbn [fst snd].
  - split; [done|]. split; [|done].
    apply Forall_forall. intros entry Hin. simpl.
    specialize (Hassigned entry Hin). lia.
  - split; [done|]. split.
    + apply Forall_forall. simpl.
      intros entry [Hin | ->%list_elem_of_singleton]%elem_of_app; simpl.
      * specialize (Hassigned entry Hin). lia.
      * lia.
    + intros ref [= <-]. eexists. split.
      { unfold get_cache_entry, num_cache_entries. simpl.
        by rewrite lookup_app_r, Nat.sub_diag. }
      split; [done|]. simpl.
      intros earlier Hin. specialize (Hassigned earlier Hin). lia.
Qed.

(** ** Context initialization: what the Context records *)

Ltac unfold_initializer :=
  unfold InitializeContextBase, CreateSourceTrackers, make_trackers,
    initialize_cache_entry, AddInputPort, AddOutputPort,
    CreateNewCacheEntryValue, SetInitialValue, disable_caching,
    CreateNewDependencyTracker, get_mutable_tracker, SubscribeToPrerequisite,
    set_system_name, set_system_id, mark_context_base_initialized,
    AddDiscreteStateTicket, AddAbstractStateTicket,
    AddNumericParameterTicket, AddAbstractParameterTicket.

(** Proves [preserves f c] for a part [f] of the Context that no step of [c]
    writes. *)
Ltac frame :=
  unfold_initializer;
  repeat first
    [ apply preserves_ret | apply preserves_throw | apply preserves_gets
    | apply preserves_DRAKE_DEMAND
    | apply preserves_modify; intros; reflexivity
    | apply preserves_bind; [|intros ?]
    | apply preserves_for_each; intros ?
    | match goal with
      | |- preserves _ (if ?b then _ else _) => destruct b
      | |- preserves _ (match ?x with _ => _ end) => destruct x
      end ].

Lemma tracks_modify {S B} (f : S -> B) (u : B -> B) (g : S -> S) :
  (forall s, f (g s) = u (f s)) -> tracks f u (modify g).
Proof. intros H s a s' [= _ <-]. apply H. Qed.

Lemma tracks_bind_l {S A A' B} (f : S -> B) (u : B -> B)
    (c : Eff S A) (k : A -> Eff S A') :
  preserves f c -> (forall a, tracks f u (k a)) -> tracks f u (bind c k).
Proof.
  intros Hc Hk s b s' (a & s1 & Hrun & Hrest)%bind_returned_inv.
  rewrite (Hk a s1 b s' Hrest). f_equal.
  exact (preserves_returned f c s _ s1 Hc Hrun).
Qed.

Lemma tracks_bind_r {S A A' B} (f : S -> B) (u : B -> B)
    (c : Eff S A) (k : A -> Eff S A') :
  tracks f u c -> (forall a, preserves f (k a)) -> tracks f u (bind c k).
Proof.
  intros Hc Hk s b s' (a & s1 & Hrun & Hrest)%bind_returned_inv.
  rewrite (preserves_returned f (k a) s1 _ s' (Hk a) Hrest).
  exact (Hc s a s1 Hrun).
Qed.

Lemma tracks_for_each_app {S A X} (f : S -> list X) (g : A -> X)
    (body : A -> Eff S unit) (l : list A) :
  (forall x, tracks f (fun xs => xs ++ [g x]) (body x)) ->
  tracks f (fun xs => xs ++ (g <$> l)) (for_each l body).
Proof.
  intros Hbody. induction l as [|x l IH]; intros s a s' Hrun.
  - simpl in Hrun. unfold ret in Hrun. injection Hrun as _ <-.
    by rewrite app_nil_r.
  - simpl in Hrun. apply bind_returned_inv in Hrun as ([] & s1 & Hx & Hl).
    rewrite (IH s1 a s' Hl), (Hbody x s tt s1 Hx).
    by rewrite <- app_assoc.
Qed.

(** Proves [tracks f u c] when one step of [c], or one step of the body of
    one loop of [c], appends to the list [f] and the others leave it
    alone. *)
Ltac track :=
  unfold_initializer;
  repeat first
    [ apply tracks_modify; intros; reflexivity
    | apply tracks_for_each_app; intros ?
    | apply tracks_bind_l; [solve [frame] | intros ?]
    | apply tracks_bind_r; [ | intros ?; solve [frame]] ].

Lemma InitializeContextBase_tracks_sources (this : SystemBase) :
  tracks ctx_discrete_state_tickets
    (fun ts => ts ++ (info_ticket <$> discrete_state_tickets_ this))
    (InitializeContextBase this) /\
  tracks ctx_abstract_state_tickets
    (fun ts => ts ++ (info_ticket <$> abstract_state_tickets_ this))
    (InitializeContextBase this) /\
  tracks ctx_numeric_parameter_tickets
    (fun ts => ts ++ (info_ticket <$> numeric_parameter_tickets_ this))
    (InitializeContextBase this) /\
  tracks ctx_abstract_parameter_tickets
    (fun ts => ts ++ (info_ticket <$> abstract_parameter_tickets_ this))
    (InitializeContextBase this).
Proof. repeat split; track. Qed.

Lemma InitializeContextBase_tracks_ports (this : SystemBase) :
  tracks ctx_input_port_tickets
    (fun ts => ts ++ ((fun iport => port_ticket (input_base iport))
                        <$> input_ports_ this))
    (InitializeContextBase this) /\
  tracks ctx_input_port_values
    (fun vs => vs ++ ((fun _ => None) <$> input_ports_ this))
    (InitializeContextBase this) /\
  tracks ctx_input_port_type_checkers
    (fun cs => cs ++ ((fun iport =>
                         MakeFixInputPortTypeChecker this
                           (get_index (input_base iport)))
                        <$> input_ports_ this))
    (InitializeContextBase this) /\
  tracks ctx_output_port_tickets
    (fun ts => ts ++ ((fun oport => port_ticket (output_base oport))
                        <$> output_ports_ this))
    (InitializeContextBase this).
Proof. repeat split; track. Qed.

(** What is left of [InitializeContextBase] once the guard has passed and
    the name and the id are written. *)
Lemma InitializeContextBase_past_the_guard (this : SystemBase)
    (c : ContextBase) :
  is_context_base_initialized c = false ->
  InitializeContextBase this c
  = (CreateSourceTrackers this ;;;
     for_each (cache_entries_ this) initialize_cache_entry ;;;
     for_each (output_ports_ this) (fun oport =>
       AddOutputPort (get_index (output_base oport))
         (port_ticket (output_base oport)) (GetPrerequisite oport)) ;;;
     mark_context_base_initialized)
      (with_system_id (system_id_ this) (with_system_name (name_ this) c)).
Proof.
  intros Hflag. unfold InitializeContextBase.
  rewrite (bind_returned (gets _) _ c _ c eq_refl), Hflag. cbn [negb].
  rewrite (bind_returned (DRAKE_DEMAND true _) _ c tt c eq_refl).
  rewrite (bind_returned (set_system_name _) _ c tt _ eq_refl).
  by rewrite (bind_returned (set_system_id _) _ _ tt _ eq_refl).
Qed.

(** After [InitializeContextBase] has returned, the Context carries the
    System's name and id and still has the parent it had.  To each of its
    ticket lists the tickets of the System's declarations of that kind have
    been appended, in declaration order: discrete and abstract state,
    numeric and abstract parameters, input ports, output ports.  Every input
    port has got the type checker the System makes for its index, and no
    fixed value. *)
Theorem InitializeContextBase_records_the_declarations
    (this : SystemBase) (context context' : ContextBase) :
  InitializeContextBase this context = (Returned tt, context') ->
  ctx_system_name context' = name_ this /\
  ctx_system_id context' = system_id_ this /\
  ctx_parent context' = ctx_parent context /\
  ctx_discrete_state_tickets context'
    = ctx_discrete_state_tickets context ++
      (info_ticket <$> discrete_state_tickets_ this) /\
  ctx_abstract_state_tickets context'
    = ctx_abstract_state_tickets context ++
      (info_ticket <$> abstract_state_tickets_ this) /\
  ctx_numeric_parameter_tickets context'
    = ctx_numeric_parameter_tickets context ++
      (info_ticket <$> numeric_parameter_tickets_ this) /\
  ctx_abstract_parameter_tickets context'
    = ctx_abstract_parameter_tickets context ++
      (info_ticket <$> abstract_parameter_tickets_ this) /\
  ctx_input_port_tickets context'
    = ctx_input_port_tickets context ++
      ((fun iport => port_ticket (input_base iport)) <$> input_ports_ this) /\
  ctx_input_port_type_checkers context'
    = ctx_input_port_type_checkers context ++
      ((fun iport =>
          MakeFixInputPortTypeChecker this (get_index (input_base iport)))
         <$> input_ports_ this) /\
  ctx_input_port_values context'
    = ctx_input_port_values context ++ replicate (num_input_ports this) None /\
  ctx_output_port_tickets context'
    = ctx_output_port_tickets context ++
      ((fun oport => port_ticket (output_base oport)) <$> output_ports_ this).
Proof.
  intros Hrun.
  destruct (InitializeContextBase_tracks_sources this)
    as (Hxd & Hxa & Hpn & Hpa).
  destruct (InitializeContextBase_tracks_ports this)
    as (Hin & Hvalues & Hcheckers & Hout).
  assert (Hname : tracks ctx_system_name (fun _ => name_ this)
                    (InitializeContextBase this)) by track.
  assert (Hid : tracks ctx_system_id (fun _ => system_id_ this)
                  (InitializeContextBase this)) by track.
  assert (Hparent : preserves ctx_parent (InitializeContextBase this))
    by frame.
  split; [exact (Hname _ _ _ Hrun)|]. split; [exact (Hid _ _ _ Hrun)|].
  split; [exact (preserves_returned _ _ _ _ _ Hparent Hrun)|].
  split; [exact (Hxd _ _ _ Hrun)|]. split; [exact (Hxa _ _ _ Hrun)|].
  split; [exact (Hpn _ _ _ Hrun)|]. split; [exact (Hpa _ _ _ Hrun)|].
  split; [exact (Hin _ _ _ Hrun)|]. split; [exact (Hcheckers _ _ _ Hrun)|].
  split; [|exact (Hout _ _ _ Hrun)].
  rewrite (Hvalues _ _ _ Hrun). f_equal. by apply const_fmap.
Qed.

Lemma unchanged_on_throw_bind {S A A' B} (f : S -> B)
    (c : Eff S A) (k : A -> Eff S A') :
  preserves f c -> (forall a, unchanged_on_throw f (k a)) ->
  unchanged_on_throw f (bind c k).
Proof.
  intros Hc Hk s e s' Hrun. unfold bind in Hrun. specialize (Hc s).
  destruct (c s) as [[a|e1] s1]; simpl in Hc.
  - rewrite (Hk a s1 e s' Hrun). exact Hc.
  - injection Hrun as _ <-. exact Hc.
Qed.

(** When [InitializeContextBase] throws, the Context is not marked
    initialized and keeps its parent.  What was written before the
    exception stays: once the guard has passed, the Context carries the
    System's name and id even though initialization failed. *)
Theorem InitializeContextBase_failure_is_not_marked
    (this : SystemBase) (context context' : ContextBase) (e : exception) :
  InitializeContextBase this context = (Thrown e, context') ->
  is_context_base_initialized context'
    = is_context_base_initialized context /\
  ctx_parent context' = ctx_parent context /\
  (is_context_base_initialized context = false ->
   ctx_system_name context' = name_ this /\
   ctx_system_id context' = system_id_ this).
Proof.
  intros Hrun.
  assert (Hflag : unchanged_on_throw is_context_base_initialized
                    (InitializeContextBase this)).
  { unfold InitializeContextBase.
    repeat (apply unchanged_on_throw_bind; [solve [frame] | intros ?]).
    intros s e' s' [=]. }
  assert (Hparent : preserves ctx_parent (InitializeContextBase this))
    by frame.
  split; [exact (Hflag _ _ _ Hrun)|].
  split; [exact (preserves_returned _ _ _ _ _ Hparent Hrun)|].
  intros Hfresh. rewrite (InitializeContextBase_past_the_guard this _ Hfresh)
    in Hrun.
  split.
  - rewrite (fun H => preserves_returned ctx_system_name _ _ _ _ H Hrun);
      [reflexivity | frame].
  - rewrite (fun H => preserves_returned ctx_system_id _ _ _ _ H Hrun);
      [reflexivity | frame].
Qed.

(** ** Context initialization: the dependency graph *)

Lemma stable_ret {S A} (P : S -> Prop) (a : A) : stable P (ret a).
Proof. by intros s. Qed.

Lemma stable_throw {S A} (P : S -> Prop) e : stable P (throw (A:=A) e).
Proof. by intros s. Qed.

Lemma stable_gets {S A} (P : S -> Prop) (g : S -> A) : stable P (gets g).
Proof. by intros s. Qed.

Lemma stable_DRAKE_DEMAND {S} (P : S -> Prop) cond text :
  stable P (DRAKE_DEMAND cond text).
Proof. intros s. by destruct cond. Qed.

Lemma stable_bind {S A A'} (P : S -> Prop) (c : Eff S A) (k : A -> Eff S A') :
  stable P c -> (forall a, stable P (k a)) -> stable P (bind c k).
Proof.
  intros Hc Hk s HP. unfold bind. specialize (Hc s HP).
  destruct (c s) as [[a|e] s1]; simpl in *; [|done]. by apply Hk.
Qed.

Lemma stable_for_each {S A} (P : S -> Prop) (l : list A) body :
  (forall x, stable P (body x)) -> stable P (for_each l body).
Proof.
  intros Hbody. induction l as [|x l IH]; [by intros s|].
  simpl. apply stable_bind; [apply Hbody | by intros _].
Qed.

Lemma stable_run {S A} (P : S -> Prop) (c : Eff S A) s r s' :
  stable P c -> P s -> c s = (r, s') -> P s'.
Proof. intros H HP Hc. specialize (H s HP). by rewrite Hc in H. Qed.

(** After a loop has returned, what each round established and no round
    undoes holds for every element. *)
Lemma for_each_establishes {S A} (P : A -> S -> Prop)
    (body : A -> Eff S unit) (l : list A) (s s' : S) :
  (forall x s s', body x s = (Returned tt, s') -> P x s') ->
  (forall x y, stable (P x) (body y)) ->
  for_each l body s = (Returned tt, s') ->
  forall x, x ∈ l -> P x s'.
Proof.
  intros Hbody Hstable. revert s.
  induction l as [|y l IH]; intros s Hrun x Hin; [by inversion Hin|].
  simpl in Hrun. apply bind_returned_inv in Hrun as ([] & s1 & Hy & Hl).
  apply elem_of_cons in Hin as [-> | Hin].
  - apply (stable_run (P y) (for_each l body) s1 (Returned tt) s');
      [by apply stable_for_each | by apply (Hbody y s) | done].
  - by apply (IH s1).
Qed.

(** A subscription, once made, stays. *)
Lemma subscribed_create a b t descr :
  stable (fun c => subscribed c a b) (CreateNewDependencyTracker t descr).
Proof.
  intros c (tracker & Hb & Ha).
  unfold CreateNewDependencyTracker, has_tracker. eff_unfold.
  case_bool_decide as Hpresent; simpl; [by exists tracker|].
  exists tracker. split; [|done]. simpl.
  rewrite lookup_insert_ne; [done|]. intros ->. apply Hpresent. eauto.
Qed.

Lemma subscribed_subscribe a b x y :
  stable (fun c => subscribed c a b) (SubscribeToPrerequisite x y).
Proof.
  intros c (tracker & Hb & Ha). unfold SubscribeToPrerequisite, modify.
  simpl. destruct (decide (y = b)) as [->|Hne].
  - exists (add_subscriber x tracker). split.
    + simpl. by rewrite lookup_alter_eq, Hb.
    + simpl. by apply elem_of_union_r.
  - exists tracker. split; [|done]. simpl. by rewrite lookup_alter_ne.
Qed.

Lemma subscribed_same_graph a b (g : ContextBase -> ContextBase) :
  (forall c, ctx_graph (g c) = ctx_graph c) ->
  stable (fun c => subscribed c a b) (modify g).
Proof.
  intros Hg c (tracker & Hb & Ha). exists tracker. simpl. by rewrite Hg.
Qed.

(** Proves that a step of the initializer keeps a subscription. *)
Ltac steady :=
  unfold InitializeContextBase, CreateSourceTrackers, make_trackers,
    initialize_cache_entry, AddInputPort, AddOutputPort,
    CreateNewCacheEntryValue, SetInitialValue, disable_caching,
    get_mutable_tracker, set_system_name, set_system_id,
    mark_context_base_initialized, AddDiscreteStateTicket,
    AddAbstractStateTicket, AddNumericParameterTicket,
    AddAbstractParameterTicket;
  repeat first
    [ apply subscribed_create | apply subscribed_subscribe
    | apply stable_ret | apply stable_throw | apply stable_gets
    | apply stable_DRAKE_DEMAND
    | apply subscribed_same_graph; intros; reflexivity
    | apply stable_bind; [|intros ?]
    | apply stable_for_each; intros ?
    | match goal with
      | |- stable _ (if ?b then _ else _) => destruct b
      | |- stable _ (match ?x with _ => _ end) => destruct x
      end ].

Lemma creates_nothing (c c' : ContextBase) :
  dom (ctx_graph c') = dom (ctx_graph c) -> creates [] c c'.
Proof.
  intros Hdom. split; [|split].
  - rewrite Hdom. simpl. by rewrite (left_id_L ∅ (∪)).
  - constructor.
  - intros t Hin. inversion Hin.
Qed.

Lemma creates_one (t : DependencyTicket) (c c' : ContextBase) :
  t ∉ dom (ctx_graph c) ->
  dom (ctx_graph c') = {[t]} ∪ dom (ctx_graph c) ->
  creates [t] c c'.
Proof.
  intros Hfresh Hdom. split; [|split].
  - rewrite Hdom. simpl. by rewrite (right_id_L ∅ (∪)).
  - apply NoDup_singleton.
  - by intros t' ->%list_elem_of_singleton.
Qed.

Lemma creates_app (ts1 ts2 : list DependencyTicket) (c c1 c2 : ContextBase) :
  creates ts1 c c1 -> creates ts2 c1 c2 -> creates (ts1 ++ ts2) c c2.
Proof.
  intros (Hdom1 & Hnodup1 & Hfresh1) (Hdom2 & Hnodup2 & Hfresh2).
  split; [|split].
  - rewrite Hdom2, Hdom1, list_to_set_app_L.
    by rewrite (assoc_L (∪)), (comm_L (∪) (list_to_set ts2) (list_to_set ts1)).
  - apply NoDup_app. split; [done|]. split; [|done].
    intros t Hin1 Hin2. apply (Hfresh2 t Hin2).
    rewrite Hdom1. apply elem_of_union_l. by apply elem_of_list_to_set.
  - intros t [Hin | Hin]%elem_of_app; [by apply Hfresh1|].
    intros Hdom. apply (Hfresh2 t Hin). rewrite Hdom1.
    by apply elem_of_union_r.
Qed.

Lemma creates_then_same (ts : list DependencyTicket) (c c1 c2 : ContextBase) :
  creates ts c c1 -> dom (ctx_graph c2) = dom (ctx_graph c1) ->
  creates ts c c2.
Proof. intros (Hdom & Hrest) Heq. split; [by rewrite Heq | done]. Qed.

Lemma same_then_creates (ts : list DependencyTicket) (c c1 c2 : ContextBase) :
  dom (ctx_graph c1) = dom (ctx_graph c) -> creates ts c1 c2 ->
  creates ts c c2.
Proof.
  intros Heq (Hdom & Hnodup & Hfresh). rewrite Heq in Hdom, Hfresh.
  by split.
Qed.

Lemma for_each_creates {A} (g : A -> DependencyTicket)
    (body : A -> Eff ContextBase unit) (l : list A) (c c' : ContextBase) :
  (forall x s s', body x s = (Returned tt, s') -> creates [g x] s s') ->
  for_each l body c = (Returned tt, c') ->
  creates (g <$> l) c c'.
Proof.
  intros Hbody. revert c. induction l as [|x l IH]; intros c Hrun.
  - simpl in Hrun. unfold ret in Hrun. injection Hrun as <-.
    by apply creates_nothing.
  - simpl in Hrun. apply bind_returned_inv in Hrun as ([] & c1 & Hx & Hl).
    change (g <$> x :: l) with ([g x] ++ (g <$> l)).
    apply (creates_app _ _ c c1 c'); [by apply Hbody | by apply IH].
Qed.

Lemma CreateNewDependencyTracker_returned t descr c r c' :
  CreateNewDependencyTracker t descr c = (Returned r, c') ->
  r = t /\ (t ∉ dom (ctx_graph c)) /\
  ctx_graph c' =
    <[t := {| tracker_description := descr; tracker_stamp := 0%N;
              tracker_subscribers := ∅ |}]> (ctx_graph c).
Proof.
  unfold CreateNewDependencyTracker, has_tracker. eff_unfold.
  case_bool_decide as Hpresent; simpl; [discriminate|].
  intros [= <- <-]. split; [done|]. split; [|done].
  by rewrite elem_of_dom.
Qed.

Lemma get_mutable_tracker_returned t c r c' :
  get_mutable_tracker t c = (Returned r, c') ->
  r = t /\ c' = c /\ t ∈ dom (ctx_graph c).
Proof.
  unfold get_mutable_tracker, has_tracker. eff_unfold.
  case_bool_decide as Hpresent; simpl; [|discriminate].
  intros [= <- <-]. split; [done|]. split; [done|]. by rewrite elem_of_dom.
Qed.

Lemma SubscribeToPrerequisite_returned a b c r c' :
  SubscribeToPrerequisite a b c = (r, c') ->
  dom (ctx_graph c') = dom (ctx_graph c) /\
  (b ∈ dom (ctx_graph c) -> subscribed c' a b).
Proof.
  unfold SubscribeToPrerequisite, modify. intros [= <- <-]. simpl.
  split; [by rewrite dom_alter_L|].
  intros [tracker Hb]%elem_of_dom. exists (add_subscriber a tracker).
  split; [simpl; by rewrite lookup_alter_eq, Hb|].
  simpl. apply elem_of_union_l. by apply elem_of_singleton.
Qed.

(** One round of the loop of [make_trackers]. *)
Lemma make_trackers_round subscriber
    (push : DependencyTicket -> ContextBase -> ContextBase)
    (info : TrackerInfo) (c c' : ContextBase) :
  (forall t c, ctx_graph (push t c) = ctx_graph c) ->
  (let* source_tracker :=
     CreateNewDependencyTracker (info_ticket info) (info_description info) in
   modify (push (info_ticket info)) ;;;
   SubscribeToPrerequisite subscriber source_tracker) c = (Returned tt, c') ->
  creates [info_ticket info] c c' /\
  subscribed c' subscriber (info_ticket info).
Proof.
  intros Hpush (r & c1 & Hcreate & H)%bind_returned_inv.
  apply CreateNewDependencyTracker_returned in Hcreate as (-> & Hfresh & Hg1).
  apply bind_returned_inv in H as ([] & c2 & Hadd & H).
  unfold modify in Hadd. injection Hadd as <-.
  apply SubscribeToPrerequisite_returned in H as [Hdom Hsub].
  assert (Hdom2 : dom (ctx_graph (push (info_ticket info) c1))
                  = {[info_ticket info]} ∪ dom (ctx_graph c)).
  { by rewrite Hpush, Hg1, dom_insert_L. }
  split.
  - apply creates_one; [done|]. by rewrite Hdom.
  - apply Hsub. rewrite Hdom2. apply elem_of_union_l.
    by apply elem_of_singleton.
Qed.

Lemma make_trackers_returned subscriber
    (push : DependencyTicket -> ContextBase -> ContextBase)
    (infos : list TrackerInfo) (c c' : ContextBase) :
  (forall t c, ctx_graph (push t c) = ctx_graph c) ->
  make_trackers subscriber infos (fun t => modify (push t)) c
    = (Returned tt, c') ->
  creates (info_ticket <$> infos) c c' /\
  forall info, info ∈ infos -> subscribed c' subscriber (info_ticket info).
Proof.
  intros Hpush. unfold make_trackers.
  intros (r & c1 & Hget & Hloop)%bind_returned_inv.
  apply get_mutable_tracker_returned in Hget as (-> & -> & _).
  split.
  - apply (fun H => for_each_creates info_ticket _ infos c c' H Hloop).
    intros x s s' H.
    by apply (make_trackers_round subscriber push x s s' Hpush) in H as [? _].
  - apply (fun H1 H2 =>
             for_each_establishes
               (fun info c => subscribed c subscriber (info_ticket info))
               _ infos c c' H1 H2 Hloop).
    { intros x s s' H.
      by apply (make_trackers_round subscriber push x s s' Hpush) in H
        as [_ ?]. }
    intros x y. apply stable_bind; [apply subscribed_create|]. intros ?.
    apply stable_bind; [by apply subscribed_same_graph|]. intros ?.
    apply subscribed_subscribe.
Qed.

Lemma AddInputPort_returned index t checker c c' :
  AddInputPort index t checker c = (Returned tt, c') ->
  creates [t] c c' /\ subscribed c' (all_input_ports_ticket builtin) t.
Proof.
  unfold AddInputPort.
  intros (r & c1 & Hcreate & H)%bind_returned_inv.
  apply CreateNewDependencyTracker_returned in Hcreate as (-> & Hfresh & Hg1).
  apply bind_returned_inv in H as ([] & c2 & Hpush & H).
  unfold modify in Hpush. injection Hpush as <-.
  apply bind_returned_inv in H as (all_u & c3 & Hget & H).
  apply get_mutable_tracker_returned in Hget as (-> & -> & _).
  apply SubscribeToPrerequisite_returned in H as [Hdom Hsub].
  assert (Hdom2 : dom (ctx_graph (push_input_port t checker c1))
                  = {[t]} ∪ dom (ctx_graph c)).
  { simpl. by rewrite Hg1, dom_insert_L. }
  split.
  - apply creates_one; [done|]. by rewrite Hdom.
  - apply Hsub. rewrite Hdom2. apply elem_of_union_l.
    by apply elem_of_singleton.
Qed.

Lemma AddOutputPort_returned index t prerequisite c c' :
  AddOutputPort index t prerequisite c = (Returned tt, c') ->
  creates [t] c c' /\
  (child_subsystem prerequisite = None ->
   subscribed c' t (dependency prerequisite)).
Proof.
  unfold AddOutputPort.
  intros (r & c1 & Hcreate & H)%bind_returned_inv.
  apply CreateNewDependencyTracker_returned in Hcreate as (-> & Hfresh & Hg1).
  apply bind_returned_inv in H as ([] & c2 & Hpush & H).
  unfold modify in Hpush. injection Hpush as <-.
  assert (Hdom2 : dom (ctx_graph (push_output_port_ticket t c1))
                  = {[t]} ∪ dom (ctx_graph c)).
  { simpl. by rewrite Hg1, dom_insert_L. }
  destruct (child_subsystem prerequisite) as [child|].
  - unfold ret in H. injection H as <-.
    split; [by apply creates_one | done].
  - apply bind_returned_inv in H as (source & c3 & Hget & H).
    apply get_mutable_tracker_returned in Hget as (-> & -> & Hpresent).
    apply SubscribeToPrerequisite_returned in H as [Hdom Hsub].
    split; [|by intros _; apply Hsub].
    apply creates_one; [done|]. by rewrite Hdom.
Qed.

Lemma initialize_cache_entry_graph entry c c' :
  initialize_cache_entry entry c = (Returned tt, c') ->
  creates [ticket entry] c c' /\
  forall p, p ∈ prerequisites entry -> subscribed c' (ticket entry) p.
Proof.
  unfold initialize_cache_entry.
  intros (ref & c4 & Hnew & Hseed)%bind_returned_inv.
  assert (Hgraph : ctx_graph c' = ctx_graph c4).
  { apply (fun H => preserves_returned ctx_graph _ c4 (Returned tt) c' H Hseed).
    unfold SetInitialValue, disable_caching.
    apply preserves_bind; [by apply preserves_modify|]. intros _.
    destruct (is_disabled_by_default entry);
      [by apply preserves_modify | apply preserves_ret]. }
  unfold CreateNewCacheEntryValue in Hnew.
  apply bind_returned_inv in Hnew as (occupied & c0 & Hocc & H).
  unfold gets in Hocc. injection Hocc as <- <-.
  apply bind_returned_inv in H as ([] & c0 & Hdemand & H).
  assert (c0 = c) as ->.
  { by destruct (negb _); [injection Hdemand as <- | discriminate]. }
  apply bind_returned_inv in H as ([] & c1 & Hslot & H).
  unfold modify in Hslot. injection Hslot as <-.
  apply bind_returned_inv in H as (tracker & c2 & Hcreate & H).
  apply CreateNewDependencyTracker_returned in Hcreate as (-> & Hfresh & Hg2).
  apply bind_returned_inv in H as ([] & c3 & Hloop & H).
  unfold ret in H. injection H as _ <-.
  simpl in Hfresh, Hg2.
  assert (Hdom3 : dom (ctx_graph c3) = dom (ctx_graph c2)).
  { apply (fun H => preserves_returned (fun c => dom (ctx_graph c)) _ c2
                        (Returned tt) c3 H Hloop).
    apply preserves_for_each. intros prereq.
    apply preserves_bind; [apply get_mutable_tracker_preserves|]. intros source.
    apply preserves_modify. intros c0. simpl. apply dom_alter_L. }
  split.
  - apply creates_one; [done|].
    by rewrite Hgraph, Hdom3, Hg2, dom_insert_L.
  - intros p Hp%elem_of_elements.
    assert (Hsub : subscribed c3 (ticket entry) p).
    { apply (fun H1 H2 =>
               for_each_establishes
                 (fun p c => subscribed c (ticket entry) p) _ _ c2 c3
                 H1 H2 Hloop p Hp).
      - intros q s s' (source & s1 & Hget & Hq)%bind_returned_inv.
        apply get_mutable_tracker_returned in Hget as (-> & -> & Hpresent).
        by apply (SubscribeToPrerequisite_returned _ _ _ _ _ Hq).
      - intros q q'. apply stable_bind; [|intros ?; apply subscribed_subscribe].
        unfold get_mutable_tracker.
        apply stable_bind; [apply stable_gets|]. intros ?.
        apply stable_bind; [apply stable_DRAKE_DEMAND|]. intros ?.
        apply stable_ret. }
    destruct Hsub as (tr & Hlookup & Hin). exists tr. by rewrite Hgraph.
Qed.

(** The stages of a run of [InitializeContextBase] that returns. *)
Lemma InitializeContextBase_stages this c c' :
  InitializeContextBase this c = (Returned tt, c') ->
  exists c0 c1 c2 c3 c4 c5 c6 c7,
    c0 = with_system_id (system_id_ this) (with_system_name (name_ this) c) /\
    make_trackers (xd_ticket builtin) (discrete_state_tickets_ this)
      AddDiscreteStateTicket c0 = (Returned tt, c1) /\
    make_trackers (xa_ticket builtin) (abstract_state_tickets_ this)
      AddAbstractStateTicket c1 = (Returned tt, c2) /\
    make_trackers (pn_ticket builtin) (numeric_parameter_tickets_ this)
      AddNumericParameterTicket c2 = (Returned tt, c3) /\
    make_trackers (pa_ticket builtin) (abstract_parameter_tickets_ this)
      AddAbstractParameterTicket c3 = (Returned tt, c4) /\
    for_each (input_ports_ this) (fun iport =>
      AddInputPort (get_index (input_base iport))
        (port_ticket (input_base iport))
        (MakeFixInputPortTypeChecker this (get_index (input_base iport)))) c4
      = (Returned tt, c5) /\
    for_each (cache_entries_ this) initialize_cache_entry c5
      = (Returned tt, c6) /\
    for_each (output_ports_ this) (fun oport =>
      AddOutputPort (get_index (output_base oport))
        (port_ticket (output_base oport)) (GetPrerequisite oport)) c6
      = (Returned tt, c7) /\
    c' = with_initialized true c7.
Proof.
  intros Hrun.
  pose proof (InitializeContextBase_returned this c c' Hrun) as (Hflag & _).
  rewrite (InitializeContextBase_past_the_guard this c Hflag) in Hrun.
  set (c0 := with_system_id _ _) in Hrun.
  apply bind_returned_inv in Hrun as ([] & c5 & Hsources & Hrun).
  apply bind_returned_inv in Hrun as ([] & c6 & Hcache & Hrun).
  apply bind_returned_inv in Hrun as ([] & c7 & Hout & Hrun).
  unfold mark_context_base_initialized, modify in Hrun. injection Hrun as <-.
  unfold CreateSourceTrackers in Hsources.
  apply bind_returned_inv in Hsources as ([] & c1 & Hxd & Hsources).
  apply bind_returned_inv in Hsources as ([] & c2 & Hxa & Hsources).
  apply bind_returned_inv in Hsources as ([] & c3 & Hpn & Hsources).
  apply bind_returned_inv in Hsources as ([] & c4 & Hpa & Hin).
  by exists c0, c1, c2, c3, c4, c5, c6, c7.
Qed.

Lemma declared_tickets_by_kind (this : SystemBase) :
  declared_tickets this
  = (info_ticket <$> discrete_state_tickets_ this) ++
    (info_ticket <$> abstract_state_tickets_ this) ++
    (info_ticket <$> numeric_parameter_tickets_ this) ++
    (info_ticket <$> abstract_parameter_tickets_ this) ++
    ((fun iport => port_ticket (input_base iport)) <$> input_ports_ this) ++
    (ticket <$> cache_entries_ this) ++
    ((fun oport => port_ticket (output_base oport)) <$> output_ports_ this).
Proof.
  unfold declared_tickets, declared_trackers.
  rewrite !fmap_app, <- !list_fmap_compose. reflexivity.
Qed.

(** The trackers of a Context that [InitializeContextBase] has initialized:
    those the Context had before, and one for each ticket the System
    declares (state and parameter groups, input ports, cache entries, output
    ports); no other tracker was added and none was removed. *)
Theorem InitializeContextBase_creates_the_declared_trackers
    (this : SystemBase) (context context' : ContextBase) :
  InitializeContextBase this context = (Returned tt, context') ->
  dom (ctx_graph context')
    = list_to_set (declared_tickets this) ∪ dom (ctx_graph context).
Proof.
  intros (c0 & c1 & c2 & c3 & c4 & c5 & c6 & c7 & Hg0 & Hxd & Hxa & Hpn & Hpa &
          Hin & Hcache & Hout & Hg')%InitializeContextBase_stages.
  apply (make_trackers_returned _ push_discrete_state_ticket) in Hxd
    as [Hxd _]; [|done].
  apply (make_trackers_returned _ push_abstract_state_ticket) in Hxa
    as [Hxa _]; [|done].
  apply (make_trackers_returned _ push_numeric_parameter_ticket) in Hpn
    as [Hpn _]; [|done].
  apply (make_trackers_returned _ push_abstract_parameter_ticket) in Hpa
    as [Hpa _]; [|done].
  apply (for_each_creates (fun iport => port_ticket (input_base iport))) in Hin;
    [|intros x s s' H; by apply AddInputPort_returned in H as [? _]].
  apply (for_each_creates ticket) in Hcache;
    [|intros x s s' H; by apply initialize_cache_entry_graph in H as [? _]].
  apply (for_each_creates (fun oport => port_ticket (output_base oport)))
    in Hout;
    [|intros x s s' H; by apply AddOutputPort_returned in H as [? _]].
  rewrite declared_tickets_by_kind.
  apply (same_then_creates _ context c0 context'); [by rewrite Hg0|].
  apply (creates_then_same _ c0 c7 context'); [|by rewrite Hg'].
  repeat (eapply creates_app; [eassumption|]). exact Hout.
Qed.

(** The subscriptions [InitializeContextBase] has made when it returns.  The
    tracker of each group (all discrete state, all abstract state, all
    numeric parameters, all abstract parameters, all input ports) is
    subscribed to the tracker of every member the System declares; the
    tracker of each cache entry is subscribed to the trackers of the
    entry's prerequisites; the tracker of each output port is subscribed to
    the prerequisite the port declares within this System.  Subscriptions
    the Context had before are kept. *)
Theorem InitializeContextBase_wires_the_trackers
    (this : SystemBase) (context context' : ContextBase) :
  InitializeContextBase this context = (Returned tt, context') ->
  (forall info, info ∈ discrete_state_tickets_ this ->
     subscribed context' (xd_ticket builtin) (info_ticket info)) /\
  (forall info, info ∈ abstract_state_tickets_ this ->
     subscribed context' (xa_ticket builtin) (info_ticket info)) /\
  (forall info, info ∈ numeric_parameter_tickets_ this ->
     subscribed context' (pn_ticket builtin) (info_ticket info)) /\
  (forall info, info ∈ abstract_parameter_tickets_ this ->
     subscribed context' (pa_ticket builtin) (info_ticket info)) /\
  (forall iport, iport ∈ input_ports_ this ->
     subscribed context' (all_input_ports_ticket builtin)
       (port_ticket (input_base iport))) /\
  (forall entry p, entry ∈ cache_entries_ this -> p ∈ prerequisites entry ->
     subscribed context' (ticket entry) p) /\
  (forall oport, oport ∈ output_ports_ this ->
     child_subsystem (GetPrerequisite oport) = None ->
     subscribed context' (port_ticket (output_base oport))
       (dependency (GetPrerequisite oport))) /\
  (forall subscriber prerequisite,
     subscribed context subscriber prerequisite ->
     subscribed context' subscriber prerequisite).
Proof.
  intros Hrun.
  assert (Hlast : forall a b,
            subscribed context a b -> subscribed context' a b).
  { intros a b Hsub.
    apply (fun H => stable_run (fun c => subscribed c a b) _
                       context (Returned tt) context' H Hsub Hrun).
    steady. }
  apply InitializeContextBase_stages in Hrun
    as (c0 & c1 & c2 & c3 & c4 & c5 & c6 & c7 & Hg0 & Hxd & Hxa & Hpn & Hpa &
        Hin & Hcache & Hout & Hg').
  assert (Hfinal : forall a b, subscribed c7 a b -> subscribed context' a b).
  { intros a b (tr & Hb & Ha). exists tr. by rewrite Hg'. }
  assert (Hkeep_xa : forall a b, subscribed c1 a b -> subscribed c2 a b).
  { intros a b Hsub.
    apply (fun H =>
             stable_run (fun c => subscribed c a b) _ c1 _ c2 H Hsub Hxa).
    steady. }
  assert (Hkeep_pn : forall a b, subscribed c2 a b -> subscribed c3 a b).
  { intros a b Hsub.
    apply (fun H =>
             stable_run (fun c => subscribed c a b) _ c2 _ c3 H Hsub Hpn).
    steady. }
  assert (Hkeep_pa : forall a b, subscribed c3 a b -> subscribed c4 a b).
  { intros a b Hsub.
    apply (fun H =>
             stable_run (fun c => subscribed c a b) _ c3 _ c4 H Hsub Hpa).
    steady. }
  assert (Hkeep_in : forall a b, subscribed c4 a b -> subscribed c5 a b).
  { intros a b Hsub.
    apply (fun H =>
             stable_run (fun c => subscribed c a b) _ c4 _ c5 H Hsub Hin).
    steady. }
  assert (Hkeep_cache : forall a b, subscribed c5 a b -> subscribed c6 a b).
  { intros a b Hsub.
    apply (fun H =>
             stable_run (fun c => subscribed c a b) _ c5 _ c6 H Hsub Hcache).
    steady. }
  assert (Hkeep_out : forall a b, subscribed c6 a b -> subscribed c7 a b).
  { intros a b Hsub.
    apply (fun H =>
             stable_run (fun c => subscribed c a b) _ c6 _ c7 H Hsub Hout).
    steady. }
  apply (make_trackers_returned _ push_discrete_state_ticket) in Hxd
    as [_ Hxd]; [|done].
  apply (make_trackers_returned _ push_abstract_state_ticket) in Hxa
    as [_ Hxa]; [|done].
  apply (make_trackers_returned _ push_numeric_parameter_ticket) in Hpn
    as [_ Hpn]; [|done].
  apply (make_trackers_returned _ push_abstract_parameter_ticket) in Hpa
    as [_ Hpa]; [|done].
  split.
  { intros info Hinfo.
    by apply Hfinal, Hkeep_out, Hkeep_cache, Hkeep_in, Hkeep_pa, Hkeep_pn,
      Hkeep_xa, Hxd. }
  split.
  { intros info Hinfo.
    by apply Hfinal, Hkeep_out, Hkeep_cache, Hkeep_in, Hkeep_pa, Hkeep_pn,
      Hxa. }
  split.
  { intros info Hinfo.
    by apply Hfinal, Hkeep_out, Hkeep_cache, Hkeep_in, Hkeep_pa, Hpn. }
  split.
  { intros info Hinfo.
    by apply Hfinal, Hkeep_out, Hkeep_cache, Hkeep_in, Hpa. }
  split.
  { intros iport Hiport. apply Hfinal, Hkeep_out, Hkeep_cache.
    apply (fun H1 H2 =>
             for_each_establishes
               (fun iport c =>
                  subscribed c (all_input_ports_ticket builtin)
                    (port_ticket (input_base iport)))
               _ _ c4 c5 H1 H2 Hin iport Hiport).
    - intros x s s' H. by apply AddInputPort_returned in H as [_ ?].
    - intros x y. steady. }
  split.
  { intros entry p Hentry Hp. apply Hfinal, Hkeep_out.
    apply (fun H1 H2 =>
             for_each_establishes
               (fun entry c =>
                  forall p, p ∈ prerequisites entry ->
                            subscribed c (ticket entry) p)
               _ _ c5 c6 H1 H2 Hcache entry Hentry p Hp).
    - intros x s s' H. by apply initialize_cache_entry_graph in H as [_ ?].
    - intros x y s Hs q Hq. specialize (Hs q Hq). revert s Hs.
      change (stable (fun c => subscribed c (ticket x) q)
                (initialize_cache_entry y)).
      steady. }
  split; [|exact Hlast].
  intros oport Hoport Hnone. apply Hfinal.
  apply (fun H1 H2 =>
           for_each_establishes
             (fun oport c =>
                child_subsystem (GetPrerequisite oport) = None ->
                subscribed c (port_ticket (output_base oport))
                  (dependency (GetPrerequisite oport)))
             _ _ c6 c7 H1 H2 Hout oport Hoport Hnone).
  - intros x s s' H. by apply AddOutputPort_returned in H as [_ ?].
  - intros x y s Hs Hx. specialize (Hs Hx). revert s Hs.
    change (stable (fun c => subscribed c (port_ticket (output_base x))
                               (dependency (GetPrerequisite x)))
              (AddOutputPort (get_index (output_base y))
                 (port_ticket (output_base y)) (GetPrerequisite y))).
    steady.
Qed.

(** ** Context initialization: the cache, and what follows from it *)

(** The cache-entry loop fills slots that were empty, one for each entry,
    and leaves the other slots alone. *)
Lemma cache_entry_loop_frame (entries : list CacheEntry) c c' :
  for_each entries initialize_cache_entry c = (Returned tt, c') ->
  NoDup (cache_index <$> entries) /\
  (forall entry, entry ∈ entries -> ctx_cache c !! cache_index entry = None) /\
  (forall index, index ∉ cache_index <$> entries ->
                 ctx_cache c' !! index = ctx_cache c !! index).
Proof.
  revert c. induction entries as [|e entries IH]; intros c H.
  - simpl in H. unfold ret in H. injection H as <-.
    split; [constructor|]. split; [|done]. intros entry Hin. inversion Hin.
  - simpl in H. apply bind_returned_inv in H as ([] & c1 & He & H).
    apply initialize_cache_entry_returned in He as [Hfree Hcache].
    apply IH in H as (Hnodup & Hfree1 & Hframe).
    assert (Hother : forall entry, entry ∈ entries ->
                                   cache_index entry <> cache_index e).
    { intros entry Hin Heq. specialize (Hfree1 entry Hin).
      by rewrite Hcache, Heq, lookup_insert_eq in Hfree1. }
    split; [|split].
    + rewrite fmap_cons. apply NoDup_cons. split; [|done].
      intros (entry & Heq & Hin)%list_elem_of_fmap.
      by apply (Hother entry Hin).
    + intros entry [-> | Hin]%elem_of_cons; [done|].
      specialize (Hfree1 entry Hin).
      rewrite Hcache, lookup_insert_ne in Hfree1; [done|].
      intros Heq. by apply (Hother entry Hin).
    + intros index Hnotin. rewrite fmap_cons in Hnotin.
      apply not_elem_of_cons in Hnotin as [Hne Hnotin].
      rewrite (Hframe index Hnotin), Hcache. by apply lookup_insert_ne.
Qed.

(** The cache-entry loop of a run that returns, and the cache before and
    after it. *)
Lemma InitializeContextBase_cache_stages this c c' :
  InitializeContextBase this c = (Returned tt, c') ->
  exists c5 c6,
    for_each (cache_entries_ this) initialize_cache_entry c5
      = (Returned tt, c6) /\
    ctx_cache c5 = ctx_cache c /\ ctx_cache c' = ctx_cache c6.
Proof.
  intros (c0 & c1 & c2 & c3 & c4 & c5 & c6 & c7 & -> & Hxd & Hxa & Hpn & Hpa &
          Hin & Hcache & Hout & ->)%InitializeContextBase_stages.
  exists c5, c6. split; [done|]. split.
  - rewrite (fun H => preserves_returned ctx_cache _ _ _ _ H Hin) by frame.
    rewrite (fun H => preserves_returned ctx_cache _ _ _ _ H Hpa) by frame.
    rewrite (fun H => preserves_returned ctx_cache _ _ _ _ H Hpn) by frame.
    rewrite (fun H => preserves_returned ctx_cache _ _ _ _ H Hxa) by frame.
    by rewrite (fun H => preserves_returned ctx_cache _ _ _ _ H Hxd) by frame.
  - simpl.
    by rewrite (fun H => preserves_returned ctx_cache _ _ _ _ H Hout) by frame.
Qed.

(** [InitializeContextBase] adds to the cache one slot for each cache entry
    of the System and nothing else: when it returns, the slots of the
    entries were empty before, the entries have pairwise different indices,
    and every slot at another index is what it was. *)
Theorem InitializeContextBase_adds_one_slot_per_entry
    (this : SystemBase) (context context' : ContextBase) :
  InitializeContextBase this context = (Returned tt, context') ->
  NoDup (cache_index <$> cache_entries_ this) /\
  (forall entry, entry ∈ cache_entries_ this ->
     ctx_cache context !! cache_index entry = None /\
     ctx_cache context' !! cache_index entry = Some (initial_slot entry)) /\
  (forall index, index ∉ cache_index <$> cache_entries_ this ->
     ctx_cache context' !! index = ctx_cache context !! index).
Proof.
  intros (c5 & c6 & Hloop & H5 & H6)%InitializeContextBase_cache_stages.
  pose proof (cache_entry_loop_frame _ _ _ Hloop) as (Hnodup & Hfree & Hframe).
  pose proof (cache_entry_loop_returned _ _ _ Hloop) as [_ Hfilled].
  rewrite H6, <- H5. split; [done|]. split; [|done].
  intros entry Hin. split; [by apply Hfree | by apply Hfilled].
Qed.

(** Declaring and then initializing.  In a Context that the System
    initializes right after a cache entry was declared, the entry has a slot
    at the index the declaration returned: it carries the entry's
    description, is seeded with what the producer allocates, is not yet
    computed, and has caching enabled. *)
Theorem declared_cache_entry_gets_its_slot
    (descr : string) (producer : ValueProducer)
    (prereqs : gset DependencyTicket) (known_ticket : DependencyTicket)
    (this this' : SystemBase) (ref : CacheIndex)
    (context context' : ContextBase) :
  DeclareCacheEntryWithKnownTicket known_ticket descr producer prereqs this
    = (Returned ref, this') \/
  DeclareCacheEntry descr producer prereqs this = (Returned ref, this') ->
  InitializeContextBase this' context = (Returned tt, context') ->
  exists slot,
    ctx_cache context' !! ref = Some slot /\
    value_description slot = descr /\
    value_storage slot = Some (producer_allocate producer tt) /\
    value_is_up_to_date slot = false /\
    is_cache_entry_disabled slot = false.
Proof.
  intros Hdeclared Hinit.
  assert (Hentry : exists entry,
            entry ∈ cache_entries_ this' /\ cache_index entry = ref /\
            description entry = descr /\ value_producer entry = producer /\
            is_disabled_by_default entry = false).
  { assert (Hlast : forall t sys,
              DeclareCacheEntryWithKnownTicket t descr producer prereqs sys
                = (Returned ref, this') ->
              exists entry,
                entry ∈ cache_entries_ this' /\ cache_index entry = ref /\
                description entry = descr /\ value_producer entry = producer /\
                is_disabled_by_default entry = false).
    { intros t sys H.
      apply DeclareCacheEntryWithKnownTicket_returned_inv in H as (_ & -> & ->).
      exists {| cache_index := num_cache_entries sys; ticket := t;
                description := descr; value_producer := producer;
                prerequisites := prereqs; is_disabled_by_default := false |}.
      split; [|done]. simpl. apply elem_of_app. right.
      apply list_elem_of_here. }
    destruct Hdeclared as [H|H]; [by apply (Hlast known_ticket this)|].
    unfold DeclareCacheEntry in H.
    apply bind_returned_inv in H as (t & s1 & Ht & H).
    by apply (Hlast t s1). }
  destruct Hentry as (entry & Hin & <- & <- & <- & Henabled).
  apply InitializeContextBase_cache_stages in Hinit
    as (c5 & c6 & Hloop & _ & ->).
  apply cache_entry_loop_returned in Hloop as [_ Hfilled].
  exists (initial_slot entry). split; [by apply Hfilled|].
  unfold initial_slot, Allocate. simpl. by rewrite Henabled.
Qed.

(** In a Context that a System has just initialized, starting from a
    Context without input ports, no input port is fixed.  So for a root
    System, or in a root Context, every declared input port evaluates to
    the null "no value" result until a value is fixed for it. *)
Theorem EvalAbstractInputImpl_after_initialization
    (func : string) (this : SystemBase) (context context' : ContextBase)
    (port_index : InputPortIndex) (process : Process) :
  InitializeContextBase this context = (Returned tt, context') ->
  ctx_input_port_values context = [] ->
  get_parent_service this = None \/ is_root_context context = true ->
  port_index < num_input_ports this ->
  MaybeGetFixedInputPortValue context' port_index = None /\
  fst (EvalAbstractInputImpl func context' port_index (this, process))
    = Returned None.
Proof.
  intros Hinit Hnone Hroot Hrange.
  destruct (InitializeContextBase_tracks_ports this) as (_ & Hvalues & _ & _).
  assert (Hparent : preserves ctx_parent (InitializeContextBase this))
    by frame.
  assert (Hfree : MaybeGetFixedInputPortValue context' port_index = None).
  { unfold MaybeGetFixedInputPortValue.
    rewrite (Hvalues _ _ _ Hinit), Hnone. simpl.
    rewrite list_lookup_fmap.
    by destruct (input_ports_ this !! port_index). }
  split; [exact Hfree|].
  destruct (lookup_lt_is_Some_2 (input_ports_ this) port_index Hrange)
    as [port Hport].
  rewrite (EvalAbstractInputImpl_local func context' port_index port this
             process Hport).
  - by rewrite Hfree.
  - right. destruct Hroot as [Hroot|Hroot]; [by left|]. right.
    unfold is_root_context in *. apply bool_decide_eq_true in Hroot.
    apply bool_decide_eq_true.
    by rewrite (preserves_returned _ _ _ _ _ Hparent Hinit).
Qed.

(** ** The pathname a Context reports *)

Lemma Context_GetSystemPathname_unfold (context : ContextBase) :
  Context_GetSystemPathname context
  = match ctx_parent context with
    | None => ""
    | Some parent => Context_GetSystemPathname parent
    end +:+ path_separator +:+ ctx_system_name context.
Proof. by destruct context. Qed.

(** A Context that [InitializeContextBase] has initialized reports the
    pathname of the System that initialized it, provided the Context's
    parent reports what the System's parent service reports (for a root
    System and a root Context there is nothing to provide).  So the two
    pathnames in a mismatch message are spelt alike. *)
Theorem InitializeContextBase_gives_the_context_its_pathname
    (this : SystemBase) (context context' : ContextBase) :
  InitializeContextBase this context = (Returned tt, context') ->
  parents_agree this context ->
  Context_GetSystemPathname context' = GetSystemPathname this.
Proof.
  intros Hrun Hparents.
  assert (Hname : tracks ctx_system_name (fun _ => name_ this)
                    (InitializeContextBase this)) by track.
  assert (Hparent : preserves ctx_parent (InitializeContextBase this))
    by frame.
  rewrite Context_GetSystemPathname_unfold.
  rewrite (Hname _ _ _ Hrun), (preserves_returned _ _ _ _ _ Hparent Hrun).
  unfold GetSystemPathname, GetSystemName, parents_agree in *.
  destruct (get_parent_service this) as [parent|],
    (ctx_parent context) as [parent_context|]; try done.
  by rewrite Hparents.
Qed.

(** ** GetMemoryObjectName *)

Lemma string_length_app (a b : string) :
  String.length (a +:+ b) = String.length a + String.length b.
Proof.
  induction a as [|ch a IH]; [done|].
  change (S (String.length (a +:+ b)) = S (String.length a) + String.length b).
  by rewrite IH.
Qed.

Lemma string_app_same_length_suffix (x1 x2 h1 h2 : string) :
  String.length h1 = String.length h2 ->
  x1 +:+ h1 = x2 +:+ h2 -> h1 = h2.
Proof.
  intros Hlen. revert x2.
  induction x1 as [|c x1 IH]; intros [|c' x2] Heq.
  - exact Heq.
  - exfalso. change (h1 = String c' (x2 +:+ h2)) in Heq.
    rewrite Heq in Hlen. cbn [String.length] in Hlen.
    rewrite string_length_app in Hlen. lia.
  - exfalso. change (String c (x1 +:+ h1) = h2) in Heq.
    rewrite <- Heq in Hlen. cbn [String.length] in Hlen.
    rewrite string_length_app in Hlen. lia.
  - change (String c (x1 +:+ h1) = String c' (x2 +:+ h2)) in Heq.
    injection Heq as _ Heq. by apply (IH x2).
Qed.

Lemma chars_app (a b : string) :
  String.list_ascii_of_string (a +:+ b)
  = String.list_ascii_of_string a ++ String.list_ascii_of_string b.
Proof.
  induction a as [|ch a IH]; [done|].
  change (ch :: String.list_ascii_of_string (a +:+ b)
          = ch :: String.list_ascii_of_string a ++ String.list_ascii_of_string b).
  by rewrite IH.
Qed.

Lemma hex_digit_is_not_a_colon (d : N) : hex_digit d <> char ":".
Proof.
  unfold hex_digit.
  destruct (decide (d < 16)%N) as [Hlt|Hge].
  - assert (Hd : (d = 0 \/ d = 1 \/ d = 2 \/ d = 3 \/ d = 4 \/ d = 5 \/ d = 6 \/
                  d = 7 \/ d = 8 \/ d = 9 \/ d = 10 \/ d = 11 \/ d = 12 \/
                  d = 13 \/ d = 14 \/ d = 15)%N) by lia.
    repeat destruct Hd as [-> | Hd]; try subst d; by vm_compute.
  - assert (Hget : String.get (N.to_nat d) "0123456789abcdef" = None).
    { assert (Hlen : 16 <= N.to_nat d) by lia.
      revert Hlen. generalize (N.to_nat d). intros n Hn.
      do 16 (destruct n as [|n]; [lia|]). reflexivity. }
    rewrite Hget. by vm_compute.
Qed.

Lemma hex_value_of_hex_digit (d : N) :
  (d < 16)%N -> hex_value (hex_digit d) = d.
Proof.
  intros Hlt.
  assert (Hd : (d = 0 \/ d = 1 \/ d = 2 \/ d = 3 \/ d = 4 \/ d = 5 \/ d = 6 \/
                d = 7 \/ d = 8 \/ d = 9 \/ d = 10 \/ d = 11 \/ d = 12 \/
                d = 13 \/ d = 14 \/ d = 15)%N) by lia.
  repeat destruct Hd as [-> | Hd]; try subst d; by vm_compute.
Qed.

Lemma hex_digits_length (n : nat) (x : N) : String.length (hex_digits n x) = n.
Proof. induction n as [|n IH]; [done|]. simpl. by rewrite IH. Qed.

(** Reading back what [hex_digits] wrote. *)
Lemma parse_hex_digits (n : nat) (x acc : N) :
  parse_hex acc (hex_digits n x)
  = (acc * 16 ^ N.of_nat n + x mod 16 ^ N.of_nat n)%N.
Proof.
  revert acc. induction n as [|n IH]; intros acc.
  - simpl. rewrite N.mod_1_r. lia.
  - cbn [hex_digits parse_hex]. rewrite IH.
    rewrite hex_value_of_hex_digit by (apply N.mod_lt; lia).
    rewrite Nat2N.inj_succ, N.pow_succ_r'.
    rewrite (N.mul_comm 16 (16 ^ N.of_nat n)), N.Div0.mod_mul_r. lia.
Qed.

Lemma format_0_16x_of_an_address (address : N) :
  (address < 2 ^ 64)%N -> format_0_16x address = hex_digits 16 address.
Proof.
  intros Hlt. unfold format_0_16x, hex_width.
  assert (Hlog : (N.log2 address < 64)%N).
  { destruct (decide (address = 0%N)) as [->|Hpos]; [done|].
    apply N.log2_lt_pow2; [lia | done]. }
  assert (Hdiv : (N.log2 address / 4 < 16)%N).
  { apply N.Div0.div_lt_upper_bound. lia. }
  f_equal. lia.
Qed.

Lemma replace_colons_has_no_colon (in_run : bool) (s : string) :
  Forall (fun c => c <> char ":")
         (String.list_ascii_of_string (replace_colons in_run s)).
Proof.
  revert in_run. induction s as [|c s IH]; intros in_run; [constructor|].
  simpl. case_bool_decide as Hc.
  - destruct in_run; [apply IH|]. simpl.
    constructor; [by vm_compute | apply IH].
  - simpl. constructor; [done | apply IH].
Qed.

Lemma hex_digits_have_no_colon (n : nat) (x : N) :
  Forall (fun c => c <> char ":")
         (String.list_ascii_of_string (hex_digits n x)).
Proof.
  induction n as [|n IH]; [constructor|]. simpl.
  constructor; [apply hex_digit_is_not_a_colon | exact IH].
Qed.

(** The default name holds no colon, which is the separator of
    [GetSystemPathname]: the colons of the type name have become slashes,
    and neither the [@] nor a hexadecimal digit is one. *)
Theorem GetMemoryObjectName_has_no_colon (nice_type_name : string)
    (address : N) :
  ~ names ":" (GetMemoryObjectName nice_type_name address).
Proof.
  intros (before & after & Heq).
  assert (Hall : Forall (fun c => c <> char ":")
                   (String.list_ascii_of_string
                      (GetMemoryObjectName nice_type_name address))).
  { unfold GetMemoryObjectName, format_0_16x. cbv zeta.
    rewrite !chars_app. apply Forall_app. split.
    - apply replace_colons_has_no_colon.
    - apply Forall_app. split; [|apply hex_digits_have_no_colon].
      simpl. constructor; [by vm_compute | constructor]. }
  rewrite Heq, !chars_app in Hall.
  apply Forall_app in Hall as [_ Hall]. apply Forall_app in Hall as [Hall _].
  simpl in Hall. by inversion Hall.
Qed.

(** The default name ends with [@] and the sixteen hexadecimal digits of the
    object's address, so two objects at different addresses get different
    names, whatever their types. *)
Theorem GetMemoryObjectName_tells_objects_apart
    (type1 type2 : string) (address1 address2 : N) :
  (address1 < 2 ^ 64)%N -> (address2 < 2 ^ 64)%N ->
  (exists default_name,
     GetMemoryObjectName type1 address1
       = default_name +:+ "@" +:+ hex_digits 16 address1) /\
  (GetMemoryObjectName type1 address1 = GetMemoryObjectName type2 address2 ->
   address1 = address2).
Proof.
  intros H1 H2. unfold GetMemoryObjectName. cbv zeta.
  rewrite !format_0_16x_of_an_address by done.
  split; [by eexists|].
  intros Heq. rewrite <- !string_app_assoc in Heq.
  apply string_app_same_length_suffix in Heq;
    [|by rewrite !hex_digits_length].
  pose proof (parse_hex_digits 16 address1 0) as Hp1.
  pose proof (parse_hex_digits 16 address2 0) as Hp2.
  rewrite Heq, Hp2 in Hp1.
  change (16 ^ N.of_nat 16)%N with (2 ^ 64)%N in Hp1.
  rewrite !N.mod_small in Hp1 by done. lia.
Qed.

Lemma closes_template_arguments (arguments : string) :
  Forall (fun c => is_line_terminator c = false)
         (String.list_ascii_of_string arguments) ->
  closes_template (arguments +:+ ">") = true.
Proof.
  induction arguments as [|c arguments IH]; intros Hargs; [done|].
  simpl in Hargs. apply Forall_cons in Hargs as [Hc Hargs].
  change (closes_template (String c (arguments +:+ ">")) = true).
  cbn [closes_template]. rewrite Hc, (IH Hargs). cbn [negb andb].
  apply orb_true_r.
Qed.

(** The template arguments of the type play no part in the default name:
    a type name [base<arguments>] gives the name that [base] gives.  (The
    base name has no opening angle bracket of its own, and the arguments
    are on one line.) *)
Theorem GetMemoryObjectName_drops_template_arguments
    (base arguments : string) (address : N) :
  Forall (fun c => c <> char "<") (String.list_ascii_of_string base) ->
  Forall (fun c => is_line_terminator c = false)
         (String.list_ascii_of_string arguments) ->
  remove_template_parameters (base +:+ "<" +:+ arguments +:+ ">") = base /\
  remove_template_parameters base = base /\
  GetMemoryObjectName (base +:+ "<" +:+ arguments +:+ ">") address
    = GetMemoryObjectName base address.
Proof.
  intros Hbase Hargs.
  assert (Hstrip : remove_template_parameters
                     (base +:+ "<" +:+ arguments +:+ ">") = base).
  { induction base as [|c base IH].
    - change (remove_template_parameters
                (String (char "<") (arguments +:+ ">")) = "").
      cbn [remove_template_parameters].
      by rewrite bool_decide_eq_true_2, closes_template_arguments.
    - simpl in Hbase. apply Forall_cons in Hbase as [Hc Hbase].
      change (remove_template_parameters
                (String c (base +:+ "<" +:+ arguments +:+ ">"))
              = String c base).
      cbn [remove_template_parameters].
      rewrite (bool_decide_eq_false_2 _ Hc). cbn [andb].
      by rewrite (IH Hbase). }
  assert (Hsame : remove_template_parameters base = base).
  { clear Hstrip. induction base as [|c base IH]; [done|].
    simpl in Hbase. apply Forall_cons in Hbase as [Hc Hbase].
    cbn [remove_template_parameters].
    rewrite (bool_decide_eq_false_2 _ Hc). cbn [andb].
    by rewrite (IH Hbase). }
  split; [done|]. split; [done|].
  unfold GetMemoryObjectName. cbv zeta. by rewrite Hstrip, Hsame.
Qed.

End SystemBase.


(** * The definitions at work *)

(** The examples instantiate [AbstractValue] with [Z]. *)
Abbreviation the_plant := (plant 5%Z 9%Z).
Abbreviation the_pump := (pump 7%Z).
Abbreviation the_spare_pump := (second_pump 7%Z).
Abbreviation the_diagram := (@diagram Z).
Abbreviation fresh_context := (@new_context Z).
Abbreviation root_context := (@diagram_context Z).
Abbreviation pump_subcontext := (pump_context 42%Z).
Abbreviation valve_subcontext := (@valve_context Z).
Abbreviation bare_context := (@unprepared_context Z).
Abbreviation plant_context :=
  (snd (InitializeContextBase example_tickets the_plant fresh_context)).

Example negative_index_message :
  fst (EvalAbstractInput "::" fnv1a_key fresh_context (-1) (the_plant, process_start))
  = Thrown (std_out_of_range
      "System::EvalAbstractInput(): negative port index -1 is illegal. (System ::plant)").
Proof. reflexivity. Qed.

Example index_past_the_end_message :
  fst (EvalAbstractInput "::" fnv1a_key fresh_context 5 (the_plant, process_start))
  = Thrown (std_out_of_range
      "System::EvalAbstractInput(): there is no input port with index 5 because there are only 3 input ports in system ::plant.").
Proof. reflexivity. Qed.

Example pump_input_fixed :
  fst (EvalAbstractInput "::" fnv1a_key pump_subcontext 0 (the_pump, process_start))
  = Returned (Some 42%Z).
Proof. reflexivity. Qed.

Example pump_input_from_diagram :
  fst (EvalAbstractInput "::" fnv1a_key pump_subcontext 1 (the_pump, process_start))
  = Returned (Some 7%Z).
Proof. reflexivity. Qed.

Example pump_pathname : GetSystemPathname "::" the_pump = "::diagram::pump".
Proof. reflexivity. Qed.

Example valve_context_pathname :
  Context_GetSystemPathname "::" valve_subcontext = "::diagram::valve".
Proof. reflexivity. Qed.

Example two_pumps_one_warning :
  warning_text <$>
    drake_log (snd (run_calls "::" fnv1a_key
                      [warn_torque 0; warn_torque 1; warn_torque 0; warn_torque 1]
                      ([the_pump; the_spare_pump], process_start)))
  = ["InputPort[1] (torque) of System ::diagram::pump (Pump) is deprecated: no deprecation details were provided"].
Proof. vm_compute. reflexivity. Qed.

Example two_pumps_interleaved_one_warning :
  length (drake_log (statics (run_schedule "::" fnv1a_key [0; 1; 0; 1; 1; 0]
                                (launch [the_pump; the_spare_pump]
                                   [warn_torque 0; warn_torque 1])))) = 1.
Proof. vm_compute. reflexivity. Qed.

Example subcontext_message :
  fst (ThrowValidateContextMismatch (S:=unit) (A:=unit) "::" the_diagram pump_subcontext tt)
  = Thrown (std_logic_error
      ("A function call on the root Diagram was passed a subcontext associated with its subsystem named '::diagram::pump' instead of the root context. When calling a function on a the root Digram, you must pass a reference to the root Context, not a subcontext."
       +:+ newline +:+ info_link)).
Proof. reflexivity. Qed.

Example declare_on_plant :
  fst (DeclareCacheEntry "power" (constant 3%Z) {[27; 28]} the_plant) = Returned 2.
Proof. vm_compute. reflexivity. Qed.

Example plant_initializes :
  fst (InitializeContextBase example_tickets the_plant fresh_context) = Returned tt.
Proof. vm_compute. reflexivity. Qed.

Example plant_on_a_bare_context :
  fst (InitializeContextBase example_tickets the_plant bare_context)
  = Thrown (drake_demand_failed "has_tracker(ticket)").
Proof. vm_compute. reflexivity. Qed.

Example adder_object_name :
  GetMemoryObjectName "drake::systems::Adder<double>" 140724908796877
  = "drake/systems/Adder@00007ffd12332bcd".
Proof. vm_compute. reflexivity. Qed.

Example wrong_type_message :
  fst (ThrowInputPortHasWrongType (S:=unit) (A:=unit) "::" the_plant
         "EvalInputValue" 1 "int" "double" tt)
  = Thrown (std_logic_error
      "System::EvalInputValue(): expected value of type int for input port 'u1' (index 1) but the actual type was double. (System ::plant)").
Proof. reflexivity. Qed.

(** ** Instances of the theorems *)

(** C1 at the pump: its first input is fixed to 42, and 42 is returned
    although the pump sits in a Diagram that would answer 7. *)
Lemma EvalAbstractInputImpl_returns_fixed_value_witness :
  exists port,
    input_ports_ the_pump !! 0 = Some port /\
    EvalAbstractInputImpl "::" fnv1a_key "EvalAbstractInput" pump_subcontext 0
      (the_pump, process_start)
    = (Returned (Some 42%Z),
       snd (warn_if_deprecated "::" fnv1a_key port 0 (the_pump, process_start))) /\
    forall resolver,
      fst (EvalAbstractInputImpl "::" fnv1a_key "EvalAbstractInput"
             pump_subcontext 0 (with_resolver resolver the_pump, process_start))
        = Returned (Some 42%Z) /\
      snd (snd (EvalAbstractInputImpl "::" fnv1a_key "EvalAbstractInput"
                  pump_subcontext 0 (with_resolver resolver the_pump, process_start)))
        = snd (snd (EvalAbstractInputImpl "::" fnv1a_key "EvalAbstractInput"
                      pump_subcontext 0 (the_pump, process_start))).
Proof.
  apply (EvalAbstractInputImpl_returns_fixed_value "::" fnv1a_key
           "EvalAbstractInput" pump_subcontext 0 the_pump process_start
           {| get_value := 42%Z |}).
  - vm_compute. lia.
  - reflexivity.
Defined.

(** C2 at the pump handed the Diagram's root Context: its second input is
    not fixed there, and the result is null. *)
Lemma EvalAbstractInputImpl_unconnected_is_null_witness :
  exists port,
    input_ports_ the_pump !! 1 = Some port /\
    EvalAbstractInputImpl "::" fnv1a_key "EvalAbstractInput" root_context 1
      (the_pump, process_start)
    = (Returned None,
       snd (warn_if_deprecated "::" fnv1a_key port 1 (the_pump, process_start))).
Proof.
  apply (EvalAbstractInputImpl_unconnected_is_null "::" fnv1a_key
           "EvalAbstractInput" root_context 1 the_pump process_start).
  - vm_compute. lia.
  - reflexivity.
  - right. reflexivity.
Defined.

(** C3, as the code has it, at index 5 of the three-port plant. *)
Lemma EvalAbstractInput_index_out_of_range_witness :
  exists msg,
    EvalAbstractInput "::" fnv1a_key fresh_context 5 (the_plant, process_start)
      = (Thrown (std_out_of_range msg), (the_plant, process_start)) /\
    OutOfRange (std_out_of_range msg) /\
    names (pretty 5%Z) msg /\
    names (GetSystemPathname "::" the_plant) msg /\
    ((0 <= 5)%Z -> names (pretty (num_input_ports the_plant)) msg).
Proof.
  apply (EvalAbstractInput_index_out_of_range "::" fnv1a_key
           "EvalAbstractInput" fresh_context the_plant process_start).
  right. vm_compute. discriminate.
Defined.

(** C3 as stated fails at index -1: [ThrowNegativePortIndex] raises an
    out-of-range error, and so does the entry point, but the message does
    not name the declared input-port count (3). *)
Lemma EvalAbstractInput_negative_index_omits_count :
  exists msg,
    ThrowNegativePortIndex (A:=option Z) "::" the_plant "EvalAbstractInput" (-1)
      (the_plant, process_start)
      = (Thrown (std_out_of_range msg), (the_plant, process_start)) /\
    EvalAbstractInput "::" fnv1a_key fresh_context (-1) (the_plant, process_start)
      = (Thrown (std_out_of_range msg), (the_plant, process_start)) /\
    ~ names (pretty (num_input_ports the_plant)) msg.
Proof.
  eexists. split; [reflexivity|]. split; [reflexivity|].
  intros H. apply names_occurs_in in H. vm_compute in H. discriminate H.
Qed.

(** C4 at the plant and a Context as constructed: initialization completes,
    the Context is marked, and a second call fails leaving it as it is. *)
Lemma InitializeContextBase_once_witness :
  exists context',
    InitializeContextBase example_tickets the_plant fresh_context
      = (Returned tt, context') /\
    is_context_base_initialized context' = true /\
    exists e, PreconditionViolation e /\
              InitializeContextBase example_tickets the_plant context'
                = (Thrown e, context').
Proof.
  destruct (InitializeContextBase_once example_tickets the_plant fresh_context)
    as (_ & Hfresh & Hsecond).
  destruct Hfresh as [context' Hrun].
  { apply (bool_decide_unpack _
             (dec := fresh_context_for_dec example_tickets the_plant fresh_context)).
    vm_compute. exact I. }
  exists context'. split; [exact Hrun|].
  destruct (Hsecond context' Hrun) as [Hflag Hagain].
  split; [exact Hflag | exact (Hagain the_plant)].
Defined.

(** C6, as the code has it, in its three cases: the pump handed the
    Diagram's root Context gets the text that points to
    [GetMyContextFromRoot()]; the Diagram handed the pump's subcontext gets
    the subcontext text; the pump handed the valve's subcontext gets the
    generic text. *)
Lemma ThrowValidateContextMismatch_diagnosis_witness :
  ThrowValidateContextMismatch (S:=unit) (A:=unit) "::" the_pump root_context tt
    = (Thrown (std_logic_error (root_context_passed_message "::" the_pump)), tt) /\
  ThrowValidateContextMismatch (S:=unit) (A:=unit) "::" the_diagram pump_subcontext tt
    = (Thrown (std_logic_error (subcontext_passed_message "::" pump_subcontext)), tt) /\
  ThrowValidateContextMismatch (S:=unit) (A:=unit) "::" the_pump valve_subcontext tt
    = (Thrown (std_logic_error
         (generic_mismatch_message "::" the_pump valve_subcontext)), tt).
Proof.
  split; [|split].
  - apply (ThrowValidateContextMismatch_diagnosis "::" the_pump root_context tt).
    exists (in_diagram 7%Z). split; reflexivity.
  - apply (ThrowValidateContextMismatch_diagnosis "::" the_diagram pump_subcontext tt).
    + intros (parent & Hparent & _). discriminate Hparent.
    + reflexivity.
  - apply (ThrowValidateContextMismatch_diagnosis "::" the_pump valve_subcontext tt).
    + intros (parent & Hparent & Hid). injection Hparent as <-.
      discriminate Hid.
    + intros Hid. discriminate Hid.
Defined.

(** C6 as stated fails at the pump handed the valve's subcontext.  The
    transitive root of that Context carries the id the pump's ancestor
    expects, so the specification's case (a) applies; the code compares the
    passed Context's own id, finds no match, and throws the generic text. *)
Lemma ThrowValidateContextMismatch_sibling_context :
  root_identity_matches_ancestor the_pump valve_subcontext /\
  ThrowValidateContextMismatch (S:=unit) (A:=unit) "::" the_pump valve_subcontext tt
    = (Thrown (std_logic_error
         (generic_mismatch_message "::" the_pump valve_subcontext)), tt) /\
  generic_mismatch_message "::" the_pump valve_subcontext
    <> root_context_passed_message "::" the_pump.
Proof.
  split; [exists (in_diagram 7%Z); split; reflexivity|].
  split; [reflexivity|].
  vm_compute. discriminate.
Qed.

(** C7 with two pumps warning about "torque" twice each: at most one warning
    for the combination, and a fifth call adds none. *)
Lemma WarnPortDeprecation_warns_once_per_combination_witness :
  let final :=
    run_calls "::" fnv1a_key
      [warn_torque 0; warn_torque 1; warn_torque 0; warn_torque 1]
      ([the_pump; the_spare_pump], process_start) in
  length (warnings_for ("Pump", true, "torque") (drake_log (snd final))) <= 1 /\
  drake_log (snd (run_call "::" fnv1a_key (warn_torque 1) final))
    = drake_log (snd final).
Proof.
  intros final.
  destruct (WarnPortDeprecation_warns_once_per_combination "::" fnv1a_key
              [the_pump; the_spare_pump]
              [warn_torque 0; warn_torque 1; warn_torque 0; warn_torque 1])
    as [Hone Hlater].
  split; [apply Hone|].
  apply (Hlater (warn_torque 1)
           (store_already_warned true 1 true the_spare_pump)
           (set_already_warned true (example_port 1 24 "torque" (Some "")))).
  - reflexivity.
  - reflexivity.
  - vm_compute. discriminate.
Defined.

(** C8 at the plant, through the known-ticket variant. *)
Lemma DeclareCacheEntry_appends_descriptor_witness :
  exists entry,
    cache_entries_
      (snd (DeclareCacheEntryWithKnownTicket 30 "power" (constant 3%Z) {[27]} the_plant))
      = cache_entries_ the_plant ++ [entry] /\
    cache_index entry = num_cache_entries the_plant /\
    get_cache_entry
      (snd (DeclareCacheEntryWithKnownTicket 30 "power" (constant 3%Z) {[27]} the_plant))
      2 = Some entry /\
    description entry = "power" /\ prerequisites entry = {[27]} /\
    value_producer entry = constant 3%Z /\
    (snd (DeclareCacheEntryWithKnownTicket 30 "power" (constant 3%Z) {[27]} the_plant)
       = emplace_back_cache_entry entry the_plant \/
     snd (DeclareCacheEntryWithKnownTicket 30 "power" (constant 3%Z) {[27]} the_plant)
       = emplace_back_cache_entry entry
           (set_next_available_ticket (S (next_available_ticket_ the_plant)) the_plant)).
Proof.
  apply (DeclareCacheEntry_appends_descriptor "power" (constant 3%Z) {[27]} 30
           the_plant _ 2).
  left. vm_compute. reflexivity.
Defined.

(** C9 at the plant: the declared entry carries ticket 30, the next one the
    allocator had, and the allocator stands at 31 afterwards. *)
Lemma DeclareCacheEntry_is_known_ticket_variant_witness :
  ticket <$> get_cache_entry
               (snd (DeclareCacheEntry "power" (constant 3%Z) {[27]} the_plant)) 2
    = Some (next_available_ticket_ the_plant) /\
  next_available_ticket_
    (snd (DeclareCacheEntry "power" (constant 3%Z) {[27]} the_plant))
    = S (next_available_ticket_ the_plant).
Proof.
  apply (DeclareCacheEntry_is_known_ticket_variant "power" (constant 3%Z) {[27]}
           the_plant).
  vm_compute. reflexivity.
Defined.

(** C10 at the plant's second cache entry, which is disabled by default. *)
Lemma InitializeContextBase_seeds_cache_witness :
  exists slot,
    ctx_cache (snd (InitializeContextBase example_tickets the_plant fresh_context)) !! 1
      = Some slot /\
    value_storage slot = Some 9%Z /\
    value_is_up_to_date slot = false /\
    is_cache_entry_disabled slot = true.
Proof.
  apply (InitializeContextBase_seeds_cache example_tickets the_plant fresh_context
           (snd (InitializeContextBase example_tickets the_plant fresh_context))
           {| cache_index := 1; ticket := 28; description := "energy";
              value_producer := constant 9%Z; prerequisites := {[27]};
              is_disabled_by_default := true |}).
  - vm_compute. reflexivity.
  - apply elem_of_cons. right. apply list_elem_of_here.
Defined.

(** ** Instances of the further properties *)

(** The plant has three input ports; the second carries no deprecation. *)
Lemma WarnPortDeprecation_checks_its_arguments_witness :
  (exists what,
     WarnPortDeprecation "::" fnv1a_key true 7 (the_plant, process_start)
       = (Thrown (std_out_of_range what), (the_plant, process_start))) /\
  (exists condition,
     WarnPortDeprecation "::" fnv1a_key true 1 (the_plant, process_start)
       = (Thrown (drake_demand_failed condition), (the_plant, process_start))).
Proof.
  split.
  - apply (proj1 (WarnPortDeprecation_checks_its_arguments "::" fnv1a_key true 7
                    the_plant process_start)).
    right. vm_compute. discriminate.
  - apply (proj2 (WarnPortDeprecation_checks_its_arguments "::" fnv1a_key true 1
                    the_plant process_start)
             (example_port 1 25 "u1" None)).
    + vm_compute. discriminate.
    + reflexivity.
    + reflexivity.
Defined.

(** The pump's deprecated second input, warned about twice. *)
Lemma WarnPortDeprecation_second_call_is_silent_witness :
  exists state,
    WarnPortDeprecation "::" fnv1a_key true 1 (the_pump, process_start)
      = (Returned tt, state) /\
    WarnPortDeprecation "::" fnv1a_key true 1 state = (Returned tt, state).
Proof.
  apply (WarnPortDeprecation_second_call_is_silent "::" fnv1a_key true 1
           (example_port 1 24 "torque" (Some "")) the_pump process_start).
  - reflexivity.
  - exists "". reflexivity.
Defined.



(** The plant's deprecated first input, evaluated twice in the Context the
    plant has initialized. *)
Lemma EvalAbstractInputImpl_evaluated_again_witness :
  exists result state,
    EvalAbstractInputImpl "::" fnv1a_key "EvalAbstractInput" plant_context 0
      (the_plant, process_start) = (Returned result, state) /\
    EvalAbstractInputImpl "::" fnv1a_key "EvalAbstractInput" plant_context 0
      state = (Returned result, state) /\
    (Some "use u1" = None -> state = (the_plant, process_start)).
Proof.
  apply (EvalAbstractInputImpl_evaluated_again "::" fnv1a_key
           "EvalAbstractInput" plant_context 0
           {| input_base := example_port 0 24 "u0" (Some "use u1") |}
           the_plant process_start).
  - reflexivity.
  - right. left. reflexivity.
Defined.

(** [ThrowNegativePortIndex] handed the index 2. *)
Lemma SystemBase_diagnostics_never_return_witness :
  exists condition,
    ThrowNegativePortIndex (S:=unit) (A:=unit) "::" the_plant "GetInputPort" 2 tt
      = (Thrown (drake_demand_failed condition), tt).
Proof.
  apply (SystemBase_diagnostics_never_return (S:=unit) (A:=unit) "::" the_plant
           "GetInputPort" 2 0 "" "" "" "" "" 0%N tt).
  vm_compute. discriminate.
Defined.

(** The plant's second input port, "u1". *)
Lemma input_port_complaints_name_the_port_witness :
  exists msg,
    ThrowCantEvaluateInputPort (S:=unit) (A:=unit) "::" the_plant "EvalInput" 1 tt
      = (Thrown (std_logic_error msg), tt) /\
    names "u1" msg /\ names (pretty 1) msg /\ names "::plant" msg.
Proof.
  apply (input_port_complaints_name_the_port (S:=unit) (A:=unit) "::" the_plant
           "EvalInput" 1 {| input_base := example_port 1 25 "u1" None |}
           "" "" tt).
  reflexivity.
Defined.

(** An object that carries no System id, handed to the plant. *)
Lemma ThrowNotCreatedForThisSystemImpl_message_witness :
  exists msg,
    ThrowNotCreatedForThisSystemImpl (S:=unit) (A:=unit) "::" the_plant
      "Context" 0%N tt = (Thrown (std_logic_error msg), tt) /\
    names "Context" msg /\ names "Plant" msg /\ names "::plant" msg /\
    names "was not associated with any System" msg.
Proof.
  destruct (ThrowNotCreatedForThisSystemImpl_message (S:=unit) (A:=unit) "::"
              the_plant "Context" 0%N tt)
    as (msg & Hrun & Htype & Hsystem & Hpath & Hinvalid & _).
  exists msg. repeat split; try assumption. apply Hinvalid. reflexivity.
Defined.

(** From the pump's subcontext the walk ends at the Diagram's Context. *)
Lemma root_context_of_finds_the_root_witness :
  root_context_of pump_subcontext = root_context_of root_context /\
  root_context_of pump_subcontext <> pump_subcontext.
Proof.
  apply (root_context_of_finds_the_root pump_subcontext). reflexivity.
Defined.

(** The plant's two cache entries sit at 0 and 1; a third is declared. *)
Lemma DeclareCacheEntry_keeps_entries_indexed_witness :
  let known := snd (DeclareCacheEntryWithKnownTicket 30 "power" (constant 3%Z)
                      {[27]} the_plant) in
  let fresh := snd (DeclareCacheEntry "power" (constant 3%Z) {[27]} the_plant) in
  cache_entries_indexed known /\ cache_entries_indexed fresh /\
  NoDup (cache_index <$> cache_entries_ known) /\
  NoDup (cache_index <$> cache_entries_ fresh).
Proof.
  apply (DeclareCacheEntry_keeps_entries_indexed "power" (constant 3%Z) {[27]}
           30 the_plant).
  reflexivity.
Defined.

(** The plant's cache entries hold the tickets 27 and 28; the allocator
    stands at 30. *)
Lemma DeclareCacheEntry_hands_out_a_new_ticket_witness :
  let run := DeclareCacheEntry "power" (constant 3%Z) {[27]} the_plant in
  next_available_ticket_ (snd run) = 31 /\
  cache_tickets_assigned (snd run) /\
  forall ref,
    fst run = Returned ref ->
    exists entry,
      get_cache_entry (snd run) ref = Some entry /\
      ticket entry = 30 /\
      forall earlier,
        earlier ∈ cache_entries_ the_plant -> ticket earlier <> ticket entry.
Proof.
  apply (DeclareCacheEntry_hands_out_a_new_ticket "power" (constant 3%Z) {[27]}
           the_plant).
  unfold cache_tickets_assigned. simpl. repeat constructor; lia.
Defined.

(** The plant, initialized on a Context as constructed. *)
Lemma InitializeContextBase_records_the_declarations_witness :
  let context' :=
    snd (InitializeContextBase example_tickets the_plant fresh_context) in
  ctx_system_name context' = "plant" /\
  ctx_system_id context' = 1%N /\
  ctx_discrete_state_tickets context' = [23] /\
  ctx_input_port_tickets context' = [24; 25; 26] /\
  ctx_input_port_values context' = [None; None; None] /\
  ctx_output_port_tickets context' = [29].
Proof.
  intros context'.
  destruct (InitializeContextBase_records_the_declarations example_tickets
              the_plant fresh_context context')
    as (Hname & Hid & _ & Hxd & _ & _ & _ & Hin & _ & Hvalues & Hout).
  { vm_compute. reflexivity. }
  repeat split; assumption.
Defined.

(** The plant, initialized on a Context without the group trackers: the
    first [make_trackers] fails, after the name and the id were written. *)
Lemma InitializeContextBase_failure_is_not_marked_witness :
  let context' :=
    snd (InitializeContextBase example_tickets the_plant bare_context) in
  is_context_base_initialized context' = false /\
  ctx_parent context' = None /\
  ctx_system_name context' = "plant" /\ ctx_system_id context' = 1%N.
Proof.
  intros context'.
  destruct (InitializeContextBase_failure_is_not_marked example_tickets
              the_plant bare_context context'
              (drake_demand_failed "has_tracker(ticket)"))
    as (Hflag & Hparent & Hwritten).
  { vm_compute. reflexivity. }
  destruct (Hwritten eq_refl) as [Hname Hid].
  repeat split; assumption.
Defined.

(** The plant declares the tickets 23 to 29. *)
Lemma InitializeContextBase_creates_the_declared_trackers_witness :
  dom (ctx_graph
         (snd (InitializeContextBase example_tickets the_plant fresh_context)))
    = list_to_set [23; 24; 25; 26; 27; 28; 29] ∪ dom (ctx_graph fresh_context).
Proof.
  apply (InitializeContextBase_creates_the_declared_trackers example_tickets
           the_plant fresh_context).
  vm_compute. reflexivity.
Defined.

(** In the plant's Context the tracker of all discrete state (7) is
    subscribed to the group 23, the tracker of all input ports (13) to the
    port 25, the cache entry 28 to its prerequisite 27, and the output port
    29 to the cache entry 27. *)
Lemma InitializeContextBase_wires_the_trackers_witness :
  let context' :=
    snd (InitializeContextBase example_tickets the_plant fresh_context) in
  subscribed context' 7 23 /\ subscribed context' 13 25 /\
  subscribed context' 28 27 /\ subscribed context' 29 27.
Proof.
  intros context'.
  destruct (InitializeContextBase_wires_the_trackers example_tickets the_plant
              fresh_context context')
    as (Hxd & _ & _ & _ & Hin & Hcache & Hout & _).
  { vm_compute. reflexivity. }
  split; [|split; [|split]].
  - apply (Hxd {| info_ticket := 23; info_description := "xd0" |}).
    apply list_elem_of_here.
  - apply (Hin {| input_base := example_port 1 25 "u1" None |}).
    apply elem_of_cons. right. apply list_elem_of_here.
  - apply (Hcache {| cache_index := 1; ticket := 28; description := "energy";
                     value_producer := constant 9%Z; prerequisites := {[27]};
                     is_disabled_by_default := true |} 27).
    + apply elem_of_cons. right. apply list_elem_of_here.
    + by apply elem_of_singleton.
  - apply (Hout {| output_base := example_port 0 29 "y0" None;
                   GetPrerequisite :=
                     {| child_subsystem := None; dependency := 27 |} |}).
    + apply list_elem_of_here.
    + reflexivity.
Defined.

(** The plant has the cache entries 0 and 1; the Context as constructed has
    an empty cache. *)
Lemma InitializeContextBase_adds_one_slot_per_entry_witness :
  NoDup (cache_index <$> cache_entries_ the_plant) /\
  ctx_cache plant_context !! 1 = Some (initial_slot
    {| cache_index := 1; ticket := 28; description := "energy";
       value_producer := constant 9%Z; prerequisites := {[27]};
       is_disabled_by_default := true |}) /\
  (forall index, index ∉ cache_index <$> cache_entries_ the_plant ->
     ctx_cache plant_context !! index = ctx_cache fresh_context !! index).
Proof.
  destruct (InitializeContextBase_adds_one_slot_per_entry example_tickets
              the_plant fresh_context plant_context)
    as (Hnodup & Hslots & Hframe).
  { vm_compute. reflexivity. }
  split; [exact Hnodup|]. split; [|exact Hframe].
  refine (proj2 (Hslots
                   {| cache_index := 1; ticket := 28; description := "energy";
                      value_producer := constant 9%Z; prerequisites := {[27]};
                      is_disabled_by_default := true |} _)).
  apply elem_of_cons. right. apply list_elem_of_here.
Defined.

(** The plant declares a third cache entry, "power", and then initializes a
    Context: slot 2 is seeded with the producer's 3. *)
Lemma declared_cache_entry_gets_its_slot_witness :
  exists slot,
    ctx_cache
      (snd (InitializeContextBase example_tickets
              (snd (DeclareCacheEntry "power" (constant 3%Z) {[27]} the_plant))
              fresh_context)) !! 2 = Some slot /\
    value_description slot = "power" /\
    value_storage slot = Some 3%Z /\
    value_is_up_to_date slot = false /\
    is_cache_entry_disabled slot = false.
Proof.
  apply (declared_cache_entry_gets_its_slot example_tickets "power"
           (constant 3%Z) {[27]} 0 the_plant
           (snd (DeclareCacheEntry "power" (constant 3%Z) {[27]} the_plant)) 2
           fresh_context).
  - right. vm_compute. reflexivity.
  - vm_compute. reflexivity.
Defined.

(** The plant's second input in the Context the plant has initialized. *)
Lemma EvalAbstractInputImpl_after_initialization_witness :
  MaybeGetFixedInputPortValue plant_context 1 = None /\
  fst (EvalAbstractInputImpl "::" fnv1a_key "EvalAbstractInput" plant_context 1
         (the_plant, process_start)) = Returned None.
Proof.
  apply (EvalAbstractInputImpl_after_initialization example_tickets "::"
           fnv1a_key "EvalAbstractInput" the_plant fresh_context plant_context
           1 process_start).
  - vm_compute. reflexivity.
  - reflexivity.
  - left. reflexivity.
  - vm_compute. lia.
Defined.

(** The plant is a root System and the Context a root Context. *)
Lemma InitializeContextBase_gives_the_context_its_pathname_witness :
  Context_GetSystemPathname "::"
    (snd (InitializeContextBase example_tickets the_plant fresh_context))
  = "::plant".
Proof.
  apply (InitializeContextBase_gives_the_context_its_pathname example_tickets
           "::" the_plant fresh_context).
  - vm_compute. reflexivity.
  - exact I.
Defined.

(** Two Adders, one page apart. *)
Lemma GetMemoryObjectName_tells_objects_apart_witness :
  GetMemoryObjectName "drake::systems::Adder<double>" 4096
  <> GetMemoryObjectName "drake::systems::Adder<double>" 8192.
Proof.
  intros Heq.
  destruct (GetMemoryObjectName_tells_objects_apart
              "drake::systems::Adder<double>" "drake::systems::Adder<double>"
              4096 8192) as [_ Hsame]; [reflexivity | reflexivity |].
  discriminate (Hsame Heq).
Defined.

Lemma GetMemoryObjectName_drops_template_arguments_witness :
  GetMemoryObjectName "drake::systems::Adder<double>" 4096
  = GetMemoryObjectName "drake::systems::Adder" 4096.
Proof.
  apply (GetMemoryObjectName_drops_template_arguments "drake::systems::Adder"
           "double" 4096);
    repeat constructor; by vm_compute.
Defined.
